(** * Verification of the configuration parser/serializer of the
      SheepShaver / Basilisk II preferences editor ([src/main.py],
      class [ConfigParser]).

    The development is a shallow embedding of [ConfigParser.parse] and
    [ConfigParser.save] together with the fragment of the Python runtime the
    two functions call ([str.strip], [str.split], [str.lower], [str.isdigit],
    [int], [float], [str] of a number, text-mode file iteration and writing).

    Python strings are sequences of code points.  We model the code points
    below 256 (Python's one-byte string kind, i.e. Latin-1 text): a character
    is an [ascii] whose code is the code point.  Every classification
    function below is the restriction of the Python one to that range. *)

From Stdlib Require Import List Ascii String ZArith NArith Lia Bool.
From Stdlib Require Import DecimalPos DecimalN.
From Stdlib Require Import SpecFloat.
Import ListNotations.


(** ** Python strings *)

Definition str := list ascii.

(** [py "disk"] is the Python literal ['disk']. *)
Definition py (s : string) : str := list_ascii_of_string s.

Definition chr (n : N) : ascii := ascii_of_N n.
Definition ord (c : ascii) : N := N_of_ascii c.

Fixpoint str_eqb (a b : str) : bool :=
  match a, b with
  | [], [] => true
  | x :: a', y :: b' => Ascii.eqb x y && str_eqb a' b'
  | _, _ => false
  end.

Definition between (lo hi : N) (c : ascii) : bool :=
  (lo <=? ord c)%N && (ord c <=? hi)%N.

(** [Py_UNICODE_ISSPACE]: the characters [str.strip()] removes and
    [str.isspace] accepts; below 256 these are TAB..CR, FS..US, SPACE,
    NEL (U+0085) and NBSP (U+00A0). *)
Definition isspace (c : ascii) : bool :=
  between 9 13 c || between 28 32 c || (ord c =? 133)%N || (ord c =? 160)%N.

(** [Py_ISSPACE]: whitespace of the C locale, used inside [int()] and
    [float()] once the text has been brought to ASCII. *)
Definition c_isspace (c : ascii) : bool :=
  between 9 13 c || (ord c =? 32)%N.

(** '0'..'9'. *)
Definition isdecimal_char (c : ascii) : bool := between 48 57 c.

(** [str.isdigit] on one character: the decimal digits and the superscript
    digits U+00B2, U+00B3, U+00B9 (Numeric_Type=Digit). *)
Definition isdigit_char (c : ascii) : bool :=
  isdecimal_char c || (ord c =? 178)%N || (ord c =? 179)%N || (ord c =? 185)%N.

(** [str.lower] on one character: A..Z and the Latin-1 capitals
    U+00C0..U+00DE except the multiplication sign U+00D7. *)
Definition lower_char (c : ascii) : ascii :=
  if between 65 90 c || (between 192 222 c && negb (ord c =? 215)%N)
  then chr (ord c + 32)
  else c.

Definition lower (s : str) : str := map lower_char s.

(** [str.isdigit]: at least one character and all of them digits. *)
Definition isdigit (s : str) : bool :=
  match s with
  | [] => false
  | _ => forallb isdigit_char s
  end.

Fixpoint lstrip_with (sp : ascii -> bool) (s : str) : str :=
  match s with
  | c :: s' => if sp c then lstrip_with sp s' else s
  | [] => []
  end.

Definition rstrip_with (sp : ascii -> bool) (s : str) : str :=
  rev (lstrip_with sp (rev s)).

Definition strip_with (sp : ascii -> bool) (s : str) : str :=
  rstrip_with sp (lstrip_with sp s).

(** [s.strip()] *)
Definition strip (s : str) : str := strip_with isspace s.

(** The first occurrence of a space (U+0020) cuts the string in two. *)
Fixpoint cut_at_space (s : str) : option (str * str) :=
  match s with
  | [] => None
  | c :: s' =>
      if Ascii.eqb c " " then Some ([], s')
      else match cut_at_space s' with
           | Some (a, b) => Some (c :: a, b)
           | None => None
           end
  end.

(** [s.split(' ', 1)]: at most one split, at the first space character. *)
Definition split_space_1 (s : str) : list str :=
  match cut_at_space s with
  | Some (a, b) => [a; b]
  | None => [s]
  end.

(** ** Text-mode files

    [open(path, 'r')] reads with universal newlines: "\r\n" and a lone "\r"
    both reach the program as "\n".  [open(path, 'w')] writes every "\n" as
    the line separator of the platform. *)

Definition LF : ascii := chr 10.
Definition CR : ascii := chr 13.

Fixpoint universal_newlines (s : str) : str :=
  match s with
  | [] => []
  | c :: s' =>
      if Ascii.eqb c CR then
        match s' with
        | d :: _ => if Ascii.eqb d LF then universal_newlines s'
                    else LF :: universal_newlines s'
        | [] => [LF]
        end
      else c :: universal_newlines s'
  end.

(** Iterating over a text file yields its lines, each with its terminating
    "\n" (the last line may lack one). *)
Fixpoint readlines (s : str) : list str :=
  match s with
  | [] => []
  | c :: s' =>
      if Ascii.eqb c LF then [c] :: readlines s'
      else match readlines s' with
           | [] => [[c]]
           | l :: ls => (c :: l) :: ls
           end
  end.

Inductive platform := Posix | Windows.

(** [os.linesep] *)
Definition linesep (p : platform) : str :=
  match p with
  | Posix => [LF]
  | Windows => [CR; LF]
  end.

Definition translate_on_write (p : platform) (s : str) : str :=
  flat_map (fun c => if Ascii.eqb c LF then linesep p else [c]) s.

(** ** Exceptions *)

Inductive exn := ValueError | TypeError | OSError.

Inductive result (A : Type) :=
  | Ok (a : A)
  | Raise (e : exn).
Arguments Ok {A} a.
Arguments Raise {A} e.

Definition bind {A B} (r : result A) (k : A -> result B) : result B :=
  match r with
  | Ok a => k a
  | Raise e => Raise e
  end.

Notation "x <- r ;; k" := (bind r (fun x => k))
  (at level 61, r at next level, right associativity).

(** ** Numbers of the runtime: [int(s)] and [str(n)] *)

Definition digit_value (c : ascii) : N := (ord c - 48)%N.

(** Value of a run of decimal digits read left to right. *)
Fixpoint digits_val (s : str) (acc : N) : N :=
  match s with
  | [] => acc
  | c :: s' => digits_val s' (10 * acc + digit_value c)
  end.

(** [_PyUnicode_TransformDecimalAndSpaceToASCII]: both [int()] and
    [float()] first bring the text to ASCII.  Code points below 127 are
    kept, a Unicode space becomes a blank, a Unicode decimal digit becomes
    its ASCII digit (there is none from 127 to 255) and anything else
    becomes '?', which no number contains. *)
Definition to_ascii_char (c : ascii) : ascii :=
  if (ord c <? 127)%N then c
  else if isspace c then " "%char
  else "?"%char.

(** Digits with single underscores between them (PEP 515), as [int()]
    reads them in base 10. *)
Fixpoint int_digits (s : str) (after_digit : bool) (acc : N) : option N :=
  match s with
  | [] => if after_digit then Some acc else None
  | c :: s' =>
      if isdecimal_char c then int_digits s' true (10 * acc + digit_value c)
      else if Ascii.eqb c "_" then
        if after_digit then int_digits s' false acc else None
      else None
  end.

(** [int(s)]: [None] stands for [ValueError]. *)
Definition py_int (s : str) : option Z :=
  match strip_with c_isspace (map to_ascii_char s) with
  | c :: s' =>
      if Ascii.eqb c "-" then option_map (fun n => (- Z.of_N n)%Z) (int_digits s' false 0)
      else if Ascii.eqb c "+" then option_map Z.of_N (int_digits s' false 0)
      else option_map Z.of_N (int_digits (c :: s') false 0)
  | [] => None
  end.

Fixpoint str_of_uint (d : Decimal.uint) : str :=
  match d with
  | Decimal.Nil => []
  | Decimal.D0 d => "0"%char :: str_of_uint d
  | Decimal.D1 d => "1"%char :: str_of_uint d
  | Decimal.D2 d => "2"%char :: str_of_uint d
  | Decimal.D3 d => "3"%char :: str_of_uint d
  | Decimal.D4 d => "4"%char :: str_of_uint d
  | Decimal.D5 d => "5"%char :: str_of_uint d
  | Decimal.D6 d => "6"%char :: str_of_uint d
  | Decimal.D7 d => "7"%char :: str_of_uint d
  | Decimal.D8 d => "8"%char :: str_of_uint d
  | Decimal.D9 d => "9"%char :: str_of_uint d
  end.

Definition str_of_N (n : N) : str := str_of_uint (N.to_uint n).

(** [str(n)] for an [int]. *)
Definition str_of_int (z : Z) : str :=
  match z with
  | Zneg p => "-"%char :: str_of_N (Npos p)
  | _ => str_of_N (Z.to_N z)
  end.

(** ** Floating point of the runtime: [float(s)] and [str(x)]

    A Python [float] is an IEEE 754 binary64 number; we use the Standard
    Library's representation of such numbers ([spec_float], with
    precision 53 and [emax] 1024). *)

Definition pyfloat := spec_float.

Definition prec : Z := 53.
Definition emax : Z := 1024.

Definition float_eqb (x y : pyfloat) : bool :=
  match x, y with
  | S754_zero a, S754_zero b => Bool.eqb a b
  | S754_infinity a, S754_infinity b => Bool.eqb a b
  | S754_nan, S754_nan => true
  | S754_finite a m e, S754_finite b n f =>
      Bool.eqb a b && Pos.eqb m n && Z.eqb e f
  | _, _ => false
  end.

(** The binary64 number nearest to the positive rational [n/d], ties to
    even, with the sign [neg].  The unit in the last place is [2^(j-1074)]
    for the least [j >= 0] that leaves a quotient below [2^53]; a result
    above the largest finite number is an infinity, as in [float()]. *)
Definition round_ratio (neg : bool) (n d : positive) : pyfloat :=
  let n0 := (Zpos n * 2 ^ 1074)%Z in
  let a := (n0 / (2 ^ 53 * Zpos d))%Z in
  let j := if (a =? 0)%Z then 0%Z else (Z.log2 a + 1)%Z in
  let dj := (Zpos d * 2 ^ j)%Z in
  let q := (n0 / dj)%Z in
  let r := (n0 mod dj)%Z in
  let q' := match (2 * r ?= dj)%Z with
            | Lt => q
            | Gt => (q + 1)%Z
            | Eq => if Z.even q then q else (q + 1)%Z
            end in
  let (m, j') := if (q' =? 2 ^ 53)%Z then ((2 ^ 52)%Z, (j + 1)%Z) else (q', j) in
  match m with
  | Zpos p =>
      if (971 <? j' - 1074)%Z then S754_infinity neg
      else S754_finite neg p (j' - 1074)
  | _ => S754_zero neg
  end.

(** The binary64 number nearest to [(-1)^neg * d * 10^q]. *)
Definition float_of_decimal (neg : bool) (d : N) (q : Z) : pyfloat :=
  match d with
  | N0 => S754_zero neg
  | Npos p =>
      match q with
      | Z0 => round_ratio neg p 1
      | Zpos k => round_ratio neg (p * Pos.pow 10 k) 1
      | Zneg k => round_ratio neg p (Pos.pow 10 k)
      end
  end.

(** The underscore pass of [_Py_string_to_number_with_underscores]: an
    underscore must stand between two digits; [prev] is the previous
    character. *)
Fixpoint drop_underscores (prev : ascii) (s : str) : option str :=
  match s with
  | [] => if Ascii.eqb prev "_" then None else Some []
  | c :: s' =>
      if Ascii.eqb c "_" then
        if isdecimal_char prev then drop_underscores c s' else None
      else if Ascii.eqb prev "_" && negb (isdecimal_char c) then None
      else option_map (cons c) (drop_underscores c s')
  end.

(** The longest prefix of decimal digits, and what follows it. *)
Fixpoint span_digits (s : str) : str * str :=
  match s with
  | c :: s' =>
      if isdecimal_char c then let (a, b) := span_digits s' in (c :: a, b)
      else ([], s)
  | [] => ([], [])
  end.

Definition take_sign (s : str) : bool * str :=
  match s with
  | c :: s' =>
      if Ascii.eqb c "-" then (true, s')
      else if Ascii.eqb c "+" then (false, s')
      else (false, s)
  | [] => (false, [])
  end.

(** Py_TOLOWER: ASCII only. *)
Definition c_tolower (c : ascii) : ascii :=
  if between 65 90 c then chr (ord c + 32) else c.

(** The exponent part, which must reach the end of the text:
    nothing, or [e]/[E], an optional sign and at least one digit. *)
Definition exponent_part (s : str) : option Z :=
  match s with
  | [] => Some 0%Z
  | c :: s' =>
      if Ascii.eqb (c_tolower c) "e" then
        let (neg, s'') := take_sign s' in
        match span_digits s'' with
        | ((_ :: _) as ds, []) =>
            let n := Z.of_N (digits_val ds 0) in
            Some (if neg then (- n)%Z else n)
        | _ => None
        end
      else None
  end.

(** [PyOS_string_to_double] on text without surrounding blanks: a sign, then
    [inf], [infinity] or [nan] in any case, or a decimal literal with at
    least one digit in the mantissa. *)
Definition float_literal (s : str) : option pyfloat :=
  let (neg, body) := take_sign s in
  let low := map c_tolower body in
  if str_eqb low (py "inf") || str_eqb low (py "infinity")
  then Some (S754_infinity neg)
  else if str_eqb low (py "nan") then Some S754_nan
  else
    let (ip, r1) := span_digits body in
    let (fp, r2) :=
      match r1 with
      | c :: t => if Ascii.eqb c "." then span_digits t else ([], r1)
      | [] => ([], r1)
      end in
    match ip ++ fp with
    | [] => None
    | ds =>
        match exponent_part r2 with
        | Some ex =>
            Some (float_of_decimal neg (digits_val ds 0)
                                   (ex - Z.of_nat (List.length fp)))
        | None => None
        end
    end.

(** [float(s)]: [None] stands for [ValueError]. *)
Definition float_of_str (s : str) : option pyfloat :=
  match drop_underscores zero (map to_ascii_char s) with
  | Some s' =>
      match strip_with c_isspace s' with
      | [] => None
      | t => float_literal t
      end
  | None => None
  end.

(** Number of decimal digits of a positive integer. *)
Definition nb_digits10 (n : N) : Z := Z.of_nat (List.length (str_of_N n)).

(** Position of the decimal point of the positive rational [num/den]:
    the [k] with [10^(k-1) <= num/den < 10^k]. *)
Definition decimal_point (num den : N) : Z :=
  if (den <=? num)%N then nb_digits10 (num / den)
  else
    let d := (nb_digits10 den - nb_digits10 num)%Z in
    if (den <=? num * 10 ^ Z.to_N d)%N then (1 - d)%Z else (- d)%Z.

(** The two integers around [num/den * 10^t], the nearer one first
    (ties to even). *)
Definition neighbours (num den : N) (t : Z) : N * N :=
  let n := match t with Zneg _ => num | _ => (num * 10 ^ Z.to_N t)%N end in
  let d := match t with Zneg _ => (den * 10 ^ Z.to_N (- t))%N | _ => den end in
  let lo := (n / d)%N in
  let r := (n mod d)%N in
  match (2 * r ?= d)%N with
  | Lt => (lo, lo + 1)%N
  | Gt => (lo + 1, lo)%N
  | Eq => if N.even lo then (lo, lo + 1)%N else (lo + 1, lo)%N
  end.

Fixpoint drop_zeros (s : str) : str :=
  match s with
  | c :: s' => if Ascii.eqb c "0" then drop_zeros s' else s
  | [] => []
  end.

Definition zeros (n : Z) : str := repeat "0"%char (Z.to_nat n).

(** The text of the [repr] format for the digits [ds] (no trailing zero)
    with the decimal point after the [k]-th digit: exponent notation when
    [k <= -4] or [k > 16], otherwise positional with a digit on both sides
    of the point. *)
Definition format_repr (ds : str) (k : Z) : str :=
  let n := Z.of_nat (List.length ds) in
  if (k <=? -4)%Z || (16 <? k)%Z then
    let mant := match ds with
                | d :: [] => [d]
                | d :: rest => d :: "."%char :: rest
                | [] => []
                end in
    let ex := (k - 1)%Z in
    let ed := str_of_N (Z.to_N (Z.abs ex)) in
    mant ++ py "e" ++ (if (ex <? 0)%Z then py "-" else py "+")
         ++ (if (Z.abs ex <? 10)%Z then py "0" else []) ++ ed
  else if (k <=? 0)%Z then py "0." ++ zeros (- k) ++ ds
  else if (n <=? k)%Z then ds ++ zeros (k - n) ++ py ".0"
  else firstn (Z.to_nat k) ds ++ py "." ++ skipn (Z.to_nat k) ds.

Definition sign_text (neg : bool) : str := if neg then py "-" else [].

(** The text for the decimal [c * 10^q]. *)
Definition decimal_text_of (neg : bool) (c : N) (q : Z) : str :=
  let all := str_of_N c in
  let ds := rev (drop_zeros (rev all)) in
  sign_text neg ++ format_repr ds (Z.of_nat (List.length all) + q).

Definition reads_as (x : pyfloat) (t : str) : bool :=
  match float_of_str t with
  | Some y => float_eqb y x
  | None => false
  end.

(** The shortest decimal, of [p] significant digits or more, that reads
    back as the float [x] of magnitude [num/den]; among the shortest, the
    nearest to [x]. *)
Fixpoint shortest_from (neg : bool) (x : pyfloat) (num den : N) (k : Z)
         (p : Z) (fuel : nat) : option str :=
  match fuel with
  | O => None
  | S fuel' =>
      let (c1, c2) := neighbours num den (p - k) in
      let t1 := decimal_text_of neg c1 (k - p) in
      let t2 := decimal_text_of neg c2 (k - p) in
      if reads_as x t1 then Some t1
      else if reads_as x t2 then Some t2
      else shortest_from neg x num den k (p + 1) fuel'
  end.

(** The exact decimal expansion of [m * 2^e], as digits and a power of
    ten. *)
Definition exact_text (neg : bool) (m : positive) (e : Z) : str :=
  let k := Z.to_N (Z.max (- e) 0) in
  sign_text neg
    ++ str_of_N (Npos m * 2 ^ Z.to_N (Z.max e 0) * 5 ^ k)
    ++ py "e-" ++ str_of_N k.

(** [str(x)] for a [float] (the same text as [repr(x)]): the shortest
    decimal that reads back as [x].  Seventeen significant digits always
    suffice for binary64, so the search never fails; the exact expansion
    after it keeps the function total without appeal to that fact. *)
Definition str_of_float (x : pyfloat) : str :=
  match x with
  | S754_nan => py "nan"
  | S754_infinity neg => sign_text neg ++ py "inf"
  | S754_zero neg => sign_text neg ++ py "0.0"
  | S754_finite neg m e =>
      let num := match e with Zneg _ => Npos m | _ => (Npos m * 2 ^ Z.to_N e)%N end in
      let den := match e with Zneg _ => (2 ^ Z.to_N (- e))%N | _ => 1%N end in
      let k := decimal_point num den in
      match shortest_from neg x num den k 1 17 with
      | Some t => t
      | None => exact_text neg m e
      end
  end.

(** ** Values and dictionaries

    The objects a configuration dictionary holds: the four scalar types
    that [parse] produces and the UI collects, and the list of disk paths
    stored under ['disks']. *)

Inductive pyval :=
  | VBool (b : bool)
  | VInt (z : Z)
  | VFloat (x : pyfloat)
  | VStr (s : str)
  | VList (l : list str).

(** A Python [dict] keeps its keys in insertion order; assigning to a key
    that is present replaces the value in place. *)
Definition dict := list (str * pyval).

Fixpoint dict_get (d : dict) (k : str) : option pyval :=
  match d with
  | [] => None
  | (k', v) :: d' => if str_eqb k' k then Some v else dict_get d' k
  end.

(** [d.get(k, default)] *)
Definition dict_get_default (d : dict) (k : str) (default : pyval) : pyval :=
  match dict_get d k with
  | Some v => v
  | None => default
  end.

(** [d[k] = v] *)
Fixpoint dict_set (d : dict) (k : str) (v : pyval) : dict :=
  match d with
  | [] => [(k, v)]
  | (k', v') :: d' =>
      if str_eqb k' k then (k', v) :: d' else (k', v') :: dict_set d' k v
  end.

(** Iterating over a value: a list yields its items, a string its
    characters, a number is not iterable. *)
Definition iterate (v : pyval) : result (list str) :=
  match v with
  | VList l => Ok l
  | VStr s => Ok (map (fun c => [c]) s)
  | _ => Raise TypeError
  end.

Definition hex_digit (n : N) : ascii :=
  if (n <? 10)%N then chr (48 + n) else chr (87 + n).

(** [repr] of a string, used when a list is formatted. *)
Definition repr_char (quote : ascii) (c : ascii) : str :=
  if Ascii.eqb c quote || Ascii.eqb c "\" then ["\"%char; c]
  else if (ord c =? 9)%N then py "\t"
  else if (ord c =? 10)%N then py "\n"
  else if (ord c =? 13)%N then py "\r"
  else if (ord c <? 32)%N || between 127 160 c || (ord c =? 173)%N
       then py "\x" ++ [hex_digit (ord c / 16); hex_digit (ord c mod 16)]
  else [c].

Definition repr_str (s : str) : str :=
  let quote :=
    if existsb (Ascii.eqb "'") s && negb (existsb (Ascii.eqb (chr 34)) s)
    then chr 34 else "'"%char in
  quote :: flat_map (repr_char quote) s ++ [quote].

Fixpoint join (sep : str) (l : list str) : str :=
  match l with
  | [] => []
  | [x] => x
  | x :: l' => x ++ sep ++ join sep l'
  end.

(** [str(v)], which is what an f-string field [{v}] inserts. *)
Definition py_str (v : pyval) : str :=
  match v with
  | VBool b => if b then py "True" else py "False"
  | VInt z => str_of_int z
  | VFloat x => str_of_float x
  | VStr s => s
  | VList l => py "[" ++ join (py ", ") (map repr_str l) ++ py "]"
  end.

(** ** The file system

    A world records the platform, the text of every existing file (a path
    that is absent does not exist) and which paths [open(path, 'w')]
    accepts.  Paths that exist name regular files that can be read. *)

Record world := {
  os : platform;
  files : str -> option str;
  writable : str -> bool
}.

(** [os.path.exists] *)
Definition exists_path (w : world) (p : str) : bool :=
  match files w p with
  | Some _ => true
  | None => false
  end.

Definition put_file (w : world) (p : str) (data : str) : world :=
  {| os := os w;
     files := fun q => if str_eqb q p then Some data else files w q;
     writable := writable w |}.

(** [open(p, 'w')] creates or truncates the file. *)
Definition truncate (w : world) (p : str) : world := put_file w p [].

(** [f.write(text)] on the file opened at [p]. *)
Definition write (w : world) (p : str) (text : str) : world :=
  match files w p with
  | Some old => put_file w p (old ++ translate_on_write (os w) text)
  | None => put_file w p (translate_on_write (os w) text)
  end.

(** ** [ConfigParser] *)

Module ConfigParser.

(** Lines 47-49: [parts = line.split(' ', 1)], [key = parts[0]],
    [value = parts[1] if len(parts) > 1 else '']. *)
Definition key_value (line : str) : str * str :=
  let parts := split_space_1 line in
  let key := nth 0 parts [] in
  let value := if (1 <? List.length parts)%nat then nth 1 parts [] else [] in
  (key, value).

(** Lines 55-66: the conversion of the value of a line that is not a
    disk line. *)
Definition convert (value : str) : result pyval :=
  if str_eqb (lower value) (py "true") then Ok (VBool true)
  else if str_eqb (lower value) (py "false") then Ok (VBool false)
  else if isdigit value then
    match py_int value with
    | Some z => Ok (VInt z)
    | None => Raise ValueError
    end
  else
    match float_of_str value with
    | Some x => Ok (VFloat x)
    | None => Ok (VStr value)
    end.

(** Lines 42-67: the body of the loop, on the pair of [config] and
    [disks]. *)
Definition parse_line (st : dict * list str) (line : str)
  : result (dict * list str) :=
  let (config, disks) := st in
  let line := strip line in
  match line with
  | [] => Ok (config, disks)
  | _ =>
      let (key, value) := key_value line in
      if str_eqb key (py "disk") then Ok (config, disks ++ [value])
      else
        value <- convert value ;;
        Ok (dict_set config key value, disks)
  end.

Fixpoint parse_lines (st : dict * list str) (lines : list str)
  : result (dict * list str) :=
  match lines with
  | [] => Ok st
  | line :: rest => st' <- parse_line st line ;; parse_lines st' rest
  end.

(** Lines 41-70 on the text of the file. *)
Definition parse_text (text : str) : result dict :=
  st <- parse_lines ([], []) (readlines (universal_newlines text)) ;;
  let (config, disks) := st in
  Ok (dict_set config (py "disks") (VList disks)).

(** [ConfigParser.parse(filepath)] *)
Definition parse (w : world) (filepath : str) : result dict :=
  if negb (exists_path w filepath) then Ok []
  else
    match files w filepath with
    | Some text => parse_text text
    | None => Raise OSError
    end.

(** What a call leaves behind: its outcome, the file system, and the
    dictionary object it was given. *)
Record run := {
  outcome : result unit;
  world_after : world;
  config_after : dict
}.

(** Lines 81-86: one scalar entry. *)
Definition save_item (filepath : str) (w : world) (item : str * pyval)
  : world :=
  let (key, value) := item in
  if str_eqb key (py "disks") then w
  else
    let value :=
      match value with
      | VBool b => VStr (if b then py "true" else py "false")
      | _ => value
      end in
    write w filepath (key ++ py " " ++ py_str value ++ [LF]).

(** [ConfigParser.save(filepath, config)] *)
Definition save (w : world) (filepath : str) (config : dict) : run :=
  if writable w filepath then
    let w0 := truncate w filepath in
    match iterate (dict_get_default config (py "disks") (VList [])) with
    | Raise e => {| outcome := Raise e; world_after := w0;
                    config_after := config |}
    | Ok ds =>
        let w1 :=
          fold_left (fun w disk => write w filepath (py "disk " ++ disk ++ [LF]))
                    ds w0 in
        let w2 := fold_left (save_item filepath) config w1 in
        {| outcome := Ok tt; world_after := w2; config_after := config |}
    end
  else {| outcome := Raise OSError; world_after := w; config_after := config |}.

End ConfigParser.

Import ConfigParser.

(** ** Predicates used in the statements *)

(** A string with no blank at its start, resp. at its end. *)
Definition head_ok (sp : ascii -> bool) (s : str) : Prop :=
  exists c r, s = c :: r /\ sp c = false.

Definition last_ok (sp : ascii -> bool) (s : str) : Prop :=
  exists r c, s = r ++ [c] /\ sp c = false.

Definition no_space (s : str) : Prop := Forall (fun c => c <> " "%char) s.

Definition no_cr (s : str) : Prop := Forall (fun c => c <> CR) s.
Definition no_lf (s : str) : Prop := Forall (fun c => c <> LF) s.
Definition no_eol (s : str) : Prop := Forall (fun c => c <> LF /\ c <> CR) s.

Ltac each_char c :=
  destruct c as [[] [] [] [] [] [] [] []].

Definition all_decimal (s : str) : Prop :=
  Forall (fun c => isdecimal_char c = true) s.

(** A binary64 number in canonical form: the exponent in range, the
    significand below [2^53], and at least [2^52] unless the exponent is
    the least one. *)
Definition valid_float (x : pyfloat) : Prop :=
  match x with
  | S754_finite _ m e =>
      (-1074 <= e <= 971)%Z /\ (Zpos m < 2 ^ 53)%Z /\
      (e = (-1074)%Z \/ (2 ^ 52 <= Zpos m)%Z)
  | _ => True
  end.

Definition float_char (c : ascii) : bool :=
  isdecimal_char c || existsb (Ascii.eqb c) (py ".e+-infa").

Ltac chars :=
  repeat first
    [ apply Forall_app; split
    | apply Forall_cons; [reflexivity|]
    | apply Forall_nil
    | assumption ].

(** The text [save] puts after the key. *)
Definition rendered (v : pyval) : str :=
  py_str (match v with
          | VBool b => VStr (if b then py "true" else py "false")
          | _ => v
          end).

(** A value text: no line break inside, no blank at the end. *)
Definition text_ok (r : str) : Prop :=
  no_eol r /\ (r = [] \/ last_ok isspace r).

Definition keys (d : dict) : list str := map fst d.

(** The entries other than the disk list. *)
Definition scalars (d : dict) : dict :=
  filter (fun kv => negb (str_eqb (fst kv) (py "disks"))) d.

Definition key_ok (k : str) : Prop :=
  head_ok isspace k /\ no_space k /\ no_eol k /\ k <> py "disk".

(** An entry that was read from a line of a file. *)
Definition entry_ok (kv : str * pyval) : Prop :=
  key_ok (fst kv) /\
  exists raw, convert raw = Ok (snd kv) /\ text_ok raw /\
              (raw = [] -> last_ok isspace (fst kv)).

(** An entry whose written line reads back as the same entry. *)
Definition item_ok (kv : str * pyval) : Prop :=
  key_ok (fst kv) /\
  convert (rendered (snd kv)) = Ok (snd kv) /\
  text_ok (rendered (snd kv)) /\
  (rendered (snd kv) = [] -> last_ok isspace (fst kv)).

Definition parsed_state (st : dict * list str) : Prop :=
  NoDup (keys (fst st)) /\ Forall entry_ok (fst st) /\ Forall text_ok (snd st).

Definition disk_line (x : str) : str := py "disk " ++ x ++ [LF].

Definition item_line (kv : str * pyval) : str :=
  fst kv ++ py " " ++ rendered (snd kv) ++ [LF].

Definition saved_text (ds : list str) (config : dict) : str :=
  List.concat (map disk_line ds) ++ List.concat (map item_line (scalars config)).

(** The file being written holds [data], the rest of the world is [w]. *)
Definition writing (w0 : world) (p : str) (data : str) (w : world) : Prop :=
  files w p = Some (translate_on_write (os w0) data) /\ os w = os w0 /\
  writable w = writable w0 /\
  forall q, q <> p -> files w q = files w0 q.

(** The disk list of a document, read the way [save] and the UI read it:
    [config.get('disks', [])]. *)
Definition disks_of (d : dict) : pyval :=
  dict_get_default d (py "disks") (VList []).

(** The key and the raw value of a line; a blank line has none. *)
Definition line_entry (line : str) : option (str * str) :=
  match strip line with
  | [] => None
  | t => Some (key_value t)
  end.

Definition file_lines (text : str) : list str :=
  readlines (universal_newlines text).

(** The values of the [disk] lines, in file order. *)
Definition disk_values (lines : list str) : list str :=
  flat_map (fun line =>
              match line_entry line with
              | Some (k, v) => if str_eqb k (py "disk") then [v] else []
              | None => []
              end) lines.

(** The raw value of the last line whose key is [k], if any. *)
Definition last_value (k : str) (lines : list str) : option str :=
  fold_left (fun acc line =>
               match line_entry line with
               | Some (k', v) => if str_eqb k' k then Some v else acc
               | None => acc
               end) lines None.

(** The state of the key [k] while the lines are read: the last value seen
    for it, converted. *)
Definition tracks (k : str) (config : dict) (acc : option str) : Prop :=
  match acc with
  | Some raw => exists v, convert raw = Ok v /\ dict_get config k = Some v
  | None => dict_get config k = None
  end.

Definition sample_config : str :=
  py "disk /path/to/disk1.img" ++ [LF] ++
  py "disk /path/to/My Disk.iso" ++ [CR; LF] ++
  py "ramsize 134217728" ++ [LF] ++
  py "jit TRUE" ++ [LF] ++ [LF] ++
  py "mag_rate 1.5" ++ [LF] ++
  py "  screen win/800/600  " ++ [LF] ++
  py "jit false" ++ [LF] ++
  py "frameskip 0.1" ++ [LF] ++
  py "nocdrom".

Definition sample_world : world :=
  {| os := Windows;
     files := fun p => if str_eqb p (py "in.cfg") then Some sample_config
                       else None;
     writable := fun p => str_eqb p (py "out.cfg") |}.

Definition sample_document : dict :=
  [ (py "ramsize", VInt 134217728);
    (py "jit", VBool false);
    (py "mag_rate", VFloat (S754_finite false 6755399441055744 (-52)));
    (py "screen", VStr (py "win/800/600"));
    (py "frameskip", VFloat (S754_finite false 7205759403792794 (-56)));
    (py "nocdrom", VStr []);
    (py "disks", VList [py "/path/to/disk1.img"; py "/path/to/My Disk.iso"]) ].

(** A decidable form of [text_ok]. *)
Definition text_okb (r : str) : bool :=
  forallb (fun c => negb (Ascii.eqb c LF) && negb (Ascii.eqb c CR)) r &&
  match rev r with
  | [] => true
  | c :: _ => negb (isspace c)
  end.


Definition empty_world : world :=
  {| os := Posix; files := fun _ => None; writable := fun _ => true |}.

(** The split of a line as the specification words it: the key is the
    text before the first whitespace run, the value is what follows that
    run. *)
Fixpoint until_whitespace (s : str) : str * str :=
  match s with
  | [] => ([], [])
  | c :: s' =>
      if isspace c then ([], s)
      else let (a, b) := until_whitespace s' in (c :: a, b)
  end.

Definition split_at_whitespace_run (line : str) : str * str :=
  let (key, rest) := until_whitespace (strip line) in
  (key, lstrip_with isspace rest).

Definition TAB : ascii := chr 9.



Definition duplicate_world : world :=
  {| os := Posix;
     files := fun p =>
       if str_eqb p (py "jit.cfg")
       then Some (py "jit true" ++ [LF] ++ py "disk a.img" ++ [LF] ++ py "jit false")
       else if str_eqb p (py "disks.cfg")
       then Some (py "disks 1" ++ [LF] ++ py "disks 2" ++ [LF])
       else None;
     writable := fun _ => true |}.

Definition disks_collision_world : world :=
  {| os := Posix;
     files := fun p => if str_eqb p (py "c.cfg")
                       then Some (py "disks 15" ++ [LF] ++ py "disk a.img" ++ [LF]
                                  ++ py "rom x" ++ [LF] ++ py "disk b.img" ++ [LF])
                       else None;
     writable := fun _ => true |}.

(** ** The preference tabs

    Each tab of the editor is a Qt widget; [save_config] reads its
    controls and stores what they return in the dictionary.  A record
    [widgets] holds, for every control of a tab, the value its getter
    returns: [text()] of a line edit, [value()] of a spin box,
    [isChecked()] of a check box, [currentText()], [currentIndex()] or
    [currentData()] of a combo box, the texts of the items of the list.  A
    control that exists for one emulator only is read for that emulator
    only. *)

Inductive emulator_type := basilisk | sheepshaver.

(** [s.split(sep)] for a separator of one character. *)
Fixpoint split_on (sep : ascii) (s : str) : list str :=
  match s with
  | [] => [[]]
  | c :: s' =>
      if Ascii.eqb c sep then [] :: split_on sep s'
      else match split_on sep s' with
           | part :: parts => (c :: part) :: parts
           | [] => [[c]]
           end
  end.

(** [int(s)] as a computation that may raise. *)
Definition int_of_str (s : str) : result Z :=
  match py_int s with
  | Some z => Ok z
  | None => Raise ValueError
  end.

(** The integer a float is equal to, if any: [2.0 == 2]. *)
Definition integer_of_float (x : pyfloat) : option Z :=
  match x with
  | S754_zero _ => Some 0%Z
  | S754_finite s m e =>
      let sign := fun z : Z => if s then (- z)%Z else z in
      match e with
      | Z0 => Some (sign (Zpos m))
      | Zpos k => Some (sign (Zpos m * 2 ^ Zpos k)%Z)
      | Zneg k =>
          if (Zpos m mod 2 ^ Zpos k =? 0)%Z
          then Some (sign (Zpos m / 2 ^ Zpos k)%Z)
          else None
      end
  | _ => None
  end.

(** Looking a value up in a dictionary whose keys are integers: the
    integer key the value is equal to ([True == 1], [3.0 == 3]); a string
    equals none; a list cannot be hashed. *)
Definition int_key (v : pyval) : result (option Z) :=
  match v with
  | VBool b => Ok (Some (if b then 1 else 0)%Z)
  | VInt z => Ok (Some z)
  | VFloat x => Ok (integer_of_float x)
  | VStr _ => Ok None
  | VList _ => Raise TypeError
  end.

(** [v == 0]: [False == 0] and [0.0 == 0] hold, a string or a list equals
    no number. *)
Definition equals_zero (v : pyval) : bool :=
  match v with
  | VBool b => negb b
  | VInt z => (z =? 0)%Z
  | VFloat (S754_zero _) => true
  | _ => false
  end.

(** What [float(v)] gives: a float, an exception, or [OverflowError] for
    an integer beyond the range of the floats. *)
Inductive float_result :=
  | FloatOk (x : pyfloat)
  | FloatRaises (e : exn)
  | FloatOverflow.

Definition float_of_int (z : Z) : float_result :=
  match z with
  | Z0 => FloatOk (S754_zero false)
  | Zpos p =>
      match round_ratio false p 1 with
      | S754_infinity _ => FloatOverflow
      | x => FloatOk x
      end
  | Zneg p =>
      match round_ratio true p 1 with
      | S754_infinity _ => FloatOverflow
      | x => FloatOk x
      end
  end.

Definition float_of_value (v : pyval) : float_result :=
  match v with
  | VBool b => float_of_int (if b then 1 else 0)
  | VInt z => float_of_int z
  | VFloat x => FloatOk x
  | VStr s =>
      match float_of_str s with
      | Some x => FloatOk x
      | None => FloatRaises ValueError
      end
  | VList _ => FloatRaises TypeError
  end.

Module DrivesTab.

(** [disk_list] holds the text of every item of the list, in row
    order. *)
Record widgets := {
  disk_list : list str;
  extfs_edit : str;
  rom_edit : str;
  boot_drive : Z;
  boot_driver : Z;
  no_cdrom : bool
}.

(** Lines 216-222. *)
Definition save_config (self : widgets) (config : dict) : dict :=
  let config := dict_set config (py "disks") (VList (disk_list self)) in
  let config := dict_set config (py "extfs") (VStr (extfs_edit self)) in
  let config := dict_set config (py "rom") (VStr (rom_edit self)) in
  let config := dict_set config (py "bootdrive") (VInt (boot_drive self)) in
  let config := dict_set config (py "bootdriver") (VInt (boot_driver self)) in
  dict_set config (py "nocdrom") (VBool (no_cdrom self)).

(** The list of disks is a [QListWidget]: rows numbered from 0, and a
    current row that is -1 when no row is selected.  [takeItem(row)]
    removes the item of the row and returns it, or returns nothing and
    removes nothing when there is no such row; [insertItem(row, item)]
    puts the item before the row, a row beyond the end meaning the end,
    and does nothing without an item. *)
Definition takeItem (items : list str) (row : Z) : option str * list str :=
  if (row <? 0)%Z then (None, items)
  else
    match nth_error items (Z.to_nat row) with
    | Some item =>
        (Some item, firstn (Z.to_nat row) items ++ skipn (S (Z.to_nat row)) items)
    | None => (None, items)
    end.

Definition insertItem (items : list str) (row : Z) (item : option str)
  : list str :=
  match item with
  | Some x => firstn (Z.to_nat row) items ++ x :: skipn (Z.to_nat row) items
  | None => items
  end.

(** Lines 177-180; the result is the items of the list. *)
Definition remove_disk (items : list str) (currentRow : Z) : list str :=
  let row := currentRow in
  if (0 <=? row)%Z then snd (takeItem items row) else items.

(** Lines 182-187; the result is the items and the current row. *)
Definition move_up (items : list str) (currentRow : Z) : list str * Z :=
  let row := currentRow in
  if (0 <? row)%Z then
    let (item, items) := takeItem items row in
    (insertItem items (row - 1) item, (row - 1)%Z)
  else (items, currentRow).

(** Lines 189-194. *)
Definition move_down (items : list str) (currentRow : Z) : list str * Z :=
  let row := currentRow in
  if (row <? Z.of_nat (List.length items) - 1)%Z then
    let (item, items) := takeItem items row in
    (insertItem items (row + 1) item, (row + 1)%Z)
  else (items, currentRow).

End DrivesTab.

Module GraphicsTab.

(** [screen_mode], [color_depth] and [sdl_render] are combo boxes, read
    with [currentText()]; [mag_rate] is a [QDoubleSpinBox]. *)
Record widgets := {
  screen_mode : str;
  screen_width : Z;
  screen_height : Z;
  color_depth : str;
  frameskip : Z;
  gfx_accel : bool;
  scale_nearest : bool;
  scale_integer : bool;
  mag_rate : pyfloat;
  sdl_render : str
}.

(** Line 256: the items of the colour depth box. *)
Definition color_depth_items : list str :=
  [py "0 (Default)"; py "8"; py "16"; py "24"; py "32"].

(** Lines 335-347. *)
Definition save_config (emu : emulator_type) (self : widgets) (config : dict)
  : result dict :=
  let config :=
    dict_set config (py "screen")
      (VStr (screen_mode self ++ py "/" ++ str_of_int (screen_width self) ++
             py "/" ++ str_of_int (screen_height self))) in
  let depth_text := color_depth self in
  depth <- (if existsb (Ascii.eqb "0") depth_text then Ok 0%Z
            else int_of_str depth_text) ;;
  let config := dict_set config (py "displaycolordepth") (VInt depth) in
  let config := dict_set config (py "frameskip") (VInt (frameskip self)) in
  let config :=
    match emu with
    | sheepshaver => dict_set config (py "gfxaccel") (VBool (gfx_accel self))
    | basilisk => config
    end in
  let config := dict_set config (py "scale_nearest") (VBool (scale_nearest self)) in
  let config := dict_set config (py "scale_integer") (VBool (scale_integer self)) in
  let config := dict_set config (py "mag_rate") (VFloat (mag_rate self)) in
  Ok (dict_set config (py "sdlrender") (VStr (sdl_render self))).

(** Lines 305-310 of [load_config]: the mode, the width and the height
    handed to the three controls, or nothing when the text has fewer than
    three parts; the exception of [int()] leaves [load_config] (the mode
    was handed over by then). *)
Definition load_screen (config : dict) : result (option (str * Z * Z)) :=
  let screen :=
    py_str (dict_get_default config (py "screen") (VStr (py "win/800/600"))) in
  let parts := split_on "/" screen in
  if (3 <=? List.length parts)%nat then
    width <- int_of_str (nth 1 parts []) ;;
    height <- int_of_str (nth 2 parts []) ;;
    Ok (Some (nth 0 parts [], width, height))
  else Ok None.

(** Lines 322-325 and 327-330 of [load_config]: the value handed to the
    check box of a scaling flag. *)
Definition load_flag (config : dict) (key : str) : pyval :=
  let flag := dict_get_default config key (VBool false) in
  match flag with
  | VStr s =>
      VBool (existsb (str_eqb (lower s)) [py "true"; py "ture"])
  | _ => flag
  end.

(** How an item of a combo box is selected: [setCurrentIndex] or
    [setCurrentText]. *)
Inductive selection :=
  | ByIndex (index : Z)
  | ByText (text : str).

(** Lines 312-316 of [load_config]: index 0 for a depth equal to 0, else
    the text of the depth. *)
Definition load_depth (config : dict) : selection :=
  let depth := dict_get_default config (py "displaycolordepth") (VInt 0) in
  if equals_zero depth then ByIndex 0 else ByText (py_str depth).

(** Line 332 of [load_config]: the argument of
    [mag_rate.setValue]. *)
Definition load_mag_rate (config : dict) : float_result :=
  float_of_value
    (dict_get_default config (py "mag_rate")
       (VFloat (S754_finite false 4503599627370496 (-52)))).

End GraphicsTab.

Module SoundTab.

Record widgets := {
  no_sound : bool;
  sound_buffer : Z;
  dsp_edit : str;
  mixer_edit : str
}.

(** Lines 388-392. *)
Definition save_config (self : widgets) (config : dict) : dict :=
  let config := dict_set config (py "nosound") (VBool (no_sound self)) in
  let config := dict_set config (py "sound_buffer") (VInt (sound_buffer self)) in
  let config := dict_set config (py "dsp") (VStr (dsp_edit self)) in
  dict_set config (py "mixer") (VStr (mixer_edit self)).

End SoundTab.

Module NetworkTab.

(** [ether_mode] is a combo box, read with [currentText()]. *)
Record widgets := {
  ether_mode : str;
  udp_tunnel : bool;
  udp_port : Z;
  no_net : bool
}.

(** Lines 438-444. *)
Definition save_config (emu : emulator_type) (self : widgets) (config : dict)
  : dict :=
  let config := dict_set config (py "ether") (VStr (ether_mode self)) in
  let config :=
    match emu with
    | basilisk =>
        let config := dict_set config (py "udptunnel") (VBool (udp_tunnel self)) in
        dict_set config (py "udpport") (VInt (udp_port self))
    | sheepshaver => config
    end in
  match emu with
  | sheepshaver => dict_set config (py "nonet") (VBool (no_net self))
  | basilisk => config
  end.

End NetworkTab.

Module CpuMemoryTab.

(** [ram_size] is read with [currentData()], the number of bytes that
    was attached to the selected item (lines 463-474); [cpu_type] is read
    with [currentIndex()]. *)
Record widgets := {
  ram_size : Z;
  cpu_type : Z;
  model_id : Z;
  fpu_enabled : bool;
  jit_fpu : bool;
  jit_cache_size : Z;
  jit_lazy_flush : bool;
  jit_inline : bool;
  jit_debug : bool;
  cpu_clock : Z;
  jit_68k : bool;
  jit_enabled : bool
}.

(** Lines 569-570: [cpu_map.get(index, 3)] with [cpu_map = {0: 2, 1: 3, 2: 4}]. *)
Definition cpu_of_index (index : Z) : Z :=
  match index with
  | 0 => 2
  | 1 => 3
  | 2 => 4
  | _ => 3
  end%Z.

(** Lines 548-550 of [load_config]: the index handed to the box of CPU
    types, [cpu_map.get(cpu, 1)] with [cpu_map = {2: 0, 3: 1, 4: 2}]. *)
Definition index_of_cpu (config : dict) : result Z :=
  let cpu := dict_get_default config (py "cpu") (VInt 3) in
  key <- int_key cpu ;;
  Ok (match key with
      | Some 2 => 0
      | Some 3 => 1
      | Some 4 => 2
      | _ => 1
      end)%Z.

(** Lines 565-583. *)
Definition save_config (emu : emulator_type) (self : widgets) (config : dict)
  : dict :=
  let config := dict_set config (py "ramsize") (VInt (ram_size self)) in
  let config :=
    match emu with
    | basilisk =>
        let config := dict_set config (py "cpu") (VInt (cpu_of_index (cpu_type self))) in
        let config := dict_set config (py "modelid") (VInt (model_id self)) in
        let config := dict_set config (py "fpu") (VBool (fpu_enabled self)) in
        let config := dict_set config (py "jitfpu") (VBool (jit_fpu self)) in
        let config := dict_set config (py "jitcachesize") (VInt (jit_cache_size self)) in
        let config := dict_set config (py "jitlazyflush") (VBool (jit_lazy_flush self)) in
        let config := dict_set config (py "jitinline") (VBool (jit_inline self)) in
        dict_set config (py "jitdebug") (VBool (jit_debug self))
    | sheepshaver => config
    end in
  let config :=
    match emu with
    | sheepshaver =>
        let config := dict_set config (py "cpuclock") (VInt (cpu_clock self)) in
        dict_set config (py "jit68k") (VBool (jit_68k self))
    | basilisk => config
    end in
  dict_set config (py "jit") (VBool (jit_enabled self)).

End CpuMemoryTab.

Module InputTab.

Record widgets := {
  kb_type : Z;
  keycodes : bool;
  keycode_file : str;
  hotkey : Z;
  swap_opt_cmd : bool;
  mouse_wheel_mode : Z;
  mouse_wheel_lines : Z;
  init_grab : bool;
  hard_cursor : bool
}.

(** Lines 664-674. *)
Definition save_config (emu : emulator_type) (self : widgets) (config : dict)
  : dict :=
  let config := dict_set config (py "keyboardtype") (VInt (kb_type self)) in
  let config := dict_set config (py "keycodes") (VBool (keycodes self)) in
  let config := dict_set config (py "keycodefile") (VStr (keycode_file self)) in
  let config := dict_set config (py "hotkey") (VInt (hotkey self)) in
  let config := dict_set config (py "swap_opt_cmd") (VBool (swap_opt_cmd self)) in
  let config := dict_set config (py "mousewheelmode") (VInt (mouse_wheel_mode self)) in
  let config := dict_set config (py "mousewheellines") (VInt (mouse_wheel_lines self)) in
  let config := dict_set config (py "init_grab") (VBool (init_grab self)) in
  match emu with
  | sheepshaver => dict_set config (py "hardcursor") (VBool (hard_cursor self))
  | basilisk => config
  end.

End InputTab.

Module SerialTab.

Record widgets := {
  serial_a : str;
  serial_b : str
}.

(** Lines 706-708. *)
Definition save_config (self : widgets) (config : dict) : dict :=
  let config := dict_set config (py "seriala") (VStr (serial_a self)) in
  dict_set config (py "serialb") (VStr (serial_b self)).

End SerialTab.

Module MiscTab.

Record widgets := {
  no_gui : bool;
  no_clip_conversion : bool;
  ignore_segv : bool;
  ignore_illegal : bool;
  idle_wait : bool;
  year_offset : Z;
  day_offset : Z;
  name_encoding : Z;
  delay : Z
}.

(** Lines 792-803. *)
Definition save_config (emu : emulator_type) (self : widgets) (config : dict)
  : dict :=
  let config := dict_set config (py "nogui") (VBool (no_gui self)) in
  let config := dict_set config (py "noclipconversion") (VBool (no_clip_conversion self)) in
  let config := dict_set config (py "ignoresegv") (VBool (ignore_segv self)) in
  let config :=
    match emu with
    | sheepshaver => dict_set config (py "ignoreillegal") (VBool (ignore_illegal self))
    | basilisk => config
    end in
  let config := dict_set config (py "idlewait") (VBool (idle_wait self)) in
  let config := dict_set config (py "yearofs") (VInt (year_offset self)) in
  let config := dict_set config (py "dayofs") (VInt (day_offset self)) in
  let config := dict_set config (py "name_encoding") (VInt (name_encoding self)) in
  match emu with
  | basilisk => dict_set config (py "delay") (VInt (delay self))
  | sheepshaver => config
  end.

End MiscTab.

Module EmulatorTab.

Record widgets := {
  drives_tab : DrivesTab.widgets;
  graphics_tab : GraphicsTab.widgets;
  sound_tab : SoundTab.widgets;
  network_tab : NetworkTab.widgets;
  cpu_memory_tab : CpuMemoryTab.widgets;
  input_tab : InputTab.widgets;
  serial_tab : SerialTab.widgets;
  misc_tab : MiscTab.widgets
}.

(** Lines 855-865: a fresh dictionary, filled by the tabs in turn. *)
Definition save_config (emu : emulator_type) (self : widgets) : result dict :=
  let config := [] in
  let config := DrivesTab.save_config (drives_tab self) config in
  config <- GraphicsTab.save_config emu (graphics_tab self) config ;;
  let config := SoundTab.save_config (sound_tab self) config in
  let config := NetworkTab.save_config emu (network_tab self) config in
  let config := CpuMemoryTab.save_config emu (cpu_memory_tab self) config in
  let config := InputTab.save_config emu (input_tab self) config in
  let config := SerialTab.save_config (serial_tab self) config in
  Ok (MiscTab.save_config emu (misc_tab self) config).

End EmulatorTab.

Module PrefsEditor.

(** The four values kept in [QSettings]. *)
Record settings := {
  basilisk_exe : str;
  basilisk_cfg : str;
  sheepshaver_exe : str;
  sheepshaver_cfg : str
}.

Record window := {
  stored : settings;
  basilisk_tab : EmulatorTab.widgets;
  sheepshaver_tab : EmulatorTab.widgets
}.

(** The message box a method ends with. *)
Inductive dialog :=
  | Information (text : str)
  | Warning (text : str)
  | Critical (e : exn).

(** Lines 1033-1048.  The result is the message box shown and the file
    system left behind. *)
Definition save_all_configs (w : world) (self : window) : dialog * world :=
  let basilisk_cfg := basilisk_cfg (stored self) in
  let first :=
    match basilisk_cfg with
    | [] => (Ok tt, w)
    | _ =>
        match EmulatorTab.save_config basilisk (basilisk_tab self) with
        | Ok config =>
            let r := save w basilisk_cfg config in (outcome r, world_after r)
        | Raise e => (Raise e, w)
        end
    end in
  match first with
  | (Raise e, w) => (Critical e, w)
  | (Ok _, w) =>
      let sheepshaver_cfg := sheepshaver_cfg (stored self) in
      let second :=
        match sheepshaver_cfg with
        | [] => (Ok tt, w)
        | _ =>
            match EmulatorTab.save_config sheepshaver (sheepshaver_tab self) with
            | Ok config =>
                let r := save w sheepshaver_cfg config in
                (outcome r, world_after r)
            | Raise e => (Raise e, w)
            end
        end in
      match second with
      | (Raise e, w) => (Critical e, w)
      | (Ok _, w) => (Information (py "Configurations saved successfully!"), w)
      end
  end.

(** What [launch_emulator] ends with: a message box, or the call
    [subprocess.Popen(args, start_new_session=True)]. *)
Inductive launch :=
  | Shown (d : dialog)
  | Popen (args : list str).

Definition emulator_name (emu : emulator_type) : str :=
  match emu with
  | basilisk => py "basilisk"
  | sheepshaver => py "sheepshaver"
  end.

(** Lines 1050-1085, up to the call of [Popen]. *)
Definition launch_emulator (w : world) (self : window) (emu : emulator_type)
  : launch * world :=
  let (exe, cfg) :=
    match emu with
    | basilisk => (basilisk_exe (stored self), basilisk_cfg (stored self))
    | sheepshaver => (sheepshaver_exe (stored self), sheepshaver_cfg (stored self))
    end in
  match exe with
  | [] =>
      (Shown (Warning (py "Please set " ++ emulator_name emu ++
                       py " executable path in Settings.")), w)
  | _ =>
      if negb (exists_path w exe) then
        (Shown (Warning (py "Executable not found: " ++ exe)), w)
      else
        let tab :=
          match emu with
          | basilisk => basilisk_tab self
          | sheepshaver => sheepshaver_tab self
          end in
        match EmulatorTab.save_config emu tab with
        | Raise e => (Shown (Critical e), w)
        | Ok config =>
            match cfg with
            | [] => (Popen [exe], w)
            | _ =>
                let r := save w cfg config in
                match outcome r with
                | Raise e => (Shown (Critical e), world_after r)
                | Ok _ => (Popen [exe; py "--config"; cfg], world_after r)
                end
            end
        end
  end.

End PrefsEditor.

(** ** Further predicates and examples *)

(** An entry whose key and written value make one well-formed line. *)
Definition written_ok (kv : str * pyval) : Prop :=
  key_ok (fst kv) /\ text_ok (rendered (snd kv)) /\
  (rendered (snd kv) = [] -> last_ok isspace (fst kv)).

(** [kv'] is [kv] read again: the same key, with the value the conversion
    gives to the written text. *)
Definition reread (kv kv' : str * pyval) : Prop :=
  fst kv' = fst kv /\ convert (rendered (snd kv)) = Ok (snd kv').

(** Decidable forms, for concrete keys. *)
Definition key_okb (k : str) : bool :=
  match k with
  | [] => false
  | c :: _ => negb (isspace c)
  end &&
  forallb (fun c => negb (Ascii.eqb c " ") && negb (Ascii.eqb c LF) &&
                    negb (Ascii.eqb c CR)) k &&
  negb (str_eqb k (py "disk")) &&
  match rev k with
  | [] => false
  | c :: _ => negb (isspace c)
  end.

(** A dictionary as the editor may hand it to [save]: a negative offset
    and a path that spells a boolean. *)
Definition edited_document : dict :=
  [(py "disks", VList [py "a.img"]); (py "yearofs", VInt (-5));
   (py "rom", VStr (py "TRUE"))].

(** A file that holds only blank characters. *)
Definition blank_world : world :=
  {| os := Posix;
     files := fun p => if str_eqb p (py "blank.cfg")
                       then Some (py "  " ++ [CR; LF; TAB; LF])
                       else None;
     writable := fun _ => true |}.

(** [b] is [a] with further line feeds put right after some of its line
    feeds, and likewise for lists of lines and empty lines. *)
Inductive blanked : str -> str -> Prop :=
  | blanked_nil : blanked [] []
  | blanked_cons c a b : blanked a b -> blanked (c :: a) (c :: b)
  | blanked_feed a b : blanked a b -> blanked (LF :: a) (LF :: LF :: b).

Inductive blank_lines_added : list str -> list str -> Prop :=
  | added_nil : blank_lines_added [] []
  | added_cons l a b :
      blank_lines_added a b -> blank_lines_added (l :: a) (l :: b)
  | added_blank l a b :
      blank_lines_added a b -> blank_lines_added (l :: a) (l :: [LF] :: b).

(** The same world on the other platform. *)
Definition on_platform (p : platform) (w : world) : world :=
  {| os := p; files := files w; writable := writable w |}.

(** The characters a float literal is made of. *)
Definition literal_char (c : ascii) : bool :=
  isdecimal_char c || existsb (Ascii.eqb (c_tolower c)) (py ".e+-infatyn").

(** A text that [save] writes as it is and [parse] reads as a string. *)
Definition plain_text (s : str) : Prop :=
  text_ok s /\ convert s = Ok (VStr s).

(** What a value is when the line [save] wrote for it is read again: a
    negative integer comes back as a float, since [isdigit] rejects the
    sign; the rest comes back as it was. *)
Definition reread_value (v : pyval) : pyval :=
  match v with
  | VInt (Zneg p) => VFloat (float_of_decimal true (Npos p) 0)
  | _ => v
  end.

Definition reread_entry (kv : str * pyval) : str * pyval :=
  (fst kv, reread_value (snd kv)).

(** An entry as the tabs store it: a key of the editor, and a boolean, an
    integer, a float or a plain text. *)
Definition stored_entry (kv : str * pyval) : Prop :=
  key_okb (fst kv) = true /\
  match snd kv with
  | VBool _ => True
  | VInt _ => True
  | VFloat x => valid_float x
  | VStr s => plain_text s
  | VList _ => False
  end.

(** The texts of a tab that must be plain for the file to hold them. *)
Definition storable (self : EmulatorTab.widgets) : Prop :=
  Forall text_ok (DrivesTab.disk_list (EmulatorTab.drives_tab self)) /\
  plain_text (DrivesTab.extfs_edit (EmulatorTab.drives_tab self)) /\
  plain_text (DrivesTab.rom_edit (EmulatorTab.drives_tab self)) /\
  no_eol (GraphicsTab.screen_mode (EmulatorTab.graphics_tab self)) /\
  valid_float (GraphicsTab.mag_rate (EmulatorTab.graphics_tab self)) /\
  plain_text (GraphicsTab.sdl_render (EmulatorTab.graphics_tab self)) /\
  plain_text (SoundTab.dsp_edit (EmulatorTab.sound_tab self)) /\
  plain_text (SoundTab.mixer_edit (EmulatorTab.sound_tab self)) /\
  plain_text (NetworkTab.ether_mode (EmulatorTab.network_tab self)) /\
  plain_text (InputTab.keycode_file (EmulatorTab.input_tab self)) /\
  plain_text (SerialTab.serial_a (EmulatorTab.serial_tab self)) /\
  plain_text (SerialTab.serial_b (EmulatorTab.serial_tab self)).

(** The keys a tab writes, in the order of the file. *)
Definition keys_written (emu : emulator_type) : list str :=
  [py "disks"; py "extfs"; py "rom"; py "bootdrive"; py "bootdriver";
   py "nocdrom"; py "screen"; py "displaycolordepth"; py "frameskip"] ++
  match emu with sheepshaver => [py "gfxaccel"] | basilisk => [] end ++
  [py "scale_nearest"; py "scale_integer"; py "mag_rate"; py "sdlrender";
   py "nosound"; py "sound_buffer"; py "dsp"; py "mixer"; py "ether"] ++
  match emu with
  | basilisk => [py "udptunnel"; py "udpport"]
  | sheepshaver => [py "nonet"]
  end ++
  [py "ramsize"] ++
  match emu with
  | basilisk => [py "cpu"; py "modelid"; py "fpu"; py "jitfpu";
                 py "jitcachesize"; py "jitlazyflush"; py "jitinline";
                 py "jitdebug"]
  | sheepshaver => [py "cpuclock"; py "jit68k"]
  end ++
  [py "jit"; py "keyboardtype"; py "keycodes"; py "keycodefile"; py "hotkey";
   py "swap_opt_cmd"; py "mousewheelmode"; py "mousewheellines";
   py "init_grab"] ++
  match emu with sheepshaver => [py "hardcursor"] | basilisk => [] end ++
  [py "seriala"; py "serialb"; py "nogui"; py "noclipconversion";
   py "ignoresegv"] ++
  match emu with sheepshaver => [py "ignoreillegal"] | basilisk => [] end ++
  [py "idlewait"; py "yearofs"; py "dayofs"; py "name_encoding"] ++
  match emu with basilisk => [py "delay"] | sheepshaver => [] end.

(** No string occurs twice. *)
Fixpoint distinct (l : list str) : bool :=
  match l with
  | [] => true
  | k :: l' => negb (existsb (str_eqb k) l') && distinct l'
  end.

(** The settings and the tab of an emulator. *)
Definition exe_of (self : PrefsEditor.window) (emu : emulator_type) : str :=
  match emu with
  | basilisk => PrefsEditor.basilisk_exe (PrefsEditor.stored self)
  | sheepshaver => PrefsEditor.sheepshaver_exe (PrefsEditor.stored self)
  end.

Definition cfg_of (self : PrefsEditor.window) (emu : emulator_type) : str :=
  match emu with
  | basilisk => PrefsEditor.basilisk_cfg (PrefsEditor.stored self)
  | sheepshaver => PrefsEditor.sheepshaver_cfg (PrefsEditor.stored self)
  end.

Definition tab_of (self : PrefsEditor.window) (emu : emulator_type)
  : EmulatorTab.widgets :=
  match emu with
  | basilisk => PrefsEditor.basilisk_tab self
  | sheepshaver => PrefsEditor.sheepshaver_tab self
  end.

Ltac other_key := let H := fresh in intro H; vm_compute in H; discriminate H.

Ltac run_tabs :=
  unfold EmulatorTab.save_config, DrivesTab.save_config,
    GraphicsTab.save_config, SoundTab.save_config, NetworkTab.save_config,
    CpuMemoryTab.save_config, InputTab.save_config, SerialTab.save_config,
    MiscTab.save_config in *.

Ltac run_dict :=
  cbv [dict_set str_eqb py list_ascii_of_string Ascii.eqb Bool.eqb andb bind
       keys map fst snd keys_written app scalars filter negb disks_of
       dict_get_default dict_get] in *.

Ltac split_depth self :=
  destruct (existsb (Ascii.eqb "0")
              (GraphicsTab.color_depth (EmulatorTab.graphics_tab self)));
  [| destruct (int_of_str
                 (GraphicsTab.color_depth (EmulatorTab.graphics_tab self)))
       as [depth|e]; [|cbn [bind]; discriminate]].

(** A state of the tabs of one emulator, a window and two file systems,
    for the examples. *)
Definition sample_tab : EmulatorTab.widgets :=
  {| EmulatorTab.drives_tab :=
       {| DrivesTab.disk_list := [py "/mac/System 7.img"; py "/mac/Apps.img"];
          DrivesTab.extfs_edit := py "/home/me/Shared Files";
          DrivesTab.rom_edit := py "/mac/Quadra.rom";
          DrivesTab.boot_drive := 0;
          DrivesTab.boot_driver := 0;
          DrivesTab.no_cdrom := false |};
     EmulatorTab.graphics_tab :=
       {| GraphicsTab.screen_mode := py "win";
          GraphicsTab.screen_width := 800;
          GraphicsTab.screen_height := 600;
          GraphicsTab.color_depth := py "0 (Default)";
          GraphicsTab.frameskip := 2;
          GraphicsTab.gfx_accel := true;
          GraphicsTab.scale_nearest := true;
          GraphicsTab.scale_integer := false;
          GraphicsTab.mag_rate := S754_finite false 6755399441055744 (-52);
          GraphicsTab.sdl_render := py "software" |};
     EmulatorTab.sound_tab :=
       {| SoundTab.no_sound := false;
          SoundTab.sound_buffer := 0;
          SoundTab.dsp_edit := py "/dev/dsp";
          SoundTab.mixer_edit := py "/dev/mixer" |};
     EmulatorTab.network_tab :=
       {| NetworkTab.ether_mode := py "slirp";
          NetworkTab.udp_tunnel := false;
          NetworkTab.udp_port := 6066;
          NetworkTab.no_net := false |};
     EmulatorTab.cpu_memory_tab :=
       {| CpuMemoryTab.ram_size := 134217728;
          CpuMemoryTab.cpu_type := 2;
          CpuMemoryTab.model_id := 5;
          CpuMemoryTab.fpu_enabled := true;
          CpuMemoryTab.jit_fpu := true;
          CpuMemoryTab.jit_cache_size := 8192;
          CpuMemoryTab.jit_lazy_flush := true;
          CpuMemoryTab.jit_inline := true;
          CpuMemoryTab.jit_debug := false;
          CpuMemoryTab.cpu_clock := 0;
          CpuMemoryTab.jit_68k := false;
          CpuMemoryTab.jit_enabled := true |};
     EmulatorTab.input_tab :=
       {| InputTab.kb_type := 5;
          InputTab.keycodes := true;
          InputTab.keycode_file := [];
          InputTab.hotkey := 0;
          InputTab.swap_opt_cmd := true;
          InputTab.mouse_wheel_mode := 1;
          InputTab.mouse_wheel_lines := 3;
          InputTab.init_grab := false;
          InputTab.hard_cursor := false |};
     EmulatorTab.serial_tab :=
       {| SerialTab.serial_a := py "/dev/ttyS0";
          SerialTab.serial_b := py "/dev/ttyS1" |};
     EmulatorTab.misc_tab :=
       {| MiscTab.no_gui := true;
          MiscTab.no_clip_conversion := false;
          MiscTab.ignore_segv := false;
          MiscTab.ignore_illegal := false;
          MiscTab.idle_wait := true;
          MiscTab.year_offset := 0;
          MiscTab.day_offset := 0;
          MiscTab.name_encoding := 3;
          MiscTab.delay := 0 |} |}.

(** The dictionaries [sample_tab] is saved as. *)
Definition sample_saved (emu : emulator_type) : dict :=
  match EmulatorTab.save_config emu sample_tab with
  | Ok config => config
  | Raise _ => []
  end.

Definition sample_window : PrefsEditor.window :=
  {| PrefsEditor.stored :=
       {| PrefsEditor.basilisk_exe := py "/bin/BasiliskII";
          PrefsEditor.basilisk_cfg := py "b.cfg";
          PrefsEditor.sheepshaver_exe := [];
          PrefsEditor.sheepshaver_cfg := py "s.cfg" |};
     PrefsEditor.basilisk_tab := sample_tab;
     PrefsEditor.sheepshaver_tab := sample_tab |}.

Definition editor_world : world :=
  {| os := Posix;
     files := fun p => if str_eqb p (py "/bin/BasiliskII") then Some [] else None;
     writable := fun _ => true |}.

(** A file whose magnification rate is no number. *)
Definition rate_world : world :=
  {| os := Posix;
     files := fun p => if str_eqb p (py "rate.cfg")
                       then Some (py "mag_rate fast" ++ [LF])
                       else None;
     writable := fun _ => true |}.

(** The same, with a file of the second emulator that cannot be written. *)
Definition locked_world : world :=
  {| os := Posix;
     files := fun p => if str_eqb p (py "/bin/BasiliskII") then Some [] else None;
     writable := fun p => negb (str_eqb p (py "s.cfg")) |}.

(** The entries the graphics tab of [sample_tab] adds to an empty
    dictionary. *)
Definition sample_graphics : dict :=
  match GraphicsTab.save_config basilisk (EmulatorTab.graphics_tab sample_tab) [] with
  | Ok config => config
  | Raise _ => []
  end.

(** * Properties *)


(** ** Strings *)

Lemma str_eqb_eq (a b : str) : str_eqb a b = true <-> a = b.
Proof.
  revert b; induction a as [|x a IH]; intros [|y b]; simpl;
    try (split; [discriminate | congruence]); try tauto.
  rewrite andb_true_iff, Ascii.eqb_eq, IH.
  split; [intros [-> ->]; reflexivity | intros H; inversion H; auto].
Qed.

Lemma str_eqb_refl (a : str) : str_eqb a a = true.
Proof. apply str_eqb_eq; reflexivity. Qed.

Lemma str_eqb_neq (a b : str) : str_eqb a b = false <-> a <> b.
Proof.
  rewrite <- str_eqb_eq. destruct (str_eqb a b); split; congruence.
Qed.

Lemma str_eqb_sym (a b : str) : str_eqb a b = str_eqb b a.
Proof.
  destruct (str_eqb a b) eqn:E, (str_eqb b a) eqn:F; auto.
  - apply str_eqb_eq in E. apply str_eqb_neq in F. congruence.
  - apply str_eqb_eq in F. apply str_eqb_neq in E. congruence.
Qed.

Section Strip.
Variable sp : ascii -> bool.

Lemma lstrip_all (s : str) : forallb sp s = true -> lstrip_with sp s = [].
Proof.
  induction s as [|c s IH]; simpl; auto.
  intros H; apply andb_true_iff in H as [-> H]; auto.
Qed.

Lemma lstrip_snoc (s : str) (c : ascii) :
  sp c = true ->
  lstrip_with sp (s ++ [c]) =
    if forallb sp s then [] else lstrip_with sp s ++ [c].
Proof.
  intros Hc; induction s as [|x s IH]; simpl.
  - now rewrite Hc.
  - destruct (sp x); simpl; auto.
Qed.

Lemma lstrip_head (s : str) (c : ascii) (r : str) :
  lstrip_with sp s = c :: r -> sp c = false.
Proof.
  induction s as [|x s IH]; simpl; [discriminate|].
  destruct (sp x) eqn:E; auto. intros H; inversion H; subst; auto.
Qed.

Lemma lstrip_split (s : str) :
  exists z, s = z ++ lstrip_with sp s /\ forallb sp z = true.
Proof.
  induction s as [|x s [z [E F]]]; simpl.
  - exists []; auto.
  - destruct (sp x) eqn:Hx.
    + exists (x :: z); simpl; rewrite Hx, F; split; [congruence | reflexivity].
    + exists []; auto.
Qed.

Lemma rstrip_split (s : str) :
  exists z, s = rstrip_with sp s ++ z /\ forallb sp z = true.
Proof.
  unfold rstrip_with. destruct (lstrip_split (rev s)) as [z [E F]].
  exists (rev z); split.
  - rewrite <- rev_app_distr, <- E, rev_involutive; reflexivity.
  - rewrite forallb_forall in *. intros x Hx; apply F.
    now apply in_rev.
Qed.

Lemma rstrip_snoc_drop (s : str) (c : ascii) :
  sp c = true -> rstrip_with sp (s ++ [c]) = rstrip_with sp s.
Proof.
  intros H; unfold rstrip_with; rewrite rev_app_distr; simpl; now rewrite H.
Qed.

Lemma rstrip_snoc_keep (s : str) (c : ascii) :
  sp c = false -> rstrip_with sp (s ++ [c]) = s ++ [c].
Proof.
  intros H; unfold rstrip_with; rewrite rev_app_distr; simpl; rewrite H.
  simpl; now rewrite rev_involutive.
Qed.

Lemma strip_snoc (s : str) (c : ascii) :
  sp c = true -> strip_with sp (s ++ [c]) = strip_with sp s.
Proof.
  intros H; unfold strip_with; rewrite lstrip_snoc by assumption.
  destruct (forallb sp s) eqn:E.
  - now rewrite (lstrip_all _ E).
  - now apply rstrip_snoc_drop.
Qed.

Lemma strip_id (s : str) : head_ok sp s -> last_ok sp s -> strip_with sp s = s.
Proof.
  intros (c & r & -> & Hc) (r' & c' & E & Hc').
  unfold strip_with; simpl; rewrite Hc, E. now apply rstrip_snoc_keep.
Qed.

Lemma rstrip_last (s : str) : rstrip_with sp s <> [] -> last_ok sp (rstrip_with sp s).
Proof.
  unfold rstrip_with. destruct (lstrip_with sp (rev s)) as [|c r] eqn:E.
  - simpl; congruence.
  - intros _; exists (rev r), c; split; auto.
    now apply lstrip_head in E.
Qed.

Lemma strip_ends (s : str) :
  strip_with sp s <> [] -> head_ok sp (strip_with sp s) /\ last_ok sp (strip_with sp s).
Proof.
  intros H; split; [|now apply rstrip_last].
  unfold strip_with in *.
  destruct (lstrip_with sp s) as [|c r] eqn:E.
  - exfalso; apply H; reflexivity.
  - apply lstrip_head in E.
    destruct (rstrip_split (c :: r)) as [z [Ez _]].
    destruct (rstrip_with sp (c :: r)) as [|c1 r1]; [congruence|].
    inversion Ez; subst. exists c1, r1; auto.
Qed.

Lemma strip_Forall (P : ascii -> Prop) (s : str) :
  Forall P s -> Forall P (strip_with sp s).
Proof.
  intros H. unfold strip_with.
  destruct (lstrip_split s) as [z [E _]].
  destruct (rstrip_split (lstrip_with sp s)) as [z' [E' _]].
  rewrite E in H. apply Forall_app in H as [_ H].
  rewrite E' in H. now apply Forall_app in H as [H _].
Qed.
End Strip.

Lemma cut_none (s : str) : cut_at_space s = None <-> no_space s.
Proof.
  unfold no_space; induction s as [|c s IH]; simpl.
  - split; auto.
  - destruct (Ascii.eqb c " ") eqn:E.
    + apply Ascii.eqb_eq in E. split; [discriminate|].
      intros H; inversion H; congruence.
    + apply Ascii.eqb_neq in E. destruct (cut_at_space s) as [[a b]|].
      * split; [discriminate|]. intros H; inversion H; subst.
        apply IH in H3; discriminate.
      * split; auto. intros _; constructor; auto. now apply IH.
Qed.

Lemma cut_some (s a b : str) :
  cut_at_space s = Some (a, b) -> s = a ++ " "%char :: b /\ no_space a.
Proof.
  unfold no_space; revert a; induction s as [|c s IH]; simpl; [discriminate|].
  intros a. destruct (Ascii.eqb c " ") eqn:E.
  - apply Ascii.eqb_eq in E. intros H; inversion H; subst; auto.
  - apply Ascii.eqb_neq in E. destruct (cut_at_space s) as [[a' b']|];
      [|discriminate].
    intros H; inversion H; subst. destruct (IH a' eq_refl) as [-> Ha].
    split; auto.
Qed.

Lemma cut_app (a b : str) :
  no_space a -> cut_at_space (a ++ " "%char :: b) = Some (a, b).
Proof.
  unfold no_space; induction 1 as [|c a Hc Ha IH]; simpl; auto.
  apply Ascii.eqb_neq in Hc; rewrite Hc, IH; reflexivity.
Qed.

(** ** Lines of a text file *)

Lemma no_eol_split (s : str) : no_eol s <-> no_lf s /\ no_cr s.
Proof.
  unfold no_eol, no_lf, no_cr; rewrite !Forall_forall; firstorder.
Qed.

Lemma universal_newlines_id (s : str) : no_cr s -> universal_newlines s = s.
Proof.
  induction 1 as [|c s Hc _ IH]; simpl; auto.
  apply Ascii.eqb_neq in Hc; rewrite Hc, IH; reflexivity.
Qed.

Lemma universal_newlines_no_cr (s : str) : no_cr (universal_newlines s).
Proof.
  unfold no_cr; induction s as [|c s IH]; simpl; [constructor|].
  destruct (Ascii.eqb c CR) eqn:E.
  - destruct s as [|d s']; [repeat constructor; discriminate|].
    destruct (Ascii.eqb d LF); auto. constructor; [discriminate | auto].
  - constructor; auto. now apply Ascii.eqb_neq.
Qed.

Lemma read_back_written (p : platform) (s : str) :
  no_cr s -> universal_newlines (translate_on_write p s) = s.
Proof.
  induction 1 as [|c s Hc _ IH]; simpl; auto.
  destruct (Ascii.eqb c LF) eqn:E.
  - apply Ascii.eqb_eq in E; subst c. destruct p; simpl; now rewrite IH.
  - simpl. apply Ascii.eqb_neq in Hc; rewrite Hc, IH; reflexivity.
Qed.

Lemma readlines_cons_line (body rest : str) :
  no_lf body -> readlines (body ++ LF :: rest) = (body ++ [LF]) :: readlines rest.
Proof.
  induction 1 as [|c body Hc _ IH]; simpl; auto.
  apply Ascii.eqb_neq in Hc; rewrite Hc, IH; reflexivity.
Qed.

(** Every line that iteration yields is a run without "\n", followed by
    "\n" except possibly at the end of the file. *)
Lemma readlines_shape (s : str) :
  Forall (fun l => exists body,
            (l = body ++ [LF] \/ l = body) /\ no_lf body /\
            forall P : ascii -> Prop, Forall P s -> Forall P body)
         (readlines s).
Proof.
  induction s as [|c s IH]; simpl; [constructor|].
  assert (Hweak : forall l : str,
    (exists body, (l = body ++ [LF] \/ l = body) /\ no_lf body /\
       forall P : ascii -> Prop, Forall P s -> Forall P body) ->
    exists body, (l = body ++ [LF] \/ l = body) /\ no_lf body /\
       forall P : ascii -> Prop, Forall P (c :: s) -> Forall P body).
  { intros l (body & Hl & Hb & HP). exists body; split; [|split]; auto.
    intros P H; inversion H; auto. }
  destruct (Ascii.eqb c LF) eqn:E.
  - apply Ascii.eqb_eq in E; subst c. constructor.
    + exists []; split; [left; reflexivity | split; constructor].
    + eapply Forall_impl; [exact Hweak | exact IH].
  - apply Ascii.eqb_neq in E. destruct (readlines s) as [|l ls].
    + constructor; [|constructor]. exists [c]; split; [right; reflexivity|].
      split; [repeat constructor; auto|].
      intros P H; inversion H; subst; repeat constructor; auto.
    + inversion IH as [|? ? (body & Hl & Hb & HP) Hls]; subst.
      constructor.
      * exists (c :: body); split; [|split].
        -- destruct Hl as [-> | ->]; [left | right]; reflexivity.
        -- constructor; auto.
        -- intros P H; inversion H; subst; constructor; auto.
      * eapply Forall_impl; [exact Hweak | exact Hls].
Qed.

Lemma isspace_LF : isspace LF = true.
Proof. reflexivity. Qed.

(** The stripped text of a line read from a file holds no line break. *)
Lemma stripped_line_no_eol (text l : str) :
  In l (readlines (universal_newlines text)) -> no_eol (strip l).
Proof.
  intros Hin.
  pose proof (readlines_shape (universal_newlines text)) as H.
  rewrite Forall_forall in H. destruct (H _ Hin) as (body & Hl & Hb & HP).
  assert (Hs : strip l = strip body).
  { destruct Hl as [-> | ->]; auto. apply strip_snoc, isspace_LF. }
  rewrite Hs. apply strip_Forall. apply no_eol_split; split; auto.
  apply HP, universal_newlines_no_cr.
Qed.

(** ** Integers *)

Lemma decimal_char_facts (c : ascii) :
  isdecimal_char c = true ->
  isdigit_char c = true /\ isspace c = false /\ c_isspace c = false /\
  to_ascii_char c = c /\ lower_char c = c /\ c <> LF /\ c <> CR /\
  Ascii.eqb c "_" = false /\ Ascii.eqb c "-" = false /\
  Ascii.eqb c "+" = false /\ Ascii.eqb c "t" = false /\
  Ascii.eqb c "f" = false /\ c <> " "%char.
Proof.
  each_char c; intros H; try discriminate H;
    vm_compute; repeat split; try reflexivity; intros X; discriminate X.
Qed.

Lemma str_of_uint_decimal (d : Decimal.uint) : all_decimal (str_of_uint d).
Proof. induction d; simpl; constructor; auto. Qed.

Lemma str_of_uint_nil (d : Decimal.uint) :
  str_of_uint d = [] -> d = Decimal.Nil.
Proof. destruct d; simpl; auto; discriminate. Qed.

Lemma str_of_N_decimal (n : N) : all_decimal (str_of_N n).
Proof. apply str_of_uint_decimal. Qed.

Lemma str_of_N_nonempty (n : N) : str_of_N n <> [].
Proof.
  unfold str_of_N; intros H; apply str_of_uint_nil in H.
  destruct n; simpl in H; [discriminate|].
  now apply (DecimalPos.Unsigned.to_uint_nonnil p).
Qed.

Lemma digits_val_uint (d : Decimal.uint) (acc : N) :
  digits_val (str_of_uint d) acc =
    (DecimalPos.Unsigned.of_lu (Decimal.rev d)
     + acc * 10 ^ DecimalPos.Unsigned.usize d)%N.
Proof.
  revert acc; induction d; intros acc;
    [simpl; now rewrite N.mul_1_r | ..];
    cbn [str_of_uint digits_val]; rewrite IHd;
    match goal with
    | |- context [Decimal.rev (?D d)] =>
        change (Decimal.rev (D d)) with (Decimal.revapp d (D Decimal.Nil))
    end;
    rewrite DecimalPos.Unsigned.of_lu_revapp;
    cbn [DecimalPos.Unsigned.of_lu DecimalPos.Unsigned.usize];
    rewrite N.pow_succ_r';
    match goal with
    | |- context [digit_value ?c] =>
        let v := eval vm_compute in (digit_value c) in
        change (digit_value c) with v
    end; ring.
Qed.
Lemma digits_val_str_of_N (n : N) : digits_val (str_of_N n) 0 = n.
Proof.
  unfold str_of_N; rewrite digits_val_uint, N.mul_0_l, N.add_0_r.
  rewrite <- DecimalPos.Unsigned.of_uint_alt.
  apply DecimalN.Unsigned.of_to.
Qed.

Lemma int_digits_decimal (s : str) :
  all_decimal s -> forall b acc, s <> [] \/ b = true ->
  int_digits s b acc = Some (digits_val s acc).
Proof.
  induction 1 as [|c s Hc _ IH]; intros b acc Hb; simpl.
  - destruct Hb as [Hb | ->]; [congruence | reflexivity].
  - rewrite Hc. apply IH; auto.
Qed.

Lemma map_id_on {A} (f : A -> A) (l : list A) :
  Forall (fun x => f x = x) l -> map f l = l.
Proof. induction 1; simpl; congruence. Qed.

Lemma all_decimal_ends (sp : ascii -> bool) (s : str) :
  (forall c, isdecimal_char c = true -> sp c = false) ->
  all_decimal s -> s <> [] -> head_ok sp s /\ last_ok sp s.
Proof.
  intros Hsp Hs Hne; split.
  - destruct s as [|c r]; [congruence|]. inversion Hs; subst.
    exists c, r; auto.
  - destruct (exists_last Hne) as (r & c & ->).
    apply Forall_app in Hs as [_ Hc]. inversion Hc; subst.
    exists r, c; auto.
Qed.

Lemma py_int_decimal (s : str) :
  all_decimal s -> s <> [] -> py_int s = Some (Z.of_N (digits_val s 0)).
Proof.
  intros Hs Hne. unfold py_int.
  rewrite map_id_on by (eapply Forall_impl; [|exact Hs];
                        intros c Hc; apply decimal_char_facts, Hc).
  rewrite strip_id; try (apply all_decimal_ends; auto;
                         intros c Hc; apply decimal_char_facts, Hc).
  destruct s as [|c r]; [congruence|]. inversion Hs; subst.
  destruct (decimal_char_facts c H1) as (_ & _ & _ & _ & _ & _ & _ & _ & Hm & Hp & _).
  rewrite Hm, Hp, int_digits_decimal; auto.
Qed.

Lemma py_int_str_of_N (n : N) : py_int (str_of_N n) = Some (Z.of_N n).
Proof.
  rewrite py_int_decimal, digits_val_str_of_N; auto.
  - apply str_of_N_decimal.
  - apply str_of_N_nonempty.
Qed.

(** ** The text of a float *)

Lemma float_char_facts (c : ascii) :
  float_char c = true ->
  isspace c = false /\ c <> LF /\ c <> CR /\ lower_char c = c /\
  Ascii.eqb c "t" = false /\ Ascii.eqb c "l" = false.
Proof.
  each_char c; intros H; try discriminate H;
    vm_compute; repeat split; try reflexivity; intros X; discriminate X.
Qed.

Lemma decimal_float_char (s : str) :
  all_decimal s -> Forall (fun c => float_char c = true) s.
Proof.
  apply Forall_impl; intros c H; unfold float_char; now rewrite H.
Qed.

Lemma drop_zeros_Forall (P : ascii -> Prop) (s : str) :
  Forall P s -> Forall P (drop_zeros s).
Proof.
  induction 1 as [|c s Hc Hs IH]; simpl; auto.
  destruct (Ascii.eqb c "0"); auto.
Qed.

Lemma firstn_skipn_Forall (P : ascii -> Prop) (n : nat) (s : str) :
  Forall P s -> Forall P (firstn n s) /\ Forall P (skipn n s).
Proof.
  intros H; rewrite <- (firstn_skipn n s) in H. now apply Forall_app.
Qed.

Lemma format_repr_chars (ds : str) (k : Z) :
  all_decimal ds -> Forall (fun c => float_char c = true) (format_repr ds k).
Proof.
  intros Hd. pose proof (decimal_float_char ds Hd) as Hf.
  assert (Hz : forall n, Forall (fun c => float_char c = true) (zeros n)).
  { intros n; unfold zeros; induction (Z.to_nat n); simpl; chars. }
  assert (HN : forall n, Forall (fun c => float_char c = true) (str_of_N n)).
  { intros n; apply decimal_float_char, str_of_N_decimal. }
  unfold format_repr.
  destruct ((k <=? -4)%Z || (16 <? k)%Z).
  - chars.
    + destruct ds as [|d [|d' rest]]; chars.
      inversion Hf as [|? ? H1 H2]; subst. inversion H2; subst.
      constructor; [assumption|]. constructor; [reflexivity|].
      constructor; assumption.
    + destruct (k - 1 <? 0)%Z; chars.
    + destruct (Z.abs (k - 1) <? 10)%Z; chars.
    + apply HN.
  - destruct (k <=? 0)%Z; [chars; apply Hz|].
    destruct (Z.of_nat (Datatypes.length ds) <=? k)%Z; [chars; apply Hz|].
    destruct (firstn_skipn_Forall _ (Z.to_nat k) ds Hf). chars.
Qed.

Lemma format_repr_mark (ds : str) (k : Z) :
  In "e"%char (format_repr ds k) \/ In "."%char (format_repr ds k).
Proof.
  unfold format_repr.
  destruct ((k <=? -4)%Z || (16 <? k)%Z).
  - left. apply in_or_app; right. left; reflexivity.
  - right. destruct (k <=? 0)%Z; [right; left; reflexivity|].
    destruct (Z.of_nat (Datatypes.length ds) <=? k)%Z.
    + apply in_or_app; right. apply in_or_app; right. left; reflexivity.
    + apply in_or_app; right. left; reflexivity.
Qed.

(** ** Rounding to binary64 *)

Section Rounding.

Local Open Scope Z_scope.

Lemma ulp_exponent_spec (n0 d : Z) :
  0 < n0 -> 0 < d ->
  let a := n0 / (2 ^ 53 * d) in
  let j := if a =? 0 then 0 else Z.log2 a + 1 in
  0 <= j /\ 0 <= n0 / (d * 2 ^ j) < 2 ^ 53 /\
  (0 < j -> 2 ^ 52 <= n0 / (d * 2 ^ j)).
Proof.
  intros Hn Hd a j.
  assert (Hc : 0 < 2 ^ 53 * d) by lia.
  assert (Ha : 0 <= a) by (apply Z.div_pos; lia).
  destruct (Z.eqb_spec a 0) as [E | E]; subst j.
  - rewrite Z.pow_0_r, Z.mul_1_r. split; [lia|]. split; [|lia].
    split; [apply Z.div_pos; lia|].
    apply Z.div_lt_upper_bound; auto.
    unfold a in E. apply Z.div_small_iff in E; lia.
  - assert (Hap : 0 < a) by lia.
    destruct (Z.log2_spec a Hap) as [Hlo Hhi].
    pose proof (Z.log2_nonneg a) as Hl.
    set (l := Z.log2 a) in *.
    assert (Hp : 0 < 2 ^ l) by (apply Z.pow_pos_nonneg; lia).
    assert (Hs : 2 ^ (l + 1) = 2 * 2 ^ l) by (rewrite Z.pow_add_r; lia).
    replace (Z.succ l) with (l + 1) in Hhi by lia.
    split; [lia|].
    assert (Hdj : 0 < d * 2 ^ (l + 1)) by nia.
    assert (Hup : n0 < 2 ^ 53 * d * 2 ^ (l + 1)).
    { unfold a in Hhi. 
      pose proof (Z.mul_succ_div_gt n0 (2 ^ 53 * d) Hc) as H. nia. }
    assert (Hdn : 2 ^ l * (2 ^ 53 * d) <= n0).
    { unfold a in Hlo. pose proof (Z.mul_div_le n0 (2 ^ 53 * d) Hc) as H. nia. }
    split; [split|].
    + apply Z.div_pos; lia.
    + apply Z.div_lt_upper_bound; auto. nia.
    + intros _. apply Z.div_le_lower_bound; auto.
      replace (2 ^ 53) with (2 * 2 ^ 52) in Hdn by reflexivity. nia.
Qed.

Lemma round_ratio_valid (neg : bool) (n d : positive) :
  valid_float (round_ratio neg n d).
Proof.
  unfold round_ratio.
  destruct (ulp_exponent_spec (Zpos n * 2 ^ 1074) (Zpos d)) as (Hj & Hq & Hn);
    [lia | lia |].
  cbv zeta in Hj, Hq, Hn.
  set (a := Z.pos n * 2 ^ 1074 / (2 ^ 53 * Z.pos d)) in *.
  set (j := if a =? 0 then 0 else Z.log2 a + 1) in *.
  set (dj := Z.pos d * 2 ^ j) in *.
  set (q := Z.pos n * 2 ^ 1074 / dj) in *.
  set (r := Z.pos n * 2 ^ 1074 mod dj).
  set (q' := match 2 * r ?= dj with
             | Eq => if Z.even q then q else q + 1
             | Lt => q
             | Gt => q + 1
             end).
  assert (Hq' : q <= q' <= q + 1).
  { unfold q'. destruct (2 * r ?= dj); [destruct (Z.even q)| |]; lia. }
  destruct (Z.eqb_spec q' (2 ^ 53)) as [E | E].
  - change (2 ^ 52) with 4503599627370496. cbv iota.
    destruct (971 <? j + 1 - 1074) eqn:F; simpl; auto.
    apply Z.ltb_ge in F. repeat split; lia.
  - destruct q' as [|p|p] eqn:Ep; simpl; auto.
    destruct (971 <? j - 1074) eqn:F; simpl; auto.
    apply Z.ltb_ge in F. repeat split; try lia.
Qed.

Lemma round_ratio_exact (neg : bool) (n d m : positive) (e : Z) :
  valid_float (S754_finite neg m e) ->
  Zpos n * 2 ^ 1074 = Zpos m * (Zpos d * 2 ^ (e + 1074)) ->
  round_ratio neg n d = S754_finite neg m e.
Proof.
  intros ((He1 & He2) & Hm & Hn) Hv. unfold round_ratio. rewrite Hv.
  set (js := e + 1074) in *.
  assert (Hjs : 0 <= js) by (unfold js; lia).
  assert (Hp : 0 < 2 ^ js) by (apply Z.pow_pos_nonneg; lia).
  assert (Ea : Z.pos m * (Z.pos d * 2 ^ js) / (2 ^ 53 * Z.pos d)
               = Z.pos m * 2 ^ js / 2 ^ 53).
  { replace (Z.pos m * (Z.pos d * 2 ^ js)) with (Z.pos m * 2 ^ js * Z.pos d) by ring.
    apply Z.div_mul_cancel_r; lia. }
  rewrite Ea.
  assert (Ej : (if Z.pos m * 2 ^ js / 2 ^ 53 =? 0 then 0
                else Z.log2 (Z.pos m * 2 ^ js / 2 ^ 53) + 1) = js).
  { destruct (Z.eq_dec js 0) as [Z0 | NZ].
    - rewrite Z0, Z.pow_0_r, Z.mul_1_r, Z.div_small by lia. reflexivity.
    - assert (Hm2 : 2 ^ 52 <= Z.pos m) by (unfold js in NZ; lia).
      assert (Hs : 2 ^ js = 2 * 2 ^ (js - 1)).
      { replace js with (js - 1 + 1) at 1 by lia. rewrite Z.pow_add_r; lia. }
      assert (Hp1 : 0 < 2 ^ (js - 1)) by (apply Z.pow_pos_nonneg; lia).
      assert (Hlo : 2 ^ (js - 1) <= Z.pos m * 2 ^ js / 2 ^ 53).
      { apply Z.div_le_lower_bound; [lia|].
        replace (2 ^ 53 * 2 ^ (js - 1)) with (2 ^ 52 * 2 ^ js)
          by (rewrite Hs; change (2 ^ 53) with (2 * 2 ^ 52); ring).
        apply Z.mul_le_mono_nonneg_r; lia. }
      assert (Hhi : Z.pos m * 2 ^ js / 2 ^ 53 < 2 ^ js).
      { apply Z.div_lt_upper_bound; [lia|].
        apply Z.mul_lt_mono_pos_r; lia. }
      destruct (Z.eqb_spec (Z.pos m * 2 ^ js / 2 ^ 53) 0) as [E0 | _]; [lia|].
      rewrite (Z.log2_unique _ (js - 1)); [lia | lia |].
      split; [exact Hlo|]. replace (Z.succ (js - 1)) with js by lia. exact Hhi. }
  rewrite Ej.
  rewrite Z.div_mul, Z.mod_mul by lia.
  replace (2 * 0 ?= Z.pos d * 2 ^ js) with Lt
    by (symmetry; apply Z.compare_lt_iff; lia).
  destruct (Z.eqb_spec (Z.pos m) (2 ^ 53)) as [E | _]; [lia|].
  replace (971 <? js - 1074) with false
    by (symmetry; apply Z.ltb_ge; unfold js; lia).
  f_equal. unfold js; lia.
Qed.

Lemma float_of_decimal_valid (neg : bool) (d : N) (q : Z) :
  valid_float (float_of_decimal neg d q).
Proof.
  destruct d; simpl; auto. destruct q; apply round_ratio_valid.
Qed.

Lemma float_literal_valid (s : str) (x : pyfloat) :
  float_literal s = Some x -> valid_float x.
Proof.
  unfold float_literal. destruct (take_sign s) as [neg body].
  destruct (_ || _); [intros H; inversion H; exact I|].
  destruct (str_eqb _ _); [intros H; inversion H; exact I|].
  destruct (span_digits body) as [ip r1].
  destruct (match r1 with
            | [] => ([], r1)
            | c :: t => if (c =? ".")%char then span_digits t else ([], r1)
            end) as [fp r2].
  destruct (ip ++ fp); [discriminate|].
  destruct (exponent_part r2); [|discriminate].
  intros H; inversion H. apply float_of_decimal_valid.
Qed.

Lemma float_of_str_valid (s : str) (x : pyfloat) :
  float_of_str s = Some x -> valid_float x.
Proof.
  unfold float_of_str. destruct (drop_underscores _ _) as [t|]; [|discriminate].
  destruct (strip_with c_isspace t); [discriminate|].
  apply float_literal_valid.
Qed.

End Rounding.

(** ** Reading a float literal *)

Lemma float_char_more (c : ascii) :
  float_char c = true ->
  to_ascii_char c = c /\ c_isspace c = false /\ Ascii.eqb c "_" = false.
Proof.
  each_char c; intros H; try discriminate H; vm_compute; auto.
Qed.

Lemma decimal_char_more (c : ascii) :
  isdecimal_char c = true ->
  Ascii.eqb (c_tolower c) "i" = false /\ Ascii.eqb (c_tolower c) "n" = false /\
  Ascii.eqb c "." = false.
Proof.
  each_char c; intros H; try discriminate H; vm_compute; auto.
Qed.

Lemma drop_underscores_plain (s : str) :
  Forall (fun c => Ascii.eqb c "_" = false) s ->
  forall prev, Ascii.eqb prev "_" = false -> drop_underscores prev s = Some s.
Proof.
  induction 1 as [|c s Hc _ IH]; intros prev Hp; simpl.
  - now rewrite Hp.
  - rewrite Hc, Hp. simpl. now rewrite IH.
Qed.

Lemma span_digits_stop (ds : str) (c : ascii) (r : str) :
  all_decimal ds -> isdecimal_char c = false ->
  span_digits (ds ++ c :: r) = (ds, c :: r).
Proof.
  intros Hd Hc. induction Hd as [|d ds Hd _ IH]; simpl.
  - now rewrite Hc.
  - now rewrite Hd, IH.
Qed.

Lemma span_digits_all (ds : str) :
  all_decimal ds -> span_digits ds = (ds, []).
Proof.
  induction 1 as [|d ds Hd _ IH]; simpl; auto. now rewrite Hd, IH.
Qed.

Lemma take_sign_text (neg : bool) (ds r : str) :
  all_decimal ds -> ds <> [] ->
  take_sign (sign_text neg ++ ds ++ r) = (neg, ds ++ r).
Proof.
  intros Hd Hne. destruct neg; [reflexivity|].
  destruct ds as [|d ds]; [congruence|]. inversion Hd; subst.
  destruct (decimal_char_facts d H1) as (_&_&_&_&_&_&_&_& Hm & Hp & _).
  simpl. now rewrite Hm, Hp.
Qed.

(** The literal made of a sign, digits, [e-] and digits. *)
Lemma float_literal_exp (neg : bool) (ds ks : str) :
  all_decimal ds -> ds <> [] -> all_decimal ks -> ks <> [] ->
  float_literal (sign_text neg ++ ds ++ py "e-" ++ ks) =
    Some (float_of_decimal neg (digits_val ds 0)
                           (- Z.of_N (digits_val ks 0) - 0)).
Proof.
  intros Hd Hdn Hk Hkn. unfold float_literal.
  rewrite take_sign_text by assumption.
  change (py "e-" ++ ks) with ("e"%char :: "-"%char :: ks).
  destruct ds as [|d ds]; [congruence|]. pose proof Hd as Hd'.
  inversion Hd'; subst.
  destruct (decimal_char_more d H1) as (Hi & Hn & _).
  assert (E1 : str_eqb (map c_tolower ((d :: ds) ++ "e"%char :: "-"%char :: ks))
                       (py "inf") = false) by (simpl; now rewrite Hi).
  assert (E2 : str_eqb (map c_tolower ((d :: ds) ++ "e"%char :: "-"%char :: ks))
                       (py "infinity") = false) by (simpl; now rewrite Hi).
  assert (E3 : str_eqb (map c_tolower ((d :: ds) ++ "e"%char :: "-"%char :: ks))
                       (py "nan") = false) by (simpl; now rewrite Hn).
  rewrite E1, E2, E3. cbn [orb].
  rewrite (span_digits_stop (d :: ds) "e" ("-"%char :: ks) Hd eq_refl).
  change (("e" =? ".")%char) with false. cbv iota.
  rewrite app_nil_r.
  unfold exponent_part. change ((c_tolower "e" =? "e")%char) with true. cbv iota.
  change (take_sign ("-"%char :: ks)) with (true, ks). cbv iota.
  rewrite (span_digits_all ks Hk).
  destruct ks as [|k ks]; [congruence|]. reflexivity.
Qed.

Lemma ends_of_nonblank (sp : ascii -> bool) (s : str) :
  Forall (fun c => sp c = false) s -> s <> [] -> head_ok sp s /\ last_ok sp s.
Proof.
  intros Hs Hne; split.
  - destruct s as [|c r]; [congruence|]. inversion Hs; subst.
    exists c, r; auto.
  - destruct (exists_last Hne) as (r & c & ->).
    apply Forall_app in Hs as [_ Hc]. inversion Hc; subst.
    exists r, c; auto.
Qed.

(** Text made of the characters of a float has no blank to strip and no
    underscore to drop: [float()] goes straight to the literal. *)
Lemma float_of_str_plain (t : str) :
  Forall (fun c => float_char c = true) t -> t <> [] ->
  float_of_str t = float_literal t.
Proof.
  intros Hc Hne. unfold float_of_str.
  rewrite map_id_on
    by (eapply Forall_impl; [|exact Hc]; intros c H;
        now destruct (float_char_more c H)).
  rewrite drop_underscores_plain;
    [| eapply Forall_impl; [|exact Hc]; intros c H;
       now destruct (float_char_more c H) as (_ & _ & ?) | reflexivity].
  rewrite strip_id.
  - destruct t; [congruence | reflexivity].
  - apply ends_of_nonblank; auto. eapply Forall_impl; [|exact Hc].
    intros c H. now destruct (float_char_more c H) as (_ & ? & _).
  - apply ends_of_nonblank; auto. eapply Forall_impl; [|exact Hc].
    intros c H. now destruct (float_char_more c H) as (_ & ? & _).
Qed.

Lemma sign_text_chars (neg : bool) :
  Forall (fun c => float_char c = true) (sign_text neg).
Proof. destruct neg; chars. Qed.

Lemma exact_text_chars (neg : bool) (m : positive) (e : Z) :
  Forall (fun c => float_char c = true) (exact_text neg m e).
Proof.
  unfold exact_text. chars; try apply sign_text_chars;
    apply decimal_float_char, str_of_N_decimal.
Qed.

Lemma exact_text_mark (neg : bool) (m : positive) (e : Z) :
  In "e"%char (exact_text neg m e).
Proof.
  unfold exact_text. apply in_or_app; right. apply in_or_app; right.
  left; reflexivity.
Qed.

Lemma exact_decimal (neg : bool) (m : positive) (e : Z) :
  valid_float (S754_finite neg m e) ->
  float_of_decimal neg
    (Npos m * 2 ^ Z.to_N (Z.max e 0) * 5 ^ Z.to_N (Z.max (- e) 0))
    (- Z.of_N (Z.to_N (Z.max (- e) 0)) - 0)
  = S754_finite neg m e.
Proof.
  intros Hv. pose proof Hv as ((He1 & He2) & _).
  set (D := (Npos m * 2 ^ Z.to_N (Z.max e 0) * 5 ^ Z.to_N (Z.max (- e) 0))%N).
  assert (HD : Z.of_N D = (Zpos m * 2 ^ Z.max e 0 * 5 ^ Z.max (- e) 0)%Z).
  { unfold D. rewrite !N2Z.inj_mul, !N2Z.inj_pow, !Z2N.id by lia. reflexivity. }
  assert (Hpos : (0 < Z.of_N D)%Z).
  { rewrite HD. apply Z.mul_pos_pos; [apply Z.mul_pos_pos; [lia|]|];
      apply Z.pow_pos_nonneg; lia. }
  destruct D as [|p]; [simpl in Hpos; lia|]. cbn [Z.of_N] in HD.
  rewrite Z2N.id by lia. rewrite Z.sub_0_r.
  assert (Hnn : forall q, (0 <= e)%Z -> q = 0%Z ->
            float_of_decimal neg (N.pos p) q = S754_finite neg m e).
  { intros q He ->. cbn [float_of_decimal].
    apply round_ratio_exact; auto.
    rewrite HD, (Z.max_l e 0), (Z.max_r (- e) 0), Z.pow_0_r, Z.pow_add_r by lia.
    ring. }
  destruct (Z.max_spec (- e) 0) as [[Hlt Hmx] | [Hge Hmx]]; rewrite Hmx.
  { apply Hnn; lia. }
  destruct (- e)%Z as [|k|k] eqn:Ek; try lia.
  { apply Hnn; lia. }
  change (- Z.pos k)%Z with (Z.neg k). cbn [float_of_decimal].
  apply round_ratio_exact; auto.
  rewrite HD, (Z.max_r e 0), Hmx, Z.pow_0_r, Pos2Z.inj_pow by lia.
  change (Z.pos 10) with (5 * 2)%Z. rewrite Z.pow_mul_l.
  replace (2 ^ 1074)%Z with (2 ^ Z.pos k * 2 ^ (e + 1074))%Z.
  - ring.
  - rewrite <- Z.pow_add_r by lia. f_equal. lia.
Qed.

Lemma exact_text_reads (neg : bool) (m : positive) (e : Z) :
  valid_float (S754_finite neg m e) ->
  float_of_str (exact_text neg m e) = Some (S754_finite neg m e).
Proof.
  intros Hv. rewrite float_of_str_plain.
  - unfold exact_text.
    rewrite float_literal_exp;
      try apply str_of_N_decimal; try apply str_of_N_nonempty.
    rewrite !digits_val_str_of_N. f_equal. now apply exact_decimal.
  - apply exact_text_chars.
  - intros E. pose proof (exact_text_mark neg m e) as H. rewrite E in H.
    destruct H.
Qed.

Lemma float_eqb_eq (x y : pyfloat) : float_eqb x y = true <-> x = y.
Proof.
  destruct x as [a | a | | a m e], y as [b | b | | b n f]; simpl;
    try (split; [discriminate | congruence]); try tauto.
  - rewrite Bool.eqb_true_iff; split; congruence.
  - rewrite Bool.eqb_true_iff; split; congruence.
  - rewrite !andb_true_iff, Bool.eqb_true_iff, Pos.eqb_eq, Z.eqb_eq.
    split; [intros [[-> ->] ->]; reflexivity | intros H; inversion H; auto].
Qed.

Lemma reads_as_eq (x : pyfloat) (t : str) :
  reads_as x t = true -> float_of_str t = Some x.
Proof.
  unfold reads_as. destruct (float_of_str t) as [y|]; [|discriminate].
  intros H; apply float_eqb_eq in H; congruence.
Qed.

(** What the search returns reads back as the float, and is the text of
    a decimal. *)
Lemma shortest_from_reads (neg : bool) (x : pyfloat) (num den : N) (k : Z)
      (fuel : nat) :
  forall p t, shortest_from neg x num den k p fuel = Some t ->
  float_of_str t = Some x /\ exists c q, t = decimal_text_of neg c q.
Proof.
  induction fuel as [|fuel IH]; intros p t; cbn [shortest_from]; [discriminate|].
  destruct (neighbours num den (p - k)) as [c1 c2].
  destruct (reads_as x (decimal_text_of neg c1 (k - p))) eqn:E1.
  { intros H; inversion H; subst. split; [now apply reads_as_eq | eauto]. }
  destruct (reads_as x (decimal_text_of neg c2 (k - p))) eqn:E2.
  { intros H; inversion H; subst. split; [now apply reads_as_eq | eauto]. }
  apply IH.
Qed.

(** The text of a float reads back as that float. *)
Lemma str_of_float_reads_back (x : pyfloat) :
  valid_float x -> float_of_str (str_of_float x) = Some x.
Proof.
  destruct x as [[] | [] | | neg m e];
    [intros _; vm_compute; reflexivity .. | ].
  intros Hv. unfold str_of_float.
  match goal with
  | |- context [shortest_from ?a1 ?a2 ?a3 ?a4 ?a5 ?a6 ?a7] =>
      destruct (shortest_from a1 a2 a3 a4 a5 a6 a7) as [t|] eqn:E
  end.
  - now apply shortest_from_reads in E as [E _].
  - now apply exact_text_reads.
Qed.

Lemma decimal_text_of_chars (neg : bool) (c : N) (q : Z) :
  Forall (fun a => float_char a = true) (decimal_text_of neg c q).
Proof.
  unfold decimal_text_of. apply Forall_app; split; [apply sign_text_chars|].
  apply format_repr_chars. apply Forall_rev, drop_zeros_Forall, Forall_rev.
  apply str_of_N_decimal.
Qed.

Lemma finite_text_cases (neg : bool) (m : positive) (e : Z) :
  (exists c q, str_of_float (S754_finite neg m e) = decimal_text_of neg c q) \/
  str_of_float (S754_finite neg m e) = exact_text neg m e.
Proof.
  unfold str_of_float.
  match goal with
  | |- context [shortest_from ?a1 ?a2 ?a3 ?a4 ?a5 ?a6 ?a7] =>
      destruct (shortest_from a1 a2 a3 a4 a5 a6 a7) as [t|] eqn:E
  end; [left | right; reflexivity].
  now apply shortest_from_reads in E as [_ E].
Qed.

Lemma str_of_float_chars (x : pyfloat) :
  Forall (fun c => float_char c = true) (str_of_float x).
Proof.
  destruct x as [s | s | | s m e];
    try (destruct s; unfold str_of_float; chars; fail);
    try (unfold str_of_float; chars; fail).
  destruct (finite_text_cases s m e) as [(c & q & ->) | ->].
  - apply decimal_text_of_chars.
  - apply exact_text_chars.
Qed.

(** A float is never printed as a run of digits: its text holds a letter
    or a point. *)
Lemma str_of_float_mark (x : pyfloat) :
  exists c, In c (str_of_float x) /\ isdigit_char c = false.
Proof.
  destruct x as [s | s | | s m e].
  - exists "."%char; split; [|reflexivity]. destruct s; simpl; auto.
  - exists "i"%char; split; [|reflexivity]. destruct s; simpl; auto.
  - exists "n"%char; split; [|reflexivity]. simpl; auto.
  - destruct (finite_text_cases s m e) as [(c & q & ->) | ->].
    + unfold decimal_text_of.
      destruct (format_repr_mark
                  (rev (drop_zeros (rev (str_of_N c))))
                  (Z.of_nat (Datatypes.length (str_of_N c)) + q)) as [H | H];
        [exists "e"%char | exists "."%char]; (split; [|reflexivity]);
        apply in_or_app; right; exact H.
    + exists "e"%char; split; [apply exact_text_mark | reflexivity].
Qed.

Lemma isdigit_false (s : str) (c : ascii) :
  In c s -> isdigit_char c = false -> isdigit s = false.
Proof.
  intros Hin Hc. destruct s as [|a s']; [reflexivity|].
  unfold isdigit. apply not_true_is_false. intros H.
  rewrite forallb_forall in H. rewrite (H c Hin) in Hc; discriminate.
Qed.

Lemma lower_fixed (s : str) :
  Forall (fun c => lower_char c = c) s -> lower s = s.
Proof. apply map_id_on. Qed.

Lemma str_of_float_text (x : pyfloat) :
  text_ok (str_of_float x) /\ str_of_float x <> [] /\
  lower (str_of_float x) = str_of_float x /\
  str_eqb (str_of_float x) (py "true") = false /\
  str_eqb (str_of_float x) (py "false") = false /\
  isdigit (str_of_float x) = false.
Proof.
  pose proof (str_of_float_chars x) as Hc.
  destruct (str_of_float_mark x) as (m & Hm & Hmd).
  assert (Hne : str_of_float x <> []).
  { intros E; rewrite E in Hm; destruct Hm. }
  assert (Hin : forall c, In c (str_of_float x) -> float_char c = true)
    by (now apply Forall_forall).
  repeat split.
  - eapply Forall_impl; [|exact Hc]. intros c H.
    destruct (float_char_facts c H) as (_ & ? & ? & _); auto.
  - right. apply ends_of_nonblank; auto.
    eapply Forall_impl; [|exact Hc]. intros c H.
    now destruct (float_char_facts c H).
  - exact Hne.
  - apply lower_fixed. eapply Forall_impl; [|exact Hc]. intros c H.
    now destruct (float_char_facts c H) as (_ & _ & _ & ? & _).
  - apply str_eqb_neq; intros E. specialize (Hin "t"%char).
    rewrite E in Hin. discriminate Hin. simpl; auto.
  - apply str_eqb_neq; intros E. specialize (Hin "l"%char).
    rewrite E in Hin. discriminate Hin. simpl; auto.
  - eapply isdigit_false; eauto.
Qed.

Lemma convert_float_text (x : pyfloat) :
  valid_float x -> convert (str_of_float x) = Ok (VFloat x).
Proof.
  intros H. apply str_of_float_reads_back in H.
  destruct (str_of_float_text x) as (_ & _ & Hl & Ht & Hf & Hd).
  unfold convert. now rewrite Hl, Ht, Hf, Hd, H.
Qed.

Lemma decimal_text (s : str) :
  all_decimal s -> s <> [] ->
  text_ok s /\ lower s = s /\ str_eqb s (py "true") = false /\
  str_eqb s (py "false") = false /\ isdigit s = true.
Proof.
  intros Hs Hne. repeat split.
  - eapply Forall_impl; [|exact Hs]. intros c H.
    destruct (decimal_char_facts c H) as (_ & _ & _ & _ & _ & ? & ? & _); auto.
  - right. apply all_decimal_ends; auto.
    intros c H; now destruct (decimal_char_facts c H) as (_ & ? & _).
  - apply lower_fixed. eapply Forall_impl; [|exact Hs]. intros c H.
    now destruct (decimal_char_facts c H) as (_ & _ & _ & _ & ? & _).
  - destruct s as [|c r]; [congruence|]. inversion Hs; subst. simpl.
    destruct (decimal_char_facts c H1) as (_&_&_&_&_&_&_&_&_&_& -> & _).
    reflexivity.
  - destruct s as [|c r]; [congruence|]. inversion Hs; subst. simpl.
    destruct (decimal_char_facts c H1) as (_&_&_&_&_&_&_&_&_&_&_& -> & _).
    reflexivity.
  - destruct s as [|c r]; [congruence|]. unfold isdigit.
    apply forallb_forall. unfold all_decimal in Hs.
    rewrite Forall_forall in Hs. intros a Ha.
    now destruct (decimal_char_facts a (Hs a Ha)).
Qed.

Lemma convert_str_of_N (n : N) : convert (str_of_N n) = Ok (VInt (Z.of_N n)).
Proof.
  destruct (decimal_text (str_of_N n) (str_of_N_decimal n) (str_of_N_nonempty n))
    as (_ & Hl & Ht & Hf & Hd).
  unfold convert. now rewrite Hl, Ht, Hf, Hd, py_int_str_of_N.
Qed.

Lemma digit_head_facts (c : ascii) :
  isdigit_char c = true ->
  c_isspace (to_ascii_char c) = false /\
  Ascii.eqb (to_ascii_char c) "-" = false /\
  Ascii.eqb (to_ascii_char c) "+" = false.
Proof.
  each_char c; intros H; try discriminate H; vm_compute; auto.
Qed.

(** [isdigit] admits no sign, so the integer read is not negative. *)
Lemma py_int_isdigit_nonneg (s : str) (z : Z) :
  isdigit s = true -> py_int s = Some z -> (0 <= z)%Z.
Proof.
  destruct s as [|c r]; [discriminate|]. unfold isdigit; simpl forallb.
  intros H; apply andb_true_iff in H as [Hc _].
  destruct (digit_head_facts c Hc) as (Hs & Hm & Hp).
  unfold py_int, strip_with. simpl map. simpl lstrip_with. rewrite Hs.
  destruct (rstrip_split c_isspace (to_ascii_char c :: map to_ascii_char r))
    as (z0 & E & F).
  destruct (rstrip_with c_isspace (to_ascii_char c :: map to_ascii_char r))
    as [|c1 r1].
  - simpl in E; subst z0. simpl in F. rewrite Hs in F; discriminate F.
  - inversion E; subst c1. rewrite Hm, Hp.
    destruct (int_digits _ _ _); simpl; [|discriminate].
    intros H; inversion H; subst. apply N2Z.is_nonneg.
Qed.

(** The text written for a converted value converts back to that
    value. *)
Lemma convert_rendered (raw : str) (v : pyval) :
  convert raw = Ok v -> text_ok raw ->
  convert (rendered v) = Ok v /\ text_ok (rendered v) /\
  (rendered v = [] -> raw = []).
Proof.
  intros Hc Hraw. pose proof Hc as Hc'. unfold convert in Hc.
  destruct (str_eqb (lower raw) (py "true")).
  { inversion Hc; subst. vm_compute. repeat split; try discriminate.
    - repeat constructor; discriminate.
    - right. exists (py "tru"), "e"%char; auto. }
  destruct (str_eqb (lower raw) (py "false")).
  { inversion Hc; subst. vm_compute. repeat split; try discriminate.
    - repeat constructor; discriminate.
    - right. exists (py "fals"), "e"%char; auto. }
  destruct (isdigit raw) eqn:Hd.
  { destruct (py_int raw) as [z|] eqn:Hz; [|discriminate].
    inversion Hc; subst. pose proof (py_int_isdigit_nonneg raw z Hd Hz) as Hpos.
    assert (Hr : rendered (VInt z) = str_of_N (Z.to_N z)).
    { unfold rendered; simpl. destruct z; auto. lia. }
    rewrite Hr. split; [|split].
    - rewrite convert_str_of_N, Z2N.id; auto.
    - apply decimal_text; [apply str_of_N_decimal | apply str_of_N_nonempty].
    - intros E; now apply str_of_N_nonempty in E. }
  destruct (float_of_str raw) as [x|] eqn:Hx.
  { inversion Hc; subst. unfold rendered; simpl. split; [|split].
    - eapply convert_float_text, float_of_str_valid, Hx.
    - apply str_of_float_text.
    - intros E. now apply (proj1 (proj2 (str_of_float_text x))) in E. }
  inversion Hc; subst. unfold rendered; simpl. auto.
Qed.

(** ** Keys and values of a stripped line *)

Lemma key_value_cases (t : str) :
  (no_space t /\ key_value t = (t, [])) \/
  (exists k v, t = k ++ " "%char :: v /\ no_space k /\ key_value t = (k, v)).
Proof.
  unfold key_value, split_space_1.
  destruct (cut_at_space t) as [[a b]|] eqn:E.
  - right. apply cut_some in E as [-> Ha]. exists a, b; auto.
  - left. apply cut_none in E. auto.
Qed.

Lemma isspace_blank : isspace " " = true.
Proof. reflexivity. Qed.

(** What the two halves of a stripped, non-empty line look like. *)
Lemma key_value_stripped (t k v : str) :
  head_ok isspace t -> last_ok isspace t -> no_eol t ->
  key_value t = (k, v) ->
  head_ok isspace k /\ no_space k /\ no_eol k /\ text_ok v /\
  (v = [] -> last_ok isspace k).
Proof.
  intros Hh Hl He Hkv.
  destruct (key_value_cases t) as [[Hn E] | (k' & v' & Et & Hn & E)];
    rewrite E in Hkv; inversion Hkv; subst.
  - repeat split; auto. constructor.
  - apply Forall_app in He as [Hek Hev]. inversion Hev as [|? ? _ Hev']; subst.
    assert (Hv : last_ok isspace v).
    { destruct Hl as (r & c & Er & Hc).
      destruct v as [|x v'] using rev_ind.
      - change (k ++ [" "%char]) with (k ++ [" "%char]) in Er.
        apply app_inj_tail in Er as [_ <-]. rewrite isspace_blank in Hc.
        discriminate.
      - exists v', x. split; auto.
        replace (k ++ " "%char :: v' ++ [x])
          with ((k ++ " "%char :: v') ++ [x]) in Er
          by (rewrite <- app_assoc; reflexivity).
        apply app_inj_tail in Er as [_ <-]. exact Hc. }
    repeat split; auto.
    + destruct Hh as (c & r & Er & Hc). destruct k as [|x k'].
      * simpl in Er. inversion Er; subst. rewrite isspace_blank in Hc.
        discriminate.
      * inversion Er; subst. exists c, k'; auto.
    + intros ->. destruct Hv as (r & c & Er & _).
      now destruct r.
Qed.

(** The line [save] writes for a key and a value text is split back into
    exactly that key and that text. *)
Lemma key_value_written (k r : str) :
  head_ok isspace k -> no_space k -> text_ok r ->
  (r = [] -> last_ok isspace k) ->
  strip (k ++ py " " ++ r ++ [LF]) <> [] /\
  key_value (strip (k ++ py " " ++ r ++ [LF])) = (k, r).
Proof.
  intros Hh Hn [_ Hr] Hk.
  assert (E : strip (k ++ py " " ++ r ++ [LF]) =
              match r with [] => k | _ => k ++ " "%char :: r end).
  { change (py " ") with [" "%char].
    replace (k ++ [" "%char] ++ r ++ [LF]) with ((k ++ [" "%char] ++ r) ++ [LF])
      by (rewrite <- !app_assoc; reflexivity).
    unfold strip. rewrite strip_snoc by reflexivity.
    destruct Hr as [-> | Hl].
    - rewrite app_nil_r. rewrite strip_snoc by reflexivity.
      apply strip_id; auto.
    - destruct Hl as (r' & c & -> & Hc).
      destruct (r' ++ [c]) eqn:Er; [now destruct r'|]. rewrite <- Er.
      apply strip_id.
      + destruct Hh as (x & k' & -> & Hx).
        exists x, (k' ++ [" "%char] ++ r' ++ [c]). auto.
      + exists (k ++ [" "%char] ++ r'), c. split; auto.
        rewrite <- !app_assoc; reflexivity. }
  rewrite E. destruct Hh as (x & k' & -> & Hx).
  destruct r as [|c r'].
  - split; [discriminate|].
    destruct (key_value_cases (x :: k')) as [[_ H] | (a & b & Et & Ha & _)]; auto.
    unfold no_space in Hn. rewrite Et in Hn. apply Forall_app in Hn as [_ Hn].
    inversion Hn; congruence.
  - split; [discriminate|].
    unfold key_value, split_space_1.
    rewrite (cut_app (x :: k') (c :: r') Hn). reflexivity.
Qed.

(** ** Dictionaries *)

Lemma dict_get_set_same (d : dict) (k : str) (v : pyval) :
  dict_get (dict_set d k v) k = Some v.
Proof.
  induction d as [|[k' v'] d IH]; simpl.
  - now rewrite str_eqb_refl.
  - destruct (str_eqb k' k) eqn:E; simpl; rewrite E; auto.
Qed.

Lemma dict_get_set_other (d : dict) (k k' : str) (v : pyval) :
  k' <> k -> dict_get (dict_set d k v) k' = dict_get d k'.
Proof.
  intros Hne. induction d as [|[k0 v0] d IH]; simpl.
  - apply str_eqb_neq in Hne. rewrite str_eqb_sym. now rewrite Hne.
  - destruct (str_eqb k0 k) eqn:E; simpl.
    + apply str_eqb_eq in E; subst k0.
      assert (F : str_eqb k k' = false) by (apply str_eqb_neq; congruence).
      now rewrite F.
    + destruct (str_eqb k0 k'); auto.
Qed.

Lemma dict_set_keys_in (d : dict) (k : str) (v : pyval) (x : str) :
  In x (keys (dict_set d k v)) -> x = k \/ In x (keys d).
Proof.
  induction d as [|[k' v'] d IH]; simpl.
  - intros [<- | []]; auto.
  - destruct (str_eqb k' k); simpl; intros [<- | H]; auto.
    destruct (IH H); auto.
Qed.

Lemma dict_set_NoDup (d : dict) (k : str) (v : pyval) :
  NoDup (keys d) -> NoDup (keys (dict_set d k v)).
Proof.
  induction d as [|[k' v'] d IH]; simpl; intros H.
  - repeat constructor; auto.
  - inversion H; subst. destruct (str_eqb k' k) eqn:E; simpl.
    + constructor; auto.
    + constructor; auto. intros Hin.
      apply dict_set_keys_in in Hin as [-> | Hin]; auto.
      rewrite str_eqb_refl in E; discriminate.
Qed.

Lemma dict_set_Forall (P : str * pyval -> Prop) (d : dict) (k : str) (v : pyval) :
  Forall P d -> P (k, v) -> Forall P (dict_set d k v).
Proof.
  intros Hd Hk. induction Hd as [|[k' v'] d Hx Hd IH]; simpl.
  - constructor; auto.
  - destruct (str_eqb k' k) eqn:E; constructor; auto.
    apply str_eqb_eq in E; subst; auto.
Qed.

Lemma dict_set_new (d : dict) (k : str) (v : pyval) :
  ~ In k (keys d) -> dict_set d k v = d ++ [(k, v)].
Proof.
  induction d as [|[k' v'] d IH]; simpl; intros H; auto.
  destruct (str_eqb k' k) eqn:E.
  - apply str_eqb_eq in E; subst. tauto.
  - rewrite IH; auto.
Qed.

Lemma scalars_dict_set_disks (d : dict) (v : pyval) :
  scalars (dict_set d (py "disks") v) = scalars d.
Proof.
  unfold scalars. induction d as [|[k' v'] d IH]; cbn [dict_set filter fst].
  - now rewrite str_eqb_refl.
  - destruct (str_eqb k' (py "disks")) eqn:E; cbn [filter fst negb]; rewrite E;
      cbn [negb]; auto. now rewrite IH.
Qed.

Lemma scalars_keys (d : dict) (k : str) :
  In k (keys (scalars d)) <-> In k (keys d) /\ k <> py "disks".
Proof.
  unfold keys, scalars. rewrite !in_map_iff. split.
  - intros ([k' v] & <- & H). apply filter_In in H as [H1 H2]. simpl in *.
    split; [exists (k', v); auto|].
    apply negb_true_iff in H2. now apply str_eqb_neq.
  - intros [([k' v] & <- & H) Hne]. exists (k', v); split; auto.
    apply filter_In; split; auto. simpl in *.
    apply negb_true_iff. now apply str_eqb_neq.
Qed.

Lemma scalars_NoDup (d : dict) : NoDup (keys d) -> NoDup (keys (scalars d)).
Proof.
  induction d as [|[k v] d IH]; intros H; [constructor|].
  inversion H; subst. unfold scalars; cbn [filter fst].
  destruct (negb (str_eqb k (py "disks"))); fold (scalars d); auto.
  cbn [keys map fst]. constructor; auto.
  intros Hin. apply scalars_keys in Hin as [Hin _]. auto.
Qed.

Lemma scalars_idem (d : dict) : scalars (scalars d) = scalars d.
Proof.
  unfold scalars. induction d as [|[k v] d IH]; cbn [filter fst]; auto.
  destruct (negb (str_eqb k (py "disks"))) eqn:E; cbn [filter fst]; auto.
  rewrite E. now rewrite IH.
Qed.

(** ** What [parse] builds *)

Lemma parse_line_state (st st' : dict * list str) (line : str) :
  no_eol (strip line) -> parsed_state st ->
  parse_line st line = Ok st' -> parsed_state st'.
Proof.
  destruct st as [config disks]. intros Hne (Hnd & Hc & Hd).
  unfold parse_line. destruct (strip line) as [|c r] eqn:Ht.
  { intros H; inversion H; subst. repeat split; auto. }
  assert (Hnn : strip line <> []) by (rewrite Ht; discriminate).
  destruct (strip_ends isspace line Hnn) as [Hh Hl].
  unfold strip in Ht; rewrite Ht in Hh, Hl.
  destruct (key_value (c :: r)) as [k v] eqn:Ekv.
  destruct (key_value_stripped (c :: r) k v Hh Hl Hne Ekv)
    as (Hk1 & Hk2 & Hk3 & Hv & Hvk).
  destruct (str_eqb k (py "disk")) eqn:Ek.
  - intros H; inversion H; subst. repeat split; auto.
    apply Forall_app; split; auto.
  - destruct (convert v) as [val|e] eqn:Ev; simpl; [|discriminate].
    intros H; inversion H; subst. repeat split; simpl.
    + now apply dict_set_NoDup.
    + apply dict_set_Forall; auto. split; simpl.
      * repeat split; auto. now apply str_eqb_neq.
      * exists v; auto.
    + exact Hd.
Qed.

Lemma parse_lines_state (lines : list str) :
  Forall (fun l => no_eol (strip l)) lines ->
  forall st st', parsed_state st -> parse_lines st lines = Ok st' ->
  parsed_state st'.
Proof.
  induction 1 as [|l lines Hl _ IH]; simpl; intros st st' Hst.
  - intros H; inversion H; subst; auto.
  - destruct (parse_line st l) as [st1|e] eqn:E; simpl; [|discriminate].
    apply IH. eapply parse_line_state; eauto.
Qed.

Lemma parse_text_state (text : str) (d : dict) :
  parse_text text = Ok d ->
  exists config disks,
    parse_lines ([], []) (readlines (universal_newlines text)) = Ok (config, disks) /\
    d = dict_set config (py "disks") (VList disks) /\
    parsed_state (config, disks).
Proof.
  unfold parse_text.
  destruct (parse_lines _ _) as [[config disks]|e] eqn:E; simpl; [|discriminate].
  intros H; inversion H; subst. exists config, disks. repeat split; auto;
  eapply (parse_lines_state (readlines (universal_newlines text)));
    try exact E; try (repeat split; constructor).
  all: apply Forall_forall; intros l Hl; eapply stripped_line_no_eol; eauto.
Qed.

Lemma entry_item (kv : str * pyval) : entry_ok kv -> item_ok kv.
Proof.
  intros [Hk (raw & Hc & Hr & Hrk)].
  destruct (convert_rendered raw (snd kv) Hc Hr) as (H1 & H2 & H3).
  split; [exact Hk|]. split; [exact H1|]. split; [exact H2|]. auto.
Qed.

(** ** What [save] writes *)

Lemma translate_app (p : platform) (a b : str) :
  translate_on_write p (a ++ b) =
    translate_on_write p a ++ translate_on_write p b.
Proof. apply flat_map_app. Qed.

Lemma writing_truncate (w : world) (p : str) : writing w p [] (truncate w p).
Proof.
  unfold writing, truncate, put_file; simpl. rewrite str_eqb_refl.
  repeat split; auto. intros q Hq. apply str_eqb_neq in Hq. now rewrite Hq.
Qed.

Lemma writing_write (w0 w : world) (p data text : str) :
  writing w0 p data w -> writing w0 p (data ++ text) (write w p text).
Proof.
  intros (Hf & Ho & Hw & Hq). unfold writing, write. rewrite Hf.
  unfold put_file; simpl. rewrite str_eqb_refl, translate_app, Ho.
  repeat split; auto. intros q Hne. pose proof Hne as Hne'.
  apply str_eqb_neq in Hne. rewrite Hne. auto.
Qed.

Lemma writing_disks (w0 : world) (p : str) (ds : list str) :
  forall w data, writing w0 p data w ->
  writing w0 p (data ++ List.concat (map disk_line ds))
    (fold_left (fun w disk => write w p (py "disk " ++ disk ++ [LF])) ds w).
Proof.
  induction ds as [|x ds IH]; cbn [fold_left map List.concat]; intros w data H.
  - now rewrite app_nil_r.
  - rewrite app_assoc. apply IH. now apply writing_write.
Qed.

Lemma writing_items (w0 : world) (p : str) (config : dict) :
  forall w data, writing w0 p data w ->
  writing w0 p (data ++ List.concat (map item_line (scalars config)))
    (fold_left (save_item p) config w).
Proof.
  unfold scalars.
  induction config as [|[k v] config IH]; cbn [fold_left filter fst];
    intros w data H.
  - simpl. now rewrite app_nil_r.
  - unfold save_item at 2. destruct (str_eqb k (py "disks")); cbn [negb].
    + now apply IH.
    + cbn [map List.concat]. rewrite app_assoc. apply IH.
      now apply writing_write.
Qed.

Lemma save_writes (w : world) (p : str) (config : dict) (ds : list str) :
  writable w p = true ->
  iterate (dict_get_default config (py "disks") (VList [])) = Ok ds ->
  outcome (save w p config) = Ok tt /\
  config_after (save w p config) = config /\
  writing w p (saved_text ds config) (world_after (save w p config)).
Proof.
  intros Hw Hi. unfold save. rewrite Hw, Hi. simpl. repeat split; auto;
  apply (writing_items w p config _ (List.concat (map disk_line ds)));
  apply (writing_disks w p ds _ []); apply writing_truncate.
Qed.

(** ** Parsing what [save] wrote *)

Lemma parse_lines_app (l1 l2 : list str) (st : dict * list str) :
  parse_lines st (l1 ++ l2) =
    (st' <- parse_lines st l1 ;; parse_lines st' l2).
Proof.
  revert st; induction l1 as [|l l1 IH]; intros st; simpl; auto.
  destruct (parse_line st l); simpl; auto.
Qed.

Lemma parse_line_written (config : dict) (disks : list str) (k r : str) :
  head_ok isspace k -> no_space k -> text_ok r ->
  (r = [] -> last_ok isspace k) ->
  parse_line (config, disks) (k ++ py " " ++ r ++ [LF]) =
    if str_eqb k (py "disk") then Ok (config, disks ++ [r])
    else (value <- convert r ;; Ok (dict_set config k value, disks)).
Proof.
  intros Hh Hn Hr Hk.
  destruct (key_value_written k r Hh Hn Hr Hk) as [Hne Hkv].
  unfold parse_line. destruct (strip (k ++ py " " ++ r ++ [LF])); [congruence|].
  now rewrite Hkv.
Qed.

Lemma disk_key_ok : head_ok isspace (py "disk") /\ no_space (py "disk") /\
                    last_ok isspace (py "disk").
Proof.
  split; [|split].
  - exists "d"%char, (py "isk"); auto.
  - repeat constructor; discriminate.
  - exists (py "dis"), "k"%char; auto.
Qed.

Lemma parse_line_disk_line (config : dict) (disks : list str) (x : str) :
  text_ok x ->
  parse_line (config, disks) (disk_line x) = Ok (config, disks ++ [x]).
Proof.
  intros Hx. destruct disk_key_ok as (H1 & H2 & H3).
  change (disk_line x) with (py "disk" ++ py " " ++ x ++ [LF]).
  rewrite parse_line_written; auto.
Qed.

Lemma parse_line_item_line (config : dict) (disks : list str) (kv : str * pyval) :
  item_ok kv ->
  parse_line (config, disks) (item_line kv) =
    Ok (dict_set config (fst kv) (snd kv), disks).
Proof.
  intros ((H1 & H2 & H3 & H4) & Hc & Hr & Hk). unfold item_line.
  rewrite parse_line_written; auto.
  apply str_eqb_neq in H4. rewrite H4, Hc. reflexivity.
Qed.

Lemma parse_lines_disk_lines (config : dict) (xs : list str) :
  Forall text_ok xs -> forall disks,
  parse_lines (config, disks) (map disk_line xs) = Ok (config, disks ++ xs).
Proof.
  induction 1 as [|x xs Hx _ IH]; intros disks; cbn [map parse_lines].
  - now rewrite app_nil_r.
  - rewrite parse_line_disk_line by assumption. simpl.
    rewrite IH, <- app_assoc. reflexivity.
Qed.

Lemma parse_lines_item_lines (disks : list str) (items : dict) :
  Forall item_ok items -> forall config : dict,
  NoDup (keys (config ++ items)) ->
  parse_lines (config, disks) (map item_line items) = Ok (config ++ items, disks).
Proof.
  induction 1 as [|[k v] items Hx _ IH]; intros config Hnd; cbn [map parse_lines].
  - now rewrite app_nil_r.
  - rewrite parse_line_item_line by assumption. simpl.
    assert (Hk : ~ In k (keys config)).
    { unfold keys in *. rewrite map_app in Hnd. simpl in Hnd.
      apply NoDup_remove_2 in Hnd. intros Hin; apply Hnd.
      apply in_or_app; auto. }
    rewrite (dict_set_new config k v Hk), IH.
    + now rewrite <- app_assoc.
    + now rewrite <- app_assoc.
Qed.

Lemma readlines_lines (ls : list str) :
  Forall (fun l => exists b, l = b ++ [LF] /\ no_lf b) ls ->
  readlines (List.concat ls) = ls.
Proof.
  induction 1 as [|l ls (b & -> & Hb) _ IH]; cbn [List.concat]; auto.
  rewrite <- app_assoc. cbn [app]. rewrite readlines_cons_line, IH; auto.
Qed.

Lemma text_ok_no_eol (r : str) : text_ok r -> no_eol r.
Proof. now intros [H _]. Qed.

Lemma disk_line_shape (x : str) :
  text_ok x -> exists b, disk_line x = b ++ [LF] /\ no_eol b.
Proof.
  intros Hx. exists (py "disk " ++ x). split.
  - unfold disk_line. now rewrite app_assoc.
  - apply Forall_app; split; [|apply Hx].
    repeat constructor; discriminate.
Qed.

Lemma item_line_shape (kv : str * pyval) :
  item_ok kv -> exists b, item_line kv = b ++ [LF] /\ no_eol b.
Proof.
  intros ((_ & _ & Hk & _) & _ & Hr & _).
  exists (fst kv ++ py " " ++ rendered (snd kv)). split.
  - unfold item_line. now rewrite !app_assoc.
  - apply Forall_app; split; auto. apply Forall_app; split; [|apply Hr].
    repeat constructor; discriminate.
Qed.

Lemma saved_lines (ds : list str) (config : dict) :
  Forall text_ok ds -> Forall item_ok (scalars config) ->
  no_cr (saved_text ds config) /\
  readlines (saved_text ds config) =
    map disk_line ds ++ map item_line (scalars config).
Proof.
  intros Hd Hi. unfold saved_text. rewrite <- concat_app.
  assert (H : Forall (fun l => exists b, l = b ++ [LF] /\ no_eol b)
                     (map disk_line ds ++ map item_line (scalars config))).
  { apply Forall_app; split; apply Forall_map.
    - eapply Forall_impl; [|exact Hd]. apply disk_line_shape.
    - eapply Forall_impl; [|exact Hi]. apply item_line_shape. }
  split.
  - unfold no_cr. apply Forall_concat. eapply Forall_impl; [|exact H].
    intros l (b & -> & Hb). apply Forall_app; split.
    + eapply Forall_impl; [|exact Hb]. intros a [_ Ha]; exact Ha.
    + repeat constructor; discriminate.
  - apply readlines_lines. eapply Forall_impl; [|exact H].
    intros l (b & -> & Hb). exists b; split; auto.
    now apply no_eol_split in Hb.
Qed.

(** The central fact: a saved dictionary whose lines are well formed is
    parsed back entry for entry. *)
Lemma reparse_saved (w : world) (p : str) (config : dict) (ds : list str) :
  writable w p = true ->
  iterate (dict_get_default config (py "disks") (VList [])) = Ok ds ->
  Forall text_ok ds -> NoDup (keys config) ->
  Forall item_ok (scalars config) ->
  parse (world_after (save w p config)) p =
    Ok (scalars config ++ [(py "disks", VList ds)]).
Proof.
  intros Hw Hi Hd Hnd Hs.
  destruct (save_writes w p config ds Hw Hi) as (_ & _ & Hf & _).
  unfold parse, exists_path. rewrite Hf. cbn [negb].
  destruct (saved_lines ds config Hd Hs) as [Hcr Hl].
  unfold parse_text. rewrite read_back_written by assumption.
  rewrite Hl, parse_lines_app, parse_lines_disk_lines by assumption.
  cbn [bind app]. rewrite (parse_lines_item_lines ds (scalars config) Hs []).
  - cbn [bind app]. rewrite dict_set_new; auto.
    intros Hin. apply scalars_keys in Hin. tauto.
  - now apply scalars_NoDup.
Qed.

(** ** The lines of a file as key/value entries *)

Lemma parse_line_entry (config : dict) (disks : list str) (line : str) :
  parse_line (config, disks) line =
    match line_entry line with
    | None => Ok (config, disks)
    | Some (key, value) =>
        if str_eqb key (py "disk") then Ok (config, disks ++ [value])
        else (v <- convert value ;; Ok (dict_set config key v, disks))
    end.
Proof.
  unfold parse_line, line_entry. destruct (strip line); [reflexivity|].
  destruct (key_value (a :: s)); reflexivity.
Qed.

Lemma parse_lines_disks (lines : list str) :
  forall config disks config' disks',
  parse_lines (config, disks) lines = Ok (config', disks') ->
  disks' = disks ++ disk_values lines.
Proof.
  induction lines as [|l lines IH]; intros config disks config' disks';
    cbn [parse_lines disk_values flat_map].
  - intros H; inversion H; subst. now rewrite app_nil_r.
  - rewrite parse_line_entry. destruct (line_entry l) as [[k v]|]; cbn [bind].
    + destruct (str_eqb k (py "disk")); cbn [bind].
      * intros H; apply IH in H. now rewrite <- app_assoc in H.
      * destruct (convert v); cbn [bind]; [|discriminate].
        intros H; apply IH in H. exact H.
    + intros H; apply IH in H. exact H.
Qed.

Lemma parse_text_disks (text : str) (d : dict) :
  parse_text text = Ok d ->
  dict_get d (py "disks") = Some (VList (disk_values (file_lines text))) /\
  NoDup (keys d).
Proof.
  intros H. destruct (parse_text_state text d H)
    as (config & disks & E & -> & Hnd & _).
  apply parse_lines_disks in E. simpl in E; subst disks.
  split; [apply dict_get_set_same | now apply dict_set_NoDup].
Qed.

Lemma dict_get_In (d : dict) (k : str) (v v' : pyval) :
  NoDup (keys d) -> dict_get d k = Some v -> In (k, v') d -> v' = v.
Proof.
  induction d as [|[k0 v0] d IH]; simpl; [discriminate|].
  intros Hnd Hg Hin. inversion Hnd; subst.
  destruct (str_eqb k0 k) eqn:E.
  - apply str_eqb_eq in E; subst k0. destruct Hin as [Hin | Hin].
    + inversion Hin; subst. congruence.
    + exfalso. apply H1. unfold keys. apply in_map_iff. exists (k, v'); auto.
  - destruct Hin as [Hin | Hin].
    + inversion Hin; subst. rewrite str_eqb_refl in E; discriminate.
    + apply IH; auto.
Qed.

Lemma parse_lines_last (k : str) (lines : list str) :
  k <> py "disk" ->
  forall config disks config' disks' acc,
  parse_lines (config, disks) lines = Ok (config', disks') ->
  tracks k config acc ->
  tracks k config'
    (fold_left (fun acc line =>
                  match line_entry line with
                  | Some (k', v) => if str_eqb k' k then Some v else acc
                  | None => acc
                  end) lines acc).
Proof.
  intros Hk. induction lines as [|l lines IH];
    intros config disks config' disks' acc; cbn [parse_lines fold_left].
  - intros H; inversion H; subst; auto.
  - rewrite parse_line_entry. destruct (line_entry l) as [[k' v]|]; cbn [bind].
    + destruct (str_eqb k' (py "disk")) eqn:Ed; cbn [bind].
      * apply str_eqb_eq in Ed; subst k'.
        assert (F : str_eqb (py "disk") k = false)
          by (apply str_eqb_neq; congruence).
        rewrite F. apply IH.
      * destruct (convert v) as [val|] eqn:Ev; cbn [bind]; [|discriminate].
        intros H Ht. eapply IH; [exact H|].
        destruct (str_eqb k' k) eqn:Ek.
        -- apply str_eqb_eq in Ek; subst k'. exists val; split; auto.
           apply dict_get_set_same.
        -- apply str_eqb_neq in Ek. unfold tracks in *.
           destruct acc as [raw|].
           ++ destruct Ht as (v0 & H1 & H2). exists v0; split; auto.
              rewrite dict_get_set_other; auto.
           ++ rewrite dict_get_set_other; auto.
    + apply IH.
Qed.

(** ** Documents that come from [parse] *)

Lemma entry_ok_scalars (config : dict) :
  Forall entry_ok config -> Forall entry_ok (scalars config).
Proof.
  rewrite !Forall_forall. intros H kv Hin.
  apply filter_In in Hin as [Hin _]. auto.
Qed.

Lemma parsed_document (w : world) (src : str) (d : dict) :
  parse w src = Ok d ->
  NoDup (keys d) /\ Forall item_ok (scalars d) /\
  exists ds, disks_of d = VList ds /\ Forall text_ok ds.
Proof.
  unfold parse. destruct (exists_path w src); cbn [negb].
  2:{ intros H; inversion H; subst. repeat split; try constructor.
      exists []; split; [reflexivity | constructor]. }
  destruct (files w src) as [text|]; [|discriminate].
  intros H. destruct (parse_text_state text d H)
    as (config & disks & _ & -> & Hnd & Hc & Hd).
  simpl in Hnd, Hc, Hd. split; [|split].
  - now apply dict_set_NoDup.
  - rewrite scalars_dict_set_disks.
    apply entry_ok_scalars in Hc. rewrite Forall_forall in *.
    intros kv Hin. apply entry_item, Hc, Hin.
  - exists disks. split; auto. unfold disks_of, dict_get_default.
    now rewrite dict_get_set_same.
Qed.

Lemma reparsed_view (s : dict) (ds : list str) :
  disks_of (scalars s ++ [(py "disks", VList ds)]) = VList ds /\
  scalars (scalars s ++ [(py "disks", VList ds)]) = scalars s.
Proof.
  split.
  - rewrite <- dict_set_new.
    + unfold disks_of, dict_get_default. now rewrite dict_get_set_same.
    + intros Hin. apply scalars_keys in Hin. tauto.
  - unfold scalars at 1. rewrite filter_app. fold (scalars (scalars s)).
    rewrite scalars_idem. cbn [filter fst]. rewrite str_eqb_refl. cbn [negb].
    apply app_nil_r.
Qed.

Lemma reparse_document (w : world) (dst : str) (config : dict) (ds : list str) :
  writable w dst = true ->
  disks_of config = VList ds -> Forall text_ok ds ->
  NoDup (keys config) -> Forall item_ok (scalars config) ->
  outcome (save w dst config) = Ok tt /\
  exists d', parse (world_after (save w dst config)) dst = Ok d' /\
             disks_of d' = VList ds /\ scalars d' = scalars config.
Proof.
  intros Hw Hd Ht Hn Hi.
  assert (Hit : iterate (dict_get_default config (py "disks") (VList [])) = Ok ds).
  { unfold disks_of in Hd. now rewrite Hd. }
  split; [apply (save_writes w dst config ds Hw Hit)|].
  exists (scalars config ++ [(py "disks", VList ds)]).
  split; [now apply reparse_saved | apply reparsed_view].
Qed.

(** ** The model of floats against the Standard Library and the interpreter *)

Lemma digits2_size (m : positive) : digits2_pos m = Pos.size m.
Proof. induction m; simpl; congruence. Qed.

(** The canonical form above is the one of the Standard Library's binary64
    ([valid_binary] at precision 53 and [emax] 1024). *)
Lemma valid_float_valid_binary (x : pyfloat) :
  valid_float x -> valid_binary prec emax x = true.
Proof.
  destruct x as [s | s | | s m e]; try reflexivity.
  intros ((He1 & He2) & Hm & Hn).
  unfold valid_binary, bounded, canonical_mantissa, fexp, SpecFloat.emin.
  rewrite digits2_size.
  pose proof (Pos.size_gt m) as Hgt. pose proof (Pos.size_le m) as Hle.
  apply Pos2Z.pos_lt_pos in Hgt. apply Pos2Z.pos_le_pos in Hle.
  rewrite Pos2Z.inj_pow in Hgt, Hle.
  change (Z.pos m~0) with (2 * Z.pos m)%Z in Hle.
  change (Z.pos 2) with 2%Z in Hgt, Hle.
  set (k := Z.pos (Pos.size m)) in *.
  assert (Hk : (0 < k)%Z) by (unfold k; lia).
  assert (Hk53 : (k <= 53)%Z).
  { destruct (Z_le_gt_dec k 53) as [H | H]; auto.
    assert (2 ^ 54 <= 2 ^ k)%Z by (apply Z.pow_le_mono_r; lia).
    change (2 ^ 54)%Z with (2 * 2 ^ 53)%Z in H0. lia. }
  apply andb_true_iff; split.
  - apply Z.eqb_eq. unfold prec, emax.
    destruct Hn as [-> | Hn]; [lia|].
    assert (53 <= k)%Z.
    { destruct (Z_le_gt_dec 53 k) as [H | H]; auto.
      assert (2 ^ k <= 2 ^ 52)%Z by (apply Z.pow_le_mono_r; lia). lia. }
    lia.
  - apply Z.leb_le. unfold prec, emax. lia.
Qed.

(** A few roundings compared with the division of the Standard Library's
    binary64. *)
Example round_ratio_agrees_with_SFdiv :
  forallb (fun nd =>
             float_eqb (round_ratio false (fst nd) (snd nd))
                       (SFdiv prec emax (S754_finite false (fst nd) 0)
                                        (S754_finite false (snd nd) 0)))
          [(1, 10); (1, 3); (2, 3); (15, 10); (435, 100);
           (9007199254740993, 1); (9007199254740995, 1);
           (1, Pos.pow 10 23); (Pos.pow 10 23, 1); (Pos.pow 10 22, 1);
           (5, Pos.pow 10 324); (247, Pos.pow 10 326); (25, Pos.pow 10 325);
           (22250738585072014, Pos.pow 10 324);
           (17976931348623157, Pos.pow 10 16); (Pos.pow 10 308, 1);
           (17976931348623157 * Pos.pow 10 292, 1);
           (17976931348623159 * Pos.pow 10 292, 1)]%positive
  = true.
Proof. vm_compute. reflexivity. Qed.

(** The text of some floats, as the interpreter prints them. *)
Example str_of_float_samples :
  map (fun s => option_map str_of_float (float_of_str (py s)))
      ["1.5"; "0.1"; "100"; "1e15"; "1e16"; "0.0001"; "0.00001"; "-2.50";
       "5e-324"; "1e400"; "-0.0"; "nan"; "123456789012345678"; "0.3"]%string
  = map (fun s => Some (py s))
      ["1.5"; "0.1"; "100.0"; "1000000000000000.0"; "1e+16"; "0.0001";
       "1e-05"; "-2.5"; "5e-324"; "inf"; "-0.0"; "nan";
       "1.2345678901234568e+17"; "0.3"]%string.
Proof. vm_compute. reflexivity. Qed.

(** ** Where the conversion raises *)







(** * The claims *)

(** C1.  Round trip: a document that [parse] produced, written by [save]
    to any writable path and parsed again from that path, comes back with
    the same disk sequence (contents and order) and the same scalar
    key/value pairs, in the same order.  A document made by [parse] holds
    no ambiguous string (an ambiguous string was converted when the
    document was made), so that proviso needs no hypothesis. *)
Theorem roundtrip_parse_save_parse (w : world) (src dst : str) (d : dict) :
  parse w src = Ok d ->
  writable w dst = true ->
  outcome (save w dst d) = Ok tt /\
  exists d', parse (world_after (save w dst d)) dst = Ok d' /\
             disks_of d' = disks_of d /\ scalars d' = scalars d.
Proof.
  intros Hp Hw.
  destruct (parsed_document w src d Hp) as (Hn & Hi & ds & Hd & Ht).
  rewrite Hd. now apply reparse_document.
Qed.

Lemma roundtrip_parse_save_parse_witness :
  parse sample_world (py "in.cfg") = Ok sample_document /\
  writable sample_world (py "out.cfg") = true /\
  (outcome (save sample_world (py "out.cfg") sample_document) = Ok tt /\
   exists d',
     parse (world_after (save sample_world (py "out.cfg") sample_document))
           (py "out.cfg") = Ok d' /\
     disks_of d' = disks_of sample_document /\
     scalars d' = scalars sample_document).
Proof.
  assert (H1 : parse sample_world (py "in.cfg") = Ok sample_document)
    by (vm_compute; reflexivity).
  assert (H3 : writable sample_world (py "out.cfg") = true)
    by (vm_compute; reflexivity).
  repeat split; try assumption;
    apply (roundtrip_parse_save_parse sample_world (py "in.cfg")
             (py "out.cfg") sample_document H1 H3).
Defined.

Lemma text_okb_ok (r : str) : text_okb r = true -> text_ok r.
Proof.
  unfold text_okb, text_ok. rewrite andb_true_iff, forallb_forall.
  intros [H1 H2]. split.
  - apply Forall_forall. intros c Hc. specialize (H1 c Hc).
    apply andb_true_iff in H1 as [Ha Hb].
    apply negb_true_iff in Ha, Hb. split; now apply Ascii.eqb_neq.
  - destruct (rev r) as [|c t] eqn:E.
    + left. apply (f_equal (@rev ascii)) in E. now rewrite rev_involutive in E.
    + right. exists (rev t), c. split.
      * apply (f_equal (@rev ascii)) in E. now rewrite rev_involutive in E.
      * now apply negb_true_iff.
Qed.





(** C3, amended.  A non-blank line is cut at the first space character
    (U+0020) of its stripped text, not at a whitespace run: the key is the
    text before that space, the value is everything after it, further
    spaces included, and no other whitespace character separates.  With no
    space in the stripped line the whole of it is the key and the value
    is empty.  [parse] then treats the line by that key and that value. *)
Theorem line_cut_at_first_space (line : str) (config : dict) (disks : list str) :
  strip line <> [] ->
  exists key value,
    line_entry line = Some (key, value) /\
    no_space key /\
    ((strip line = key ++ py " " ++ value) \/
     (no_space (strip line) /\ key = strip line /\ value = [])) /\
    parse_line (config, disks) line =
      if str_eqb key (py "disk") then Ok (config, disks ++ [value])
      else (v <- convert value ;; Ok (dict_set config key v, disks)).
Proof.
  intros Hne.
  assert (E : line_entry line = Some (key_value (strip line))).
  { unfold line_entry. destruct (strip line); [congruence | reflexivity]. }
  rewrite parse_line_entry, E.
  destruct (key_value_cases (strip line)) as [[Hn H] | (k & v & Ht & Hn & H)];
    rewrite H.
  - exists (strip line), []. repeat split; auto.
  - exists k, v. repeat split; auto.
Qed.

Lemma line_cut_at_first_space_witness :
  strip (py "extfs /Users/me/My Files" ++ [LF]) <> [] /\
  exists key value,
    line_entry (py "extfs /Users/me/My Files" ++ [LF]) = Some (key, value) /\
    no_space key /\
    ((strip (py "extfs /Users/me/My Files" ++ [LF]) = key ++ py " " ++ value) \/
     (no_space (strip (py "extfs /Users/me/My Files" ++ [LF])) /\
      key = strip (py "extfs /Users/me/My Files" ++ [LF]) /\ value = [])) /\
    parse_line ([], []) (py "extfs /Users/me/My Files" ++ [LF]) =
      if str_eqb key (py "disk") then Ok ([], [] ++ [value])
      else (v <- convert value ;; Ok (dict_set [] key v, [])).
Proof.
  assert (H : strip (py "extfs /Users/me/My Files" ++ [LF]) <> [])
    by (vm_compute; discriminate).
  split; [exact H|].
  exact (line_cut_at_first_space (py "extfs /Users/me/My Files" ++ [LF]) [] [] H).
Defined.

(** C3 as stated fails: on "a<TAB>b" the text before the first
    whitespace run is "a", yet the key is the whole line and the value is
    empty; on "a  b" (two spaces) the value keeps the second space. *)
Lemma whitespace_run_is_not_the_separator :
  split_at_whitespace_run (py "a" ++ [TAB] ++ py "b") = (py "a", py "b") /\
  line_entry (py "a" ++ [TAB] ++ py "b") = Some (py "a" ++ [TAB] ++ py "b", []) /\
  split_at_whitespace_run (py "a  b") = (py "a", py "b") /\
  line_entry (py "a  b") = Some (py "a", py " b") /\
  line_entry (py "a" ++ [TAB] ++ py "b")
    <> Some (split_at_whitespace_run (py "a" ++ [TAB] ++ py "b")).
Proof.
  repeat split; try (vm_compute; reflexivity).
  vm_compute. intros H; discriminate H.
Qed.



(** C5.  A path that does not exist gives the empty dictionary: no
    scalar entry, and an empty disk sequence for every reader that asks
    with [config.get('disks', [])]; no exception is raised. *)
Theorem parse_missing_file (w : world) (filepath : str) :
  exists_path w filepath = false ->
  parse w filepath = Ok [] /\
  scalars [] = [] /\ disks_of [] = VList [].
Proof.
  intros H. unfold parse. rewrite H. repeat split.
Qed.

Lemma parse_missing_file_witness :
  exists_path sample_world (py "none.cfg") = false /\
  parse sample_world (py "none.cfg") = Ok [] /\
  scalars [] = [] /\ disks_of [] = VList [].
Proof.
  assert (H : exists_path sample_world (py "none.cfg") = false)
    by (vm_compute; reflexivity).
  split; [exact H | exact (parse_missing_file sample_world (py "none.cfg") H)].
Defined.

Lemma py_int_negative (p : positive) :
  py_int (str_of_int (Zneg p)) = Some (Zneg p).
Proof.
  unfold py_int, str_of_int.
  pose proof (str_of_N_decimal (Npos p)) as Hd.
  pose proof (str_of_N_nonempty (Npos p)) as Hn.
  assert (Hm : map to_ascii_char ("-"%char :: str_of_N (Npos p))
               = "-"%char :: str_of_N (Npos p)).
  { cbn [map]. f_equal. apply map_id_on.
    eapply Forall_impl; [|exact Hd]. intros c Hc.
    now destruct (decimal_char_facts c Hc) as (_ & _ & _ & ? & _). }
  rewrite Hm, strip_id.
  - rewrite Ascii.eqb_refl. rewrite int_digits_decimal by auto.
    now rewrite digits_val_str_of_N.
  - exists "-"%char, (str_of_N (Npos p)); auto.
  - destruct (all_decimal_ends c_isspace (str_of_N (Npos p))) as [_ (r & c & E & Hc)];
      auto.
    + intros c Hc; now destruct (decimal_char_facts c Hc) as (_ & _ & ? & _).
    + exists ("-"%char :: r), c. rewrite E. auto.
Qed.

Lemma py_int_str_of_int (z : Z) : py_int (str_of_int z) = Some z.
Proof.
  destruct z as [|p|p].
  - reflexivity.
  - change (str_of_int (Zpos p)) with (str_of_N (Npos p)).
    now rewrite py_int_str_of_N.
  - apply py_int_negative.
Qed.





(** C8, amended.  For a key other than [disk] and other than the
    reserved field name [disks], the document that [parse] returns holds
    the converted value of the last line with that key. *)
Theorem last_duplicate_wins (w : world) (filepath text : str) (d : dict)
        (k raw : str) :
  files w filepath = Some text ->
  parse w filepath = Ok d ->
  k <> py "disk" -> k <> py "disks" ->
  last_value k (file_lines text) = Some raw ->
  exists v, convert raw = Ok v /\ dict_get d k = Some v.
Proof.
  intros Hf Hp Hk Hks Hl.
  unfold parse, exists_path in Hp. rewrite Hf in Hp. cbn [negb] in Hp.
  destruct (parse_text_state text d Hp) as (config & disks & E & -> & _).
  pose proof (parse_lines_last k (file_lines text) Hk [] [] config disks None E
                eq_refl) as H.
  unfold last_value in Hl. rewrite Hl in H. destruct H as (v & Hv & Hg).
  exists v. split; auto. rewrite dict_get_set_other; auto.
Qed.

Lemma last_duplicate_wins_witness :
  files duplicate_world (py "jit.cfg")
    = Some (py "jit true" ++ [LF] ++ py "disk a.img" ++ [LF] ++ py "jit false") /\
  parse duplicate_world (py "jit.cfg")
    = Ok [(py "jit", VBool false); (py "disks", VList [py "a.img"])] /\
  py "jit" <> py "disk" /\ py "jit" <> py "disks" /\
  last_value (py "jit")
    (file_lines (py "jit true" ++ [LF] ++ py "disk a.img" ++ [LF] ++ py "jit false"))
    = Some (py "false") /\
  exists v, convert (py "false") = Ok v /\
            dict_get [(py "jit", VBool false); (py "disks", VList [py "a.img"])]
                     (py "jit") = Some v.
Proof.
  assert (H0 : files duplicate_world (py "jit.cfg")
               = Some (py "jit true" ++ [LF] ++ py "disk a.img" ++ [LF]
                       ++ py "jit false")) by reflexivity.
  assert (H1 : parse duplicate_world (py "jit.cfg")
               = Ok [(py "jit", VBool false); (py "disks", VList [py "a.img"])])
    by (vm_compute; reflexivity).
  assert (H2 : py "jit" <> py "disk") by discriminate.
  assert (H3 : py "jit" <> py "disks") by discriminate.
  assert (H4 : last_value (py "jit")
                 (file_lines (py "jit true" ++ [LF] ++ py "disk a.img" ++ [LF]
                              ++ py "jit false")) = Some (py "false"))
    by (vm_compute; reflexivity).
  repeat split; try assumption.
  exact (last_duplicate_wins duplicate_world (py "jit.cfg") _ _
           (py "jit") (py "false") H0 H1 H2 H3 H4).
Defined.

(** C8 as stated fails for the key [disks]: of the two lines "disks 1"
    and "disks 2" neither value is kept, the key holds the (empty) disk
    list. *)
Lemma last_duplicate_lost_for_disks_key :
  files duplicate_world (py "disks.cfg")
    = Some (py "disks 1" ++ [LF] ++ py "disks 2" ++ [LF]) /\
  last_value (py "disks") (file_lines (py "disks 1" ++ [LF] ++ py "disks 2" ++ [LF]))
    = Some (py "2") /\
  convert (py "2") = Ok (VInt 2) /\
  parse duplicate_world (py "disks.cfg") = Ok [(py "disks", VList [])] /\
  dict_get [(py "disks", VList [])] (py "disks") <> Some (VInt 2).
Proof.
  repeat split; try (vm_compute; reflexivity).
  vm_compute. intros H; discriminate H.
Qed.

(** C9.  When the path cannot be opened for writing, [save] ends with the
    [OSError] of [open] (nothing in [save] catches it), no file is
    touched, and the dictionary is as it was; the same call on a path
    that can be written then succeeds with that dictionary. *)
Theorem save_unwritable_raises (w : world) (filepath : str) (config : dict) :
  writable w filepath = false ->
  outcome (save w filepath config) = Raise OSError /\
  world_after (save w filepath config) = w /\
  config_after (save w filepath config) = config /\
  forall retry ds,
    writable w retry = true -> iterate (disks_of config) = Ok ds ->
    outcome (save (world_after (save w filepath config)) retry
                  (config_after (save w filepath config))) = Ok tt.
Proof.
  intros H.
  assert (E : save w filepath config =
              {| outcome := Raise OSError; world_after := w;
                 config_after := config |})
    by (unfold save; rewrite H; reflexivity).
  rewrite E. cbn [outcome world_after config_after].
  repeat split. intros retry ds Hr Hi. now apply (save_writes w retry config ds).
Qed.

Lemma save_unwritable_raises_witness :
  writable sample_world (py "/readonly/out.cfg") = false /\
  outcome (save sample_world (py "/readonly/out.cfg") sample_document)
    = Raise OSError /\
  world_after (save sample_world (py "/readonly/out.cfg") sample_document)
    = sample_world /\
  config_after (save sample_world (py "/readonly/out.cfg") sample_document)
    = sample_document.
Proof.
  assert (H : writable sample_world (py "/readonly/out.cfg") = false)
    by (vm_compute; reflexivity).
  destruct (save_unwritable_raises sample_world (py "/readonly/out.cfg")
              sample_document H) as (H1 & H2 & H3 & _).
  repeat split; assumption.
Defined.

(** C10.  For a file that exists, the document that [parse] returns has
    under ['disks'] exactly the list of the values of the file's [disk]
    lines, and that is the only entry with this key: the value of a
    scalar line whose key is ['disks'] is not in the document. *)
Theorem disks_field_overrides_scalar (w : world) (filepath text : str) (d : dict) :
  files w filepath = Some text ->
  parse w filepath = Ok d ->
  dict_get d (py "disks") = Some (VList (disk_values (file_lines text))) /\
  forall v, In (py "disks", v) d -> v = VList (disk_values (file_lines text)).
Proof.
  intros Hf. unfold parse, exists_path. rewrite Hf. cbn [negb].
  intros Hp. apply parse_text_disks in Hp as [Hg Hn].
  split; auto. intros v Hin. eapply dict_get_In; eauto.
Qed.

Lemma disks_field_overrides_scalar_witness :
  files disks_collision_world (py "c.cfg")
    = Some (py "disks 15" ++ [LF] ++ py "disk a.img" ++ [LF]
            ++ py "rom x" ++ [LF] ++ py "disk b.img" ++ [LF]) /\
  parse disks_collision_world (py "c.cfg")
    = Ok [(py "disks", VList [py "a.img"; py "b.img"]); (py "rom", VStr (py "x"))] /\
  dict_get [(py "disks", VList [py "a.img"; py "b.img"]); (py "rom", VStr (py "x"))]
           (py "disks")
    = Some (VList [py "a.img"; py "b.img"]).
Proof.
  assert (H1 : files disks_collision_world (py "c.cfg")
               = Some (py "disks 15" ++ [LF] ++ py "disk a.img" ++ [LF]
                       ++ py "rom x" ++ [LF] ++ py "disk b.img" ++ [LF]))
    by reflexivity.
  assert (H2 : parse disks_collision_world (py "c.cfg")
               = Ok [(py "disks", VList [py "a.img"; py "b.img"]);
                     (py "rom", VStr (py "x"))])
    by (vm_compute; reflexivity).
  split; [exact H1|]. split; [exact H2|].
  destruct (disks_field_overrides_scalar disks_collision_world (py "c.cfg") _ _ H1 H2)
    as [H _].
  rewrite H. vm_compute. reflexivity.
Defined.

(** * Further properties *)

(** ** Entries that fit on a line *)

Lemma key_okb_ok (k : str) : key_okb k = true -> key_ok k /\ last_ok isspace k.
Proof.
  unfold key_okb. rewrite !andb_true_iff. intros [[[H1 H2] H3] H4].
  rewrite forallb_forall in H2.
  assert (Hc : forall c, In c k -> c <> " "%char /\ c <> LF /\ c <> CR).
  { intros c Hin. specialize (H2 c Hin). rewrite !andb_true_iff in H2.
    destruct H2 as [[Ha Hb] Hd]. apply negb_true_iff in Ha, Hb, Hd.
    apply Ascii.eqb_neq in Ha, Hb, Hd. auto. }
  split; [split; [|split; [|split]]|].
  - destruct k as [|c r]; [discriminate|]. exists c, r. split; auto.
    now apply negb_true_iff.
  - apply Forall_forall. intros c Hin. now apply Hc.
  - apply Forall_forall. intros c Hin. destruct (Hc c Hin) as (_ & ? & ?); auto.
  - apply negb_true_iff in H3. intros ->. now rewrite str_eqb_refl in H3.
  - destruct (rev k) as [|c t] eqn:E; [discriminate|].
    exists (rev t), c. split.
    + apply (f_equal (@rev ascii)) in E. now rewrite rev_involutive in E.
    + now apply negb_true_iff.
Qed.

Lemma written_ok_text (k : str) (v : pyval) :
  key_okb k = true -> text_ok (rendered v) -> written_ok (k, v).
Proof.
  intros Hk Hv. apply key_okb_ok in Hk as [H1 H2]. split; [|split]; auto.
Qed.

Lemma parse_line_reread (config : dict) (disks : list str) (kv kv' : str * pyval) :
  written_ok kv -> reread kv kv' ->
  parse_line (config, disks) (item_line kv) =
    Ok (dict_set config (fst kv') (snd kv'), disks).
Proof.
  intros ((H1 & H2 & H3 & H4) & Hr & Hk) [Hf Hc]. unfold item_line.
  rewrite parse_line_written; auto.
  apply str_eqb_neq in H4. rewrite H4, Hc, Hf. reflexivity.
Qed.

Lemma reread_keys (items items' : dict) :
  Forall2 reread items items' -> keys items' = keys items.
Proof.
  induction 1 as [|kv kv' l l' [Hf _] _ IH]; simpl; congruence.
Qed.

Lemma parse_lines_reread (disks : list str) (items items' : dict) :
  Forall written_ok items -> Forall2 reread items items' ->
  forall config : dict,
  NoDup (keys (config ++ items)) ->
  parse_lines (config, disks) (map item_line items) = Ok (config ++ items', disks).
Proof.
  intros Hw H. revert Hw.
  induction H as [|kv kv' items items' Hr _ IH]; intros Hw config Hnd;
    cbn [map parse_lines].
  - now rewrite app_nil_r.
  - inversion Hw as [|? ? Hkv Hw']; subst.
    rewrite (parse_line_reread config disks kv kv' Hkv Hr). simpl.
    assert (Hk : ~ In (fst kv') (keys config)).
    { destruct Hr as [-> _]. unfold keys in *. rewrite map_app in Hnd.
      simpl in Hnd. apply NoDup_remove_2 in Hnd. intros Hin; apply Hnd.
      apply in_or_app; auto. }
    rewrite (dict_set_new config (fst kv') (snd kv') Hk).
    destruct kv' as [k' v']. cbn [fst snd] in *.
    rewrite IH; auto.
    + now rewrite <- app_assoc.
    + destruct Hr as [Hf _]. cbn [fst] in Hf. subst k'.
      destruct kv as [k v]. cbn [fst]. rewrite <- app_assoc.
      unfold keys in *. rewrite !map_app in *. exact Hnd.
Qed.

Lemma written_line_shape (kv : str * pyval) :
  written_ok kv -> exists b, item_line kv = b ++ [LF] /\ no_eol b.
Proof.
  intros ((_ & _ & Hk & _) & Hr & _).
  exists (fst kv ++ py " " ++ rendered (snd kv)). split.
  - unfold item_line. now rewrite !app_assoc.
  - apply Forall_app; split; auto. apply Forall_app; split; [|apply Hr].
    repeat constructor; discriminate.
Qed.

Lemma written_lines (ds : list str) (config : dict) :
  Forall text_ok ds -> Forall written_ok (scalars config) ->
  no_cr (saved_text ds config) /\
  readlines (saved_text ds config) =
    map disk_line ds ++ map item_line (scalars config).
Proof.
  intros Hd Hi. unfold saved_text. rewrite <- concat_app.
  assert (H : Forall (fun l => exists b, l = b ++ [LF] /\ no_eol b)
                     (map disk_line ds ++ map item_line (scalars config))).
  { apply Forall_app; split; apply Forall_map.
    - eapply Forall_impl; [|exact Hd]. apply disk_line_shape.
    - eapply Forall_impl; [|exact Hi]. apply written_line_shape. }
  split.
  - unfold no_cr. apply Forall_concat. eapply Forall_impl; [|exact H].
    intros l (b & -> & Hb). apply Forall_app; split.
    + eapply Forall_impl; [|exact Hb]. intros a [_ Ha]; exact Ha.
    + repeat constructor; discriminate.
  - apply readlines_lines. eapply Forall_impl; [|exact H].
    intros l (b & -> & Hb). exists b; split; auto.
    now apply no_eol_split in Hb.
Qed.

Lemma reparse_written (w : world) (p : str) (config items' : dict) (ds : list str) :
  writable w p = true ->
  iterate (disks_of config) = Ok ds ->
  Forall text_ok ds -> NoDup (keys config) ->
  Forall written_ok (scalars config) ->
  Forall2 reread (scalars config) items' ->
  parse (world_after (save w p config)) p =
    Ok (items' ++ [(py "disks", VList ds)]).
Proof.
  intros Hw Hi Hd Hnd Hs Hr.
  destruct (save_writes w p config ds Hw Hi) as (_ & _ & Hf & _).
  unfold parse, exists_path. rewrite Hf. cbn [negb].
  destruct (written_lines ds config Hd Hs) as [Hcr Hl].
  unfold parse_text. rewrite read_back_written by assumption.
  rewrite Hl, parse_lines_app, parse_lines_disk_lines by assumption.
  cbn [bind app]. rewrite (parse_lines_reread ds (scalars config) items' Hs Hr []).
  - cbn [bind app]. rewrite dict_set_new; auto.
    rewrite (reread_keys _ _ Hr).
    intros Hin. apply scalars_keys in Hin. tauto.
  - now apply scalars_NoDup.
Qed.

(** ** Documents that [parse] returns *)

Lemma parse_lines_written_inv (disks : list str) (items : dict) :
  Forall written_ok items -> forall (config : dict) st',
  parse_lines (config, disks) (map item_line items) = Ok st' ->
  exists items', Forall2 reread items items'.
Proof.
  induction 1 as [|[k v] items Hkv _ IH]; intros config st' H.
  - exists []. constructor.
  - cbn [map parse_lines] in H.
    destruct Hkv as ((H1 & H2 & H3 & H4) & Hr & Hk). cbn [fst snd] in *.
    unfold item_line in H. cbn [fst snd] in H.
    rewrite parse_line_written in H; auto.
    apply str_eqb_neq in H4. rewrite H4 in H.
    destruct (convert (rendered v)) as [v'|e] eqn:E; [|discriminate H].
    cbn [bind] in H. apply IH in H as [items' H].
    exists ((k, v') :: items'). constructor; auto. split; auto.
Qed.

Lemma dict_set_In (d : dict) (k : str) (v : pyval) (x : str * pyval) :
  In x (dict_set d k v) -> x = (k, v) \/ In x d.
Proof.
  induction d as [|[k' v'] d IH]; simpl.
  - intros [<- | []]; auto.
  - destruct (str_eqb k' k) eqn:E.
    + apply str_eqb_eq in E; subst k'. intros [<- | H]; auto.
    + intros [<- | H]; auto. destruct (IH H); auto.
Qed.

Lemma convert_int_nonneg (raw : str) (z : Z) :
  convert raw = Ok (VInt z) -> (0 <= z)%Z.
Proof.
  unfold convert.
  destruct (str_eqb (lower raw) (py "true")); [discriminate|].
  destruct (str_eqb (lower raw) (py "false")); [discriminate|].
  destruct (isdigit raw) eqn:Hd.
  - destruct (py_int raw) as [z'|] eqn:Hi; [|discriminate].
    intros H; injection H as <-. eapply py_int_isdigit_nonneg; eauto.
  - destruct (float_of_str raw); discriminate.
Qed.

Lemma parsed_entries (w : world) (p : str) (d : dict) (kv : str * pyval) :
  parse w p = Ok d -> In kv d ->
  (exists ds, kv = (py "disks", VList ds)) \/ entry_ok kv.
Proof.
  unfold parse. destruct (negb (exists_path w p)).
  - intros H; injection H as <-. intros [].
  - destruct (files w p) as [text|]; [|discriminate].
    intros H Hin. apply parse_text_state in H as (config & disks & _ & -> & Hs).
    apply dict_set_In in Hin as [-> | Hin]; [left; eauto|].
    right. destruct Hs as (_ & Hf & _). cbn [fst] in Hf.
    rewrite Forall_forall in Hf. auto.
Qed.

(** X1.  An integer in a document that [parse] returned is never
    negative: only a run of digits becomes an integer, so a number written
    with a sign is read as a float. *)
Theorem parsed_integers_nonnegative (w : world) (p : str) (d : dict)
    (k : str) (z : Z) :
  parse w p = Ok d -> In (k, VInt z) d -> (0 <= z)%Z.
Proof.
  intros Hp Hin.
  destruct (parsed_entries w p d (k, VInt z) Hp Hin) as [[ds H] | H].
  - discriminate H.
  - destruct H as (_ & raw & Hc & _). cbn [snd] in Hc.
    now apply convert_int_nonneg in Hc.
Qed.

Lemma parsed_integers_nonnegative_witness :
  parse sample_world (py "in.cfg") = Ok sample_document /\
  In (py "ramsize", VInt 134217728) sample_document /\
  (0 <= 134217728)%Z.
Proof.
  assert (H1 : parse sample_world (py "in.cfg") = Ok sample_document)
    by (vm_compute; reflexivity).
  assert (H2 : In (py "ramsize", VInt 134217728) sample_document)
    by (left; reflexivity).
  split; [exact H1|]. split; [exact H2|].
  exact (parsed_integers_nonnegative sample_world (py "in.cfg") sample_document
           (py "ramsize") 134217728 H1 H2).
Defined.

(** X2.  A string in a document that [parse] returned is a text the
    conversion leaves a string: it does not spell true or false in any
    case, it is not made of digits, [float()] rejects it, it holds no
    line break and it does not end in a blank. *)
Theorem parsed_strings_stay_strings (w : world) (p : str) (d : dict)
    (k s : str) :
  parse w p = Ok d -> In (k, VStr s) d ->
  str_eqb (lower s) (py "true") = false /\
  str_eqb (lower s) (py "false") = false /\
  isdigit s = false /\ float_of_str s = None /\
  text_ok s /\ convert s = Ok (VStr s).
Proof.
  intros Hp Hin.
  destruct (parsed_entries w p d (k, VStr s) Hp Hin) as [[ds H] | H].
  - discriminate H.
  - apply entry_item in H. destruct H as (_ & Hc & Ht & _).
    cbn [snd rendered py_str] in *.
    assert (Hc' := Hc). revert Hc'. unfold convert.
    destruct (str_eqb (lower s) (py "true")); [discriminate|].
    destruct (str_eqb (lower s) (py "false")); [discriminate|].
    destruct (isdigit s).
    + destruct (py_int s); discriminate.
    + destruct (float_of_str s); [discriminate|]. intros _. repeat split; auto; apply Ht.
Qed.

Lemma parsed_strings_stay_strings_witness :
  parse sample_world (py "in.cfg") = Ok sample_document /\
  In (py "screen", VStr (py "win/800/600")) sample_document /\
  (str_eqb (lower (py "win/800/600")) (py "true") = false /\
   str_eqb (lower (py "win/800/600")) (py "false") = false /\
   isdigit (py "win/800/600") = false /\
   float_of_str (py "win/800/600") = None /\
   text_ok (py "win/800/600") /\
   convert (py "win/800/600") = Ok (VStr (py "win/800/600"))).
Proof.
  assert (H1 : parse sample_world (py "in.cfg") = Ok sample_document)
    by (vm_compute; reflexivity).
  assert (H2 : In (py "screen", VStr (py "win/800/600")) sample_document)
    by (do 3 right; left; reflexivity).
  split; [exact H1|]. split; [exact H2|].
  exact (parsed_strings_stay_strings sample_world (py "in.cfg") sample_document
           (py "screen") (py "win/800/600") H1 H2).
Defined.

Lemma key_ok_nonempty (k : str) : key_ok k -> k <> [].
Proof. intros ((c & r & -> & _) & _). discriminate. Qed.

(** X3.  Every key of a document that [parse] returned is non-empty,
    holds no space and no line break, does not begin with a blank and is
    not the word [disk]; no key occurs twice. *)
Theorem parsed_keys_well_formed (w : world) (p : str) (d : dict) (k : str) :
  parse w p = Ok d -> In k (keys d) ->
  k <> [] /\ no_space k /\ no_eol k /\ head_ok isspace k /\ k <> py "disk" /\
  NoDup (keys d).
Proof.
  intros Hp Hin.
  destruct (parsed_document w p d Hp) as (Hn & _).
  unfold keys in Hin. apply in_map_iff in Hin as ([k' v] & <- & Hin).
  cbn [fst].
  destruct (parsed_entries w p d (k', v) Hp Hin) as [[ds H] | H].
  - injection H as -> ->. repeat split; auto; try discriminate.
    + repeat constructor; discriminate.
    + repeat constructor; discriminate.
    + exists "d"%char, (py "isks"). auto.
  - destruct H as (Hk & _). cbn [fst] in Hk.
    pose proof (key_ok_nonempty _ Hk). destruct Hk as (H1 & H2 & H3 & H4).
    repeat split; auto.
Qed.

Lemma parsed_keys_well_formed_witness :
  parse sample_world (py "in.cfg") = Ok sample_document /\
  In (py "jit") (keys sample_document) /\
  (py "jit" <> [] /\ no_space (py "jit") /\ no_eol (py "jit") /\
   head_ok isspace (py "jit") /\ py "jit" <> py "disk" /\
   NoDup (keys sample_document)).
Proof.
  assert (H1 : parse sample_world (py "in.cfg") = Ok sample_document)
    by (vm_compute; reflexivity).
  assert (H2 : In (py "jit") (keys sample_document))
    by (right; left; reflexivity).
  split; [exact H1|]. split; [exact H2|].
  exact (parsed_keys_well_formed sample_world (py "in.cfg") sample_document
           (py "jit") H1 H2).
Defined.

(** ** Reading back what [save] wrote *)

Lemma reparsed_shape (w : world) (p : str) (config d' : dict)
    (ds : list str) :
  writable w p = true ->
  iterate (disks_of config) = Ok ds -> Forall text_ok ds ->
  NoDup (keys config) -> Forall written_ok (scalars config) ->
  parse (world_after (save w p config)) p = Ok d' ->
  exists items', Forall2 reread (scalars config) items' /\
                 d' = items' ++ [(py "disks", VList ds)].
Proof.
  intros Hw Hi Hd Hnd Hs Hp.
  assert (Hex : exists items', Forall2 reread (scalars config) items').
  { destruct (save_writes w p config ds Hw Hi) as (_ & _ & Hf & _).
    unfold parse, exists_path in Hp. rewrite Hf in Hp. cbn [negb] in Hp.
    destruct (written_lines ds config Hd Hs) as [Hcr Hl].
    unfold parse_text in Hp. rewrite read_back_written in Hp by assumption.
    rewrite Hl, parse_lines_app, parse_lines_disk_lines in Hp by assumption.
    cbn [bind app] in Hp.
    match type of Hp with
    | context [parse_lines ?a ?b] =>
        destruct (parse_lines a b) as [st'|e] eqn:E; [|discriminate Hp]
    end.
    eapply parse_lines_written_inv; eauto. }
  destruct Hex as [items' Hr]. exists items'. split; auto.
  rewrite (reparse_written w p config items' ds Hw Hi Hd Hnd Hs Hr) in Hp.
  now injection Hp.
Qed.

(** X4.  What [parse] recovers from a file that [save] wrote for any
    dictionary whose keys and written values fit on one line each: the
    entries other than the disk list come back in the same order, each
    with the value the conversion gives to its written text, followed by
    the disk list.  The values are re-read, not restored: [parse] returns
    such a document whenever every written text converts, and every
    document it returns has this form. *)
Theorem save_then_parse_rereads (w : world) (p : str) (config : dict)
    (ds : list str) :
  writable w p = true ->
  iterate (disks_of config) = Ok ds -> Forall text_ok ds ->
  NoDup (keys config) -> Forall written_ok (scalars config) ->
  (forall items',
     Forall2 reread (scalars config) items' ->
     parse (world_after (save w p config)) p =
       Ok (items' ++ [(py "disks", VList ds)])) /\
  (forall d',
     parse (world_after (save w p config)) p = Ok d' ->
     exists items', Forall2 reread (scalars config) items' /\
                    d' = items' ++ [(py "disks", VList ds)]).
Proof.
  intros Hw Hi Hd Hnd Hs. split.
  - intros items' Hr. now apply reparse_written.
  - intros d' Hp. eapply reparsed_shape; eauto.
Qed.

Lemma edited_document_written :
  Forall text_ok [py "a.img"] /\ NoDup (keys edited_document) /\
  Forall written_ok (scalars edited_document).
Proof.
  split; [|split].
  - constructor; [|constructor]. apply text_okb_ok; reflexivity.
  - repeat constructor; simpl; intuition discriminate.
  - change (Forall written_ok [(py "yearofs", VInt (-5));
                               (py "rom", VStr (py "TRUE"))]).
    constructor; [|constructor; [|constructor]];
      (apply written_ok_text; [reflexivity | apply text_okb_ok; reflexivity]).
Qed.

Lemma save_then_parse_rereads_witness :
  parse (world_after (save empty_world (py "o.cfg") edited_document))
        (py "o.cfg") =
    Ok ([(py "yearofs", VFloat (S754_finite true 5629499534213120 (-50)));
         (py "rom", VBool true)] ++ [(py "disks", VList [py "a.img"])]).
Proof.
  destruct edited_document_written as (Hd & Hn & Hs).
  apply (proj1 (save_then_parse_rereads empty_world (py "o.cfg")
                  edited_document [py "a.img"] eq_refl eq_refl Hd Hn Hs)).
  change (Forall2 reread [(py "yearofs", VInt (-5)); (py "rom", VStr (py "TRUE"))]
            [(py "yearofs", VFloat (S754_finite true 5629499534213120 (-50)));
             (py "rom", VBool true)]).
  constructor; [|constructor; [|constructor]]; split; vm_compute; reflexivity.
Defined.

Lemma float_literal_int (neg : bool) (ds : str) :
  all_decimal ds -> ds <> [] ->
  float_literal (sign_text neg ++ ds) =
    Some (float_of_decimal neg (digits_val ds 0) 0).
Proof.
  intros Hd Hdn. unfold float_literal.
  rewrite <- (app_nil_r ds) at 1.
  rewrite take_sign_text by assumption. rewrite app_nil_r.
  destruct ds as [|d ds]; [congruence|]. pose proof Hd as Hd'.
  inversion Hd'; subst.
  destruct (decimal_char_more d H1) as (Hi & Hn & _).
  assert (E1 : str_eqb (map c_tolower (d :: ds)) (py "inf") = false)
    by (simpl; now rewrite Hi).
  assert (E2 : str_eqb (map c_tolower (d :: ds)) (py "infinity") = false)
    by (simpl; now rewrite Hi).
  assert (E3 : str_eqb (map c_tolower (d :: ds)) (py "nan") = false)
    by (simpl; now rewrite Hn).
  rewrite E1, E2, E3. cbn [orb].
  rewrite (span_digits_all (d :: ds) Hd). cbv iota.
  rewrite app_nil_r. cbn [exponent_part List.length Z.of_nat].
  reflexivity.
Qed.

Lemma convert_negative (p : positive) :
  convert (str_of_int (Zneg p)) =
    Ok (VFloat (float_of_decimal true (Npos p) 0)).
Proof.
  pose proof (str_of_N_decimal (Npos p)) as Hd.
  pose proof (str_of_N_nonempty (Npos p)) as Hn.
  change (str_of_int (Zneg p)) with (sign_text true ++ str_of_N (Npos p)).
  assert (Hc : Forall (fun c => float_char c = true)
                 (sign_text true ++ str_of_N (Npos p))).
  { apply Forall_app; split; [apply sign_text_chars | now apply decimal_float_char]. }
  assert (Hl : lower (sign_text true ++ str_of_N (Npos p)) =
               sign_text true ++ str_of_N (Npos p)).
  { apply lower_fixed. eapply Forall_impl; [|exact Hc]. intros c H.
    now destruct (float_char_facts c H) as (_ & _ & _ & ? & _). }
  unfold convert. rewrite Hl.
  change (str_eqb (sign_text true ++ str_of_N (Npos p)) (py "true")) with false.
  change (str_eqb (sign_text true ++ str_of_N (Npos p)) (py "false")) with false.
  rewrite (isdigit_false (sign_text true ++ str_of_N (Npos p)) "-"%char)
    by (try reflexivity; left; reflexivity).
  rewrite float_of_str_plain by (auto; discriminate).
  rewrite float_literal_int by assumption.
  now rewrite digits_val_str_of_N.
Qed.

Lemma dict_get_scalars (d : dict) (k : str) :
  k <> py "disks" -> dict_get (scalars d) k = dict_get d k.
Proof.
  intros Hk. induction d as [|[k' v] d IH]; [reflexivity|].
  unfold scalars in *. cbn [filter fst dict_get].
  destruct (str_eqb k' (py "disks")) eqn:E; cbn [negb].
  - apply str_eqb_eq in E; subst k'.
    assert (H : str_eqb (py "disks") k = false).
    { apply str_eqb_neq. congruence. }
    now rewrite H.
  - cbn [dict_get]. now rewrite IH.
Qed.

Lemma dict_get_app (d1 d2 : dict) (k : str) :
  dict_get (d1 ++ d2) k =
    match dict_get d1 k with
    | Some v => Some v
    | None => dict_get d2 k
    end.
Proof.
  induction d1 as [|[k' v] d1 IH]; simpl; auto.
  destruct (str_eqb k' k); auto.
Qed.

Lemma reread_get (items items' : dict) (k : str) :
  Forall2 reread items items' ->
  match dict_get items k with
  | Some v => exists v', convert (rendered v) = Ok v' /\
                         dict_get items' k = Some v'
  | None => dict_get items' k = None
  end.
Proof.
  induction 1 as [|[k1 v1] [k2 v2] l l' [Hf Hc] _ IH]; simpl; auto.
  cbn [fst snd] in *. subst k2.
  destruct (str_eqb k1 k); auto. exists v2; auto.
Qed.

(** X5.  A negative integer does not survive [save] followed by
    [parse]: it is written with its sign, [isdigit] rejects the text, and
    the entry comes back as the float of the same value. *)
Theorem negative_integer_rereads_as_float (w : world) (p : str)
    (config d' : dict) (ds : list str) (k : str) (z : Z) :
  writable w p = true ->
  iterate (disks_of config) = Ok ds -> Forall text_ok ds ->
  NoDup (keys config) -> Forall written_ok (scalars config) ->
  parse (world_after (save w p config)) p = Ok d' ->
  k <> py "disks" -> dict_get config k = Some (VInt z) -> (z < 0)%Z ->
  dict_get d' k = Some (VFloat (float_of_decimal true (Z.abs_N z) 0)).
Proof.
  intros Hw Hi Hd Hnd Hs Hp Hk Hg Hz.
  destruct (reparsed_shape w p config d' ds Hw Hi Hd Hnd Hs Hp)
    as (items' & Hr & ->).
  pose proof (reread_get _ _ k Hr) as H.
  rewrite dict_get_scalars, Hg in H by assumption.
  destruct H as (v' & Hc & Hg').
  rewrite dict_get_app, Hg'.
  destruct z as [|q|q]; try lia.
  cbn [rendered py_str] in Hc. rewrite convert_negative in Hc.
  now injection Hc as <-.
Qed.

Lemma negative_integer_rereads_as_float_witness :
  dict_get [(py "yearofs", VFloat (S754_finite true 5629499534213120 (-50)));
            (py "rom", VBool true); (py "disks", VList [py "a.img"])]
           (py "yearofs") =
    Some (VFloat (float_of_decimal true (Z.abs_N (-5)) 0)).
Proof.
  destruct edited_document_written as (Hd & Hn & Hs).
  apply (negative_integer_rereads_as_float empty_world (py "o.cfg")
           edited_document _ [py "a.img"] (py "yearofs") (-5)%Z
           eq_refl eq_refl Hd Hn Hs).
  - vm_compute; reflexivity.
  - discriminate.
  - reflexivity.
  - lia.
Defined.

(** ** Blank lines and line separators *)

Lemma universal_newlines_Forall (P : ascii -> Prop) (s : str) :
  P LF -> Forall P s -> Forall P (universal_newlines s).
Proof.
  intros HP. induction 1 as [|c s Hc Hs IH]; simpl; [constructor|].
  destruct (Ascii.eqb c CR).
  - destruct s as [|d s']; [repeat constructor; auto|].
    destruct (Ascii.eqb d LF); auto.
  - constructor; auto.
Qed.

Lemma strip_blank (l : str) :
  Forall (fun c => isspace c = true) l -> strip l = [].
Proof.
  intros H. unfold strip, strip_with.
  rewrite lstrip_all; [reflexivity|].
  apply forallb_forall. rewrite Forall_forall in H. exact H.
Qed.

Lemma parse_lines_blank (lines : list str) (st : dict * list str) :
  Forall (fun l => strip l = []) lines -> parse_lines st lines = Ok st.
Proof.
  induction 1 as [|l lines Hl _ IH]; [reflexivity|].
  cbn [parse_lines]. unfold parse_line. destruct st as [config disks].
  rewrite Hl. cbn [bind]. exact IH.
Qed.

(** X6.  A file that exists and holds nothing but blank characters (an
    empty file among them) parses to the document whose only entry is an
    empty disk list. *)
Theorem blank_file_has_no_entries (w : world) (p text : str) :
  files w p = Some text -> Forall (fun c => isspace c = true) text ->
  parse w p = Ok [(py "disks", VList [])].
Proof.
  intros Hf Hb. unfold parse, exists_path. rewrite Hf. cbn [negb].
  unfold parse_text. rewrite parse_lines_blank; [reflexivity|].
  pose proof (readlines_shape (universal_newlines text)) as H.
  eapply Forall_impl; [|exact H]. intros l (body & Hl & _ & HP).
  apply strip_blank.
  assert (Hbody : Forall (fun c => isspace c = true) body).
  { apply HP. now apply universal_newlines_Forall. }
  destruct Hl as [-> | ->]; auto.
  apply Forall_app; split; auto.
Qed.

Lemma blank_file_has_no_entries_witness :
  parse blank_world (py "blank.cfg") = Ok [(py "disks", VList [])].
Proof.
  apply (blank_file_has_no_entries blank_world (py "blank.cfg")
           (py "  " ++ [CR; LF; TAB; LF]) eq_refl).
  repeat constructor.
Defined.

(** ** Saving again *)

Lemma second_save_text (w : world) (dst : str) (d d1 : dict) (ds : list str) :
  writable w dst = true ->
  disks_of d = VList ds -> disks_of d1 = VList ds -> scalars d1 = scalars d ->
  outcome (save (world_after (save w dst d)) dst d1) = Ok tt /\
  files (world_after (save (world_after (save w dst d)) dst d1)) dst =
    files (world_after (save w dst d)) dst.
Proof.
  intros Hw Hd Hd1 Hs.
  assert (Hi : iterate (dict_get_default d (py "disks") (VList [])) = Ok ds)
    by (fold (disks_of d); now rewrite Hd).
  assert (Hi1 : iterate (dict_get_default d1 (py "disks") (VList [])) = Ok ds)
    by (fold (disks_of d1); now rewrite Hd1).
  destruct (save_writes w dst d ds Hw Hi) as (_ & _ & Hf & Ho & Hwr & _).
  assert (Hw1 : writable (world_after (save w dst d)) dst = true)
    by now rewrite Hwr.
  destruct (save_writes _ dst d1 ds Hw1 Hi1) as (Ho1 & _ & Hf1 & _).
  split; [exact Ho1|]. rewrite Hf1, Hf, Ho.
  unfold saved_text. now rewrite Hs.
Qed.

(** X7.  Once a parsed document has been saved, parsing the written file
    and saving the result again leaves the file as it is, character for
    character. *)
Theorem second_cycle_keeps_file (w : world) (src dst : str) (d : dict) :
  parse w src = Ok d -> writable w dst = true ->
  exists d1,
    parse (world_after (save w dst d)) dst = Ok d1 /\
    outcome (save (world_after (save w dst d)) dst d1) = Ok tt /\
    files (world_after (save (world_after (save w dst d)) dst d1)) dst =
      files (world_after (save w dst d)) dst.
Proof.
  intros Hp Hw.
  destruct (parsed_document w src d Hp) as (Hn & Hi & ds & Hd & Ht).
  destruct (reparse_document w dst d ds Hw Hd Ht Hn Hi) as (_ & d1 & Hp1 & Hd1 & Hs1).
  exists d1. split; [exact Hp1|].
  now apply (second_save_text w dst d d1 ds).
Qed.

Lemma second_cycle_keeps_file_witness :
  exists d1,
    parse (world_after (save sample_world (py "out.cfg") sample_document))
          (py "out.cfg") = Ok d1 /\
    outcome (save (world_after (save sample_world (py "out.cfg") sample_document))
                  (py "out.cfg") d1) = Ok tt /\
    files (world_after
             (save (world_after (save sample_world (py "out.cfg") sample_document))
                   (py "out.cfg") d1)) (py "out.cfg") =
      files (world_after (save sample_world (py "out.cfg") sample_document))
            (py "out.cfg").
Proof.
  apply (second_cycle_keeps_file sample_world (py "in.cfg") (py "out.cfg")
           sample_document).
  - vm_compute; reflexivity.
  - vm_compute; reflexivity.
Defined.

Lemma writing_frame (w0 w : world) (p data : str) :
  writing w0 p data w ->
  os w = os w0 /\ writable w = writable w0 /\
  forall q, q <> p -> files w q = files w0 q.
Proof. intros (_ & H1 & H2 & H3). auto. Qed.

(** X8.  [save] changes no file but its target, nor the platform or
    the permissions, and it never changes the dictionary; when the value
    under ['disks'] cannot be iterated it raises [TypeError] after the
    target was opened for writing, which leaves the target empty. *)
Theorem save_touches_only_target (w : world) (p : str) (config : dict) :
  (forall q, q <> p -> files (world_after (save w p config)) q = files w q) /\
  writable (world_after (save w p config)) = writable w /\
  os (world_after (save w p config)) = os w /\
  config_after (save w p config) = config /\
  (outcome (save w p config) = Raise TypeError ->
   files (world_after (save w p config)) p = Some []).
Proof.
  unfold save. destruct (writable w p) eqn:Hw.
  - destruct (iterate (dict_get_default config (py "disks") (VList [])))
      as [ds|e] eqn:Hi.
    + cbn [world_after outcome config_after].
      pose proof (writing_items w p config _ _
                    (writing_disks w p ds _ _ (writing_truncate w p))) as H.
      destruct (writing_frame _ _ _ _ H) as (H1 & H2 & H3).
      repeat split; auto. discriminate.
    + cbn [world_after outcome config_after].
      destruct (writing_frame _ _ _ _ (writing_truncate w p)) as (H1 & H2 & H3).
      repeat split; auto. intros _.
      unfold truncate, put_file. cbn [files]. now rewrite str_eqb_refl.
  - cbn [world_after outcome config_after]. repeat split; auto. discriminate.
Qed.

(** ** Blanks around lines *)

Lemma strip_strip (l : str) : strip (strip l) = strip l.
Proof.
  destruct (strip l) as [|c r] eqn:E; [reflexivity|]. rewrite <- E.
  assert (H : strip_with isspace l <> []) by (fold (strip l); congruence).
  destruct (strip_ends isspace l H). now apply strip_id.
Qed.

Lemma parse_line_strip (st : dict * list str) (l : str) :
  parse_line st (strip l) = parse_line st l.
Proof. unfold parse_line. destruct st. now rewrite strip_strip. Qed.

(** X9.  Blanks at either end of a line and lines made of blanks change
    nothing: reading the stripped lines, or the lines that are not blank,
    gives the same result, exceptions included. *)
Theorem blanks_around_lines_ignored (lines : list str) (st : dict * list str) :
  parse_lines st (map strip lines) = parse_lines st lines /\
  parse_lines st (filter (fun l => match strip l with
                                   | [] => false
                                   | _ => true
                                   end) lines) = parse_lines st lines.
Proof.
  revert st. induction lines as [|l lines IH]; intros st; [split; reflexivity|].
  split.
  - cbn [map parse_lines]. rewrite parse_line_strip.
    destruct (parse_line st l) as [st'|e]; [|reflexivity].
    cbn [bind]. apply IH.
  - cbn [filter]. destruct (strip l) as [|c r] eqn:E.
    + cbn [parse_lines]. unfold parse_line. destruct st as [config disks].
      rewrite E. cbn [bind]. apply IH.
    + cbn [parse_lines]. destruct (parse_line st l) as [st'|e]; [|reflexivity].
      cbn [bind]. apply IH.
Qed.

(** ** The line separator *)

Lemma translate_posix (s : str) : translate_on_write Posix s = s.
Proof.
  induction s as [|c s IH]; [reflexivity|].
  cbn [translate_on_write flat_map]. fold (translate_on_write Posix s).
  rewrite IH. destruct (Ascii.eqb c LF) eqn:E; [|reflexivity].
  apply Ascii.eqb_eq in E. now subst c.
Qed.

Lemma windows_blanked_upto (n : nat) :
  forall t, (List.length t <= n)%nat ->
  blanked (universal_newlines t)
          (universal_newlines (translate_on_write Windows t)).
Proof.
  induction n as [|n IH]; intros t Hn.
  - destruct t; [constructor | simpl in Hn; lia].
  - destruct t as [|c s]; [constructor|].
    simpl in Hn. assert (Hs : (List.length s <= n)%nat) by lia.
    cbn [translate_on_write flat_map]. fold (translate_on_write Windows s).
    destruct (Ascii.eqb c LF) eqn:El.
    + apply Ascii.eqb_eq in El; subst c.
      change (universal_newlines (LF :: s)) with (LF :: universal_newlines s).
      change (universal_newlines (linesep Windows ++ translate_on_write Windows s))
        with (LF :: universal_newlines (translate_on_write Windows s)).
      constructor. now apply IH.
    + cbn [app]. destruct (Ascii.eqb c CR) eqn:Ec.
      * apply Ascii.eqb_eq in Ec; subst c.
        destruct s as [|d s'].
        -- repeat constructor.
        -- cbn [translate_on_write flat_map].
           fold (translate_on_write Windows s').
           destruct (Ascii.eqb d LF) eqn:Ed.
           ++ apply Ascii.eqb_eq in Ed; subst d.
              change (universal_newlines (CR :: LF :: s'))
                with (LF :: universal_newlines s').
              change (universal_newlines
                        (CR :: linesep Windows ++ translate_on_write Windows s'))
                with (LF :: LF :: universal_newlines (translate_on_write Windows s')).
              apply blanked_feed. apply IH. simpl in Hs. lia.
           ++ assert (H1 : universal_newlines (CR :: d :: s') =
                           LF :: universal_newlines (d :: s')).
              { cbn [universal_newlines]. rewrite Ascii.eqb_refl, Ed. reflexivity. }
              assert (H2 : universal_newlines (CR :: [d] ++ translate_on_write Windows s') =
                           LF :: universal_newlines ([d] ++ translate_on_write Windows s')).
              { cbn [universal_newlines app]. rewrite Ascii.eqb_refl, Ed. reflexivity. }
              rewrite H1, H2. constructor.
              specialize (IH (d :: s') Hs).
              cbn [translate_on_write flat_map] in IH.
              fold (translate_on_write Windows s') in IH.
              rewrite Ed in IH. exact IH.
      * assert (H1 : universal_newlines (c :: s) = c :: universal_newlines s).
        { cbn [universal_newlines]. now rewrite Ec. }
        assert (H2 : universal_newlines (c :: translate_on_write Windows s) =
                     c :: universal_newlines (translate_on_write Windows s)).
        { cbn [universal_newlines]. now rewrite Ec. }
        rewrite H1, H2. constructor. now apply IH.
Qed.

Lemma windows_blanked (t : str) :
  blanked (universal_newlines t)
          (universal_newlines (translate_on_write Windows t)).
Proof. now apply (windows_blanked_upto (List.length t)). Qed.

Lemma added_refl (ls : list str) : blank_lines_added ls ls.
Proof. induction ls; constructor; auto. Qed.

Lemma readlines_blanked (a b : str) :
  blanked a b -> blank_lines_added (readlines a) (readlines b).
Proof.
  induction 1 as [|c a b H IH|a b H IH].
  - constructor.
  - cbn [readlines]. destruct (Ascii.eqb c LF).
    + now constructor.
    + destruct (readlines a) as [|l ls], (readlines b) as [|l' ls'];
        inversion IH; subst;
        first [apply added_blank; assumption | constructor; assumption].
  - change (readlines (LF :: a)) with ([LF] :: readlines a).
    change (readlines (LF :: LF :: b)) with ([LF] :: [LF] :: readlines b).
    now apply added_blank.
Qed.

Lemma parse_line_feed (st : dict * list str) : parse_line st [LF] = Ok st.
Proof. destruct st. reflexivity. Qed.

Lemma parse_lines_added (ls ls' : list str) :
  blank_lines_added ls ls' ->
  forall st, parse_lines st ls' = parse_lines st ls.
Proof.
  induction 1 as [|l a b H IH|l a b H IH]; intros st; [reflexivity| |];
    cbn [parse_lines]; destruct (parse_line st l) as [st'|e]; cbn [bind];
    try reflexivity; [apply IH|].
  rewrite parse_line_feed. cbn [bind]. apply IH.
Qed.

Lemma parse_text_windows (text : str) :
  parse_text (translate_on_write Windows text) = parse_text text.
Proof.
  unfold parse_text.
  now rewrite (parse_lines_added _ _ (readlines_blanked _ _ (windows_blanked text))).
Qed.

Lemma parse_text_translated (p : platform) (text : str) :
  parse_text (translate_on_write p text) = parse_text text.
Proof.
  destruct p; [now rewrite translate_posix | apply parse_text_windows].
Qed.

(** X10.  The line separator does not matter to [parse]: a file
    rewritten with CR LF for every LF parses to the same result, and the
    file [save] writes on Windows parses to the same result as the file it
    writes on a Posix system, for every dictionary. *)
Theorem line_separator_does_not_matter (w : world) (p : str) :
  (forall text,
     files w p = Some text ->
     parse (put_file w p (translate_on_write Windows text)) p = parse w p) /\
  (forall config,
     parse (world_after (save (on_platform Windows w) p config)) p =
     parse (world_after (save (on_platform Posix w) p config)) p).
Proof.
  split.
  - intros text Hf. unfold parse, exists_path. rewrite Hf.
    unfold put_file. cbn [files]. rewrite str_eqb_refl. cbn [negb].
    apply parse_text_windows.
  - intros config. unfold save. cbn [on_platform writable].
    destruct (writable w p) eqn:Hw; [|reflexivity].
    destruct (iterate (dict_get_default config (py "disks") (VList [])))
      as [ds|e] eqn:Hi.
    + cbn [world_after].
      pose proof (writing_items (on_platform Windows w) p config _ _
                    (writing_disks _ p ds _ _ (writing_truncate _ p))) as (H1 & _).
      pose proof (writing_items (on_platform Posix w) p config _ _
                    (writing_disks _ p ds _ _ (writing_truncate _ p))) as (H2 & _).
      unfold parse, exists_path. rewrite H1, H2. cbn [negb on_platform os].
      now rewrite !parse_text_translated.
    + reflexivity.
Qed.

(** ** Texts that are no float *)

Lemma span_digits_spec (s : str) :
  s = fst (span_digits s) ++ snd (span_digits s) /\
  all_decimal (fst (span_digits s)).
Proof.
  induction s as [|c s [IH1 IH2]]; simpl; [split; [reflexivity | constructor]|].
  destruct (isdecimal_char c) eqn:E.
  - destruct (span_digits s) as [a b]. cbn [fst snd] in *. split.
    + now rewrite IH1 at 1.
    + constructor; auto.
  - split; [reflexivity | constructor].
Qed.

Lemma decimal_literal_char (s : str) :
  all_decimal s -> Forall (fun c => literal_char c = true) s.
Proof.
  intros H. eapply Forall_impl; [|exact H].
  intros c Hc. unfold literal_char. now rewrite Hc.
Qed.

Lemma word_literal_chars (body word : str) :
  Forall (fun c => literal_char c = true) word ->
  (forall c, In c word -> c_tolower c = c) ->
  str_eqb (map c_tolower body) word = true ->
  Forall (fun c => literal_char c = true) body.
Proof.
  intros Hw Hfix H. apply str_eqb_eq in H. subst word.
  rewrite Forall_forall in *. intros c Hc.
  assert (Hin : In (c_tolower c) (map c_tolower body)) by now apply in_map.
  specialize (Hw _ Hin). specialize (Hfix _ Hin).
  unfold literal_char in *. rewrite Hfix in Hw.
  apply orb_true_iff in Hw as [Hw | Hw]; [|rewrite Hw; apply orb_true_r].
  assert (c_tolower c = c).
  { unfold c_tolower in *. destruct (between 65 90 c) eqn:E; auto.
    exfalso. revert Hw E. clear. each_char c; vm_compute; congruence. }
  rewrite <- H. now rewrite Hw.
Qed.

Lemma take_sign_spec (s : str) :
  exists sg, s = sg ++ snd (take_sign s) /\
             Forall (fun c => literal_char c = true) sg.
Proof.
  destruct s as [|c s]; [exists []; split; [reflexivity | constructor]|].
  unfold take_sign. destruct (Ascii.eqb c "-") eqn:E1.
  - apply Ascii.eqb_eq in E1; subst c. exists (py "-"); split; auto.
    repeat constructor.
  - destruct (Ascii.eqb c "+") eqn:E2.
    + apply Ascii.eqb_eq in E2; subst c. exists (py "+"); split; auto.
      repeat constructor.
    + exists []; split; [reflexivity | constructor].
Qed.

Lemma exponent_part_chars (s : str) (ex : Z) :
  exponent_part s = Some ex -> Forall (fun c => literal_char c = true) s.
Proof.
  destruct s as [|c s]; [constructor|]. unfold exponent_part.
  destruct (Ascii.eqb (c_tolower c) "e") eqn:E; [|discriminate].
  destruct (take_sign_spec s) as (sg & Hs & Hsg).
  destruct (take_sign s) as [neg s'']. cbn [snd] in Hs.
  destruct (span_digits_spec s'') as [H1 H2].
  destruct (span_digits s'') as [ds r]. cbn [fst snd] in *.
  destruct ds as [|d ds]; [discriminate|].
  destruct r; [|discriminate]. intros _.
  constructor.
  - unfold literal_char. apply Ascii.eqb_eq in E. rewrite E.
    apply orb_true_r.
  - rewrite Hs. apply Forall_app; split; auto.
    rewrite H1, app_nil_r. now apply decimal_literal_char.
Qed.

Lemma float_literal_chars (t : str) (x : pyfloat) :
  float_literal t = Some x -> Forall (fun c => literal_char c = true) t.
Proof.
  unfold float_literal.
  destruct (take_sign_spec t) as (sg & Ht & Hsg).
  destruct (take_sign t) as [neg body]. cbn [snd] in Ht.
  intros H. rewrite Ht. apply Forall_app; split; auto. clear Ht Hsg.
  destruct (str_eqb (map c_tolower body) (py "inf")) eqn:E1.
  { eapply word_literal_chars; [| |exact E1].
    - repeat constructor.
    - intros c Hc. simpl in Hc. intuition (subst; reflexivity). }
  destruct (str_eqb (map c_tolower body) (py "infinity")) eqn:E2.
  { eapply word_literal_chars; [| |exact E2].
    - repeat constructor.
    - intros c Hc. simpl in Hc. intuition (subst; reflexivity). }
  cbn [orb] in H.
  destruct (str_eqb (map c_tolower body) (py "nan")) eqn:E3.
  { eapply word_literal_chars; [| |exact E3].
    - repeat constructor.
    - intros c Hc. simpl in Hc. intuition (subst; reflexivity). }
  destruct (span_digits_spec body) as [Hb Hip].
  destruct (span_digits body) as [ip r1]. cbn [fst snd] in *.
  rewrite Hb. apply Forall_app; split; [now apply decimal_literal_char|].
  destruct r1 as [|c t'].
  - constructor.
  - destruct (Ascii.eqb c ".") eqn:Ec.
    + apply Ascii.eqb_eq in Ec; subst c.
      destruct (span_digits_spec t') as [Ht' Hfp].
      destruct (span_digits t') as [fp r2]. cbn [fst snd] in *.
      constructor; [reflexivity|]. rewrite Ht'.
      apply Forall_app; split; [now apply decimal_literal_char|].
      destruct (ip ++ fp); [discriminate|].
      destruct (exponent_part r2) as [ex|] eqn:Ee; [|discriminate].
      eapply exponent_part_chars; eauto.
    + destruct (ip ++ []); [discriminate|].
      destruct (exponent_part (c :: t')) as [ex|] eqn:Ee; [|discriminate].
      eapply exponent_part_chars; eauto.
Qed.

Lemma drop_underscores_keeps (s : str) :
  forall prev s' c, drop_underscores prev s = Some s' ->
  In c s -> Ascii.eqb c "_" = false -> In c s'.
Proof.
  induction s as [|d s IH]; intros prev s' c H Hin Hc; [destruct Hin|].
  cbn [drop_underscores] in H.
  destruct (Ascii.eqb d "_") eqn:Ed.
  - destruct (isdecimal_char prev); [|discriminate].
    destruct Hin as [-> | Hin]; [congruence|]. eapply IH; eauto.
  - destruct (Ascii.eqb prev "_" && negb (isdecimal_char d)); [discriminate|].
    destruct (drop_underscores d s) as [r|] eqn:Er; [|discriminate].
    injection H as <-. destruct Hin as [-> | Hin]; [left; reflexivity|].
    right. eapply IH; eauto.
Qed.

Lemma strip_keeps (sp : ascii -> bool) (s : str) (c : ascii) :
  In c s -> sp c = false -> In c (strip_with sp s).
Proof.
  intros Hin Hc. unfold strip_with.
  destruct (lstrip_split sp s) as (z & Hs & Hz).
  destruct (rstrip_split sp (lstrip_with sp s)) as (z' & Hs' & Hz').
  rewrite forallb_forall in Hz, Hz'.
  rewrite Hs in Hin. apply in_app_or in Hin as [Hin | Hin].
  { specialize (Hz _ Hin). congruence. }
  rewrite Hs' in Hin. apply in_app_or in Hin as [Hin | Hin]; auto.
  specialize (Hz' _ Hin). congruence.
Qed.

Lemma float_of_str_foreign (s : str) (c : ascii) :
  In c s -> to_ascii_char c = c -> Ascii.eqb c "_" = false ->
  c_isspace c = false -> literal_char c = false ->
  float_of_str s = None.
Proof.
  intros Hin Ha Hu Hsp Hl. unfold float_of_str.
  destruct (drop_underscores zero (map to_ascii_char s)) as [s'|] eqn:E; auto.
  assert (H1 : In c s').
  { eapply drop_underscores_keeps; eauto.
    rewrite <- Ha. now apply in_map. }
  assert (H2 : In c (strip_with c_isspace s'))
    by now apply strip_keeps.
  destruct (strip_with c_isspace s') as [|c0 t] eqn:Et; auto.
  destruct (float_literal (c0 :: t)) as [x|] eqn:Ef; auto.
  apply float_literal_chars in Ef. rewrite Forall_forall in Ef.
  specialize (Ef _ H2). congruence.
Qed.

Lemma float_of_str_slash (s : str) : In "/"%char s -> float_of_str s = None.
Proof.
  intros Hin. now apply (float_of_str_foreign s "/"%char).
Qed.

Lemma convert_with_slash (s : str) :
  In "/"%char s -> convert s = Ok (VStr s).
Proof.
  intros Hin. unfold convert.
  assert (Hl : In "/"%char (lower s)).
  { change "/"%char with (lower_char "/"). now apply in_map. }
  destruct (str_eqb (lower s) (py "true")) eqn:E1.
  { apply str_eqb_eq in E1. rewrite E1 in Hl. simpl in Hl.
    intuition discriminate. }
  destruct (str_eqb (lower s) (py "false")) eqn:E2.
  { apply str_eqb_eq in E2. rewrite E2 in Hl. simpl in Hl.
    intuition discriminate. }
  rewrite (isdigit_false s "/"%char Hin eq_refl).
  now rewrite float_of_str_slash.
Qed.

(** ** The graphics tab *)

Lemma split_on_plain (sep : ascii) (s : str) :
  Forall (fun c => c <> sep) s -> split_on sep s = [s].
Proof.
  induction 1 as [|c s Hc _ IH]; [reflexivity|].
  cbn [split_on]. apply Ascii.eqb_neq in Hc. now rewrite Hc, IH.
Qed.

Lemma split_on_app (sep : ascii) (a b : str) :
  Forall (fun c => c <> sep) a ->
  split_on sep (a ++ sep :: b) = a :: split_on sep b.
Proof.
  induction 1 as [|c a Hc _ IH]; cbn [app split_on].
  - now rewrite Ascii.eqb_refl.
  - apply Ascii.eqb_neq in Hc. now rewrite Hc, IH.
Qed.

Lemma str_of_int_no_slash (z : Z) : Forall (fun c => c <> "/"%char) (str_of_int z).
Proof.
  assert (H : forall n, Forall (fun c => c <> "/"%char) (str_of_N n)).
  { intros n. eapply Forall_impl; [|apply str_of_N_decimal].
    intros c Hc ->. discriminate Hc. }
  destruct z; cbn [str_of_int]; auto. constructor; [discriminate | auto].
Qed.

Lemma graphics_saved (emu : emulator_type) (self : GraphicsTab.widgets)
    (config config' : dict) :
  GraphicsTab.save_config emu self config = Ok config' ->
  dict_get config' (py "screen") =
    Some (VStr (GraphicsTab.screen_mode self ++ py "/" ++
                str_of_int (GraphicsTab.screen_width self) ++ py "/" ++
                str_of_int (GraphicsTab.screen_height self))).
Proof.
  unfold GraphicsTab.save_config.
  match goal with
  | |- context [bind ?r _] => destruct r as [depth|e]; [|discriminate]
  end.
  cbn [bind]. intros H; injection H as <-.
  destruct emu;
    repeat first [ rewrite dict_get_set_same
                 | rewrite dict_get_set_other by other_key ];
    reflexivity.
Qed.

(** X11.  The screen setting: the graphics tab stores mode, width and
    height as one text, mode/width/height; when the mode holds no slash,
    the loading code splits that text back into the same mode, width and
    height, and the text is one that [parse] keeps a string. *)
Theorem screen_setting_round_trip (emu : emulator_type)
    (self : GraphicsTab.widgets) (config config' : dict) :
  Forall (fun c => c <> "/"%char) (GraphicsTab.screen_mode self) ->
  GraphicsTab.save_config emu self config = Ok config' ->
  GraphicsTab.load_screen config' =
    Ok (Some (GraphicsTab.screen_mode self, GraphicsTab.screen_width self,
              GraphicsTab.screen_height self)) /\
  exists text, dict_get config' (py "screen") = Some (VStr text) /\
               convert text = Ok (VStr text).
Proof.
  intros Hm Hs. apply graphics_saved in Hs. split.
  - unfold GraphicsTab.load_screen, dict_get_default. rewrite Hs.
    cbn [py_str].
    change (py "/" ++ str_of_int (GraphicsTab.screen_width self) ++ py "/" ++
            str_of_int (GraphicsTab.screen_height self))
      with ("/"%char :: str_of_int (GraphicsTab.screen_width self) ++
            "/"%char :: str_of_int (GraphicsTab.screen_height self)).
    rewrite split_on_app by assumption.
    rewrite split_on_app by apply str_of_int_no_slash.
    rewrite split_on_plain by apply str_of_int_no_slash.
    cbn [List.length Nat.leb nth]. unfold int_of_str.
    rewrite !py_int_str_of_int. reflexivity.
  - eexists; split; [exact Hs|]. apply convert_with_slash.
    apply in_or_app; right. left; reflexivity.
Qed.

(** ** The dictionary of an emulator tab *)

Lemma text_ok_int (z : Z) : text_ok (str_of_int z).
Proof.
  assert (H : forall n, text_ok (str_of_N n)).
  { intros n. now destruct (decimal_text (str_of_N n) (str_of_N_decimal n)
                              (str_of_N_nonempty n)). }
  destruct z as [|p|p]; cbn [str_of_int]; auto.
  destruct (H (Npos p)) as [H1 [H2 | (r & c & E & Hc)]].
  - now destruct (str_of_N_nonempty (Npos p)).
  - split.
    + constructor; [split; discriminate | exact H1].
    + right. exists ("-"%char :: r), c. rewrite E. auto.
Qed.

Lemma stored_entry_rereads (kv : str * pyval) :
  stored_entry kv -> written_ok kv /\ reread kv (reread_entry kv).
Proof.
  destruct kv as [k v]. intros [Hk Hv]. cbn [fst snd] in *.
  destruct (key_okb_ok k Hk) as [Hk1 Hk2].
  assert (Hgoal : text_ok (rendered v) /\
                  convert (rendered v) = Ok (reread_value v)).
  { destruct v as [b|z|x|s|l]; cbn [rendered py_str reread_value].
    - destruct b; split; try reflexivity; apply text_okb_ok; reflexivity.
    - split; [apply text_ok_int|].
      destruct z as [|q|q].
      + reflexivity.
      + change (str_of_int (Zpos q)) with (str_of_N (Npos q)).
        apply convert_str_of_N.
      + apply convert_negative.
    - split; [apply str_of_float_text | now apply convert_float_text].
    - exact Hv.
    - destruct Hv. }
  destruct Hgoal as [H1 H2]. split.
  - split; [exact Hk1|]. split; auto.
  - split; [reflexivity | exact H2].
Qed.

Lemma stored_entries_reread (items : dict) :
  Forall stored_entry items ->
  Forall written_ok items /\ Forall2 reread items (map reread_entry items).
Proof.
  induction 1 as [|kv items H _ [IH1 IH2]]; [split; constructor|].
  destruct (stored_entry_rereads kv H). split; constructor; auto.
Qed.

Lemma stored_document_rereads (w : world) (p : str) (config : dict)
    (ds : list str) :
  writable w p = true ->
  disks_of config = VList ds -> Forall text_ok ds ->
  NoDup (keys config) -> Forall stored_entry (scalars config) ->
  parse (world_after (save w p config)) p =
    Ok (map reread_entry (scalars config) ++ [(py "disks", VList ds)]).
Proof.
  intros Hw Hd Ht Hn Hs.
  destruct (stored_entries_reread _ Hs) as [H1 H2].
  apply reparse_written; auto. now rewrite Hd.
Qed.

Lemma tab_keys (emu : emulator_type) (self : EmulatorTab.widgets)
    (config : dict) :
  EmulatorTab.save_config emu self = Ok config ->
  keys config = keys_written emu /\
  disks_of config = VList (DrivesTab.disk_list (EmulatorTab.drives_tab self)).
Proof.
  run_tabs. split_depth self;
    destruct emu; run_dict; intros H; injection H as <-; split; reflexivity.
Qed.

Lemma distinct_NoDup (l : list str) : distinct l = true -> NoDup l.
Proof.
  induction l as [|k l IH]; cbn [distinct]; intros H; constructor.
  - apply andb_true_iff in H as [H _]. apply negb_true_iff in H.
    intros Hin. assert (E : existsb (str_eqb k) l = true).
    { apply existsb_exists. exists k. split; auto. apply str_eqb_refl. }
    congruence.
  - apply IH. now apply andb_true_iff in H as [_ H].
Qed.

Lemma screen_plain (mode : str) (w h : Z) :
  no_eol mode ->
  plain_text (mode ++ py "/" ++ str_of_int w ++ py "/" ++ str_of_int h).
Proof.
  intros Hm. split.
  - destruct (text_ok_int w) as [Hw _]. destruct (text_ok_int h) as [Hh Hl].
    split.
    + repeat (apply Forall_app; split); auto;
        repeat constructor; discriminate.
    + right. destruct Hl as [E | (r & c & E & Hc)].
      * exfalso. revert E. clear. destruct h as [|q|q]; cbn [str_of_int];
          try discriminate; apply str_of_N_nonempty.
      * exists (mode ++ py "/" ++ str_of_int w ++ py "/" ++ r), c.
        rewrite E. split; auto. now rewrite <- !app_assoc.
  - apply convert_with_slash. apply in_or_app; right. left; reflexivity.
Qed.

Lemma tab_entries (emu : emulator_type) (self : EmulatorTab.widgets)
    (config : dict) :
  EmulatorTab.save_config emu self = Ok config -> storable self ->
  Forall stored_entry (scalars config).
Proof.
  intros Hs (H1 & H2 & H3 & H4 & H5 & H6 & H7 & H8 & H9 & H10 & H11 & H12).
  pose proof (screen_plain _ (GraphicsTab.screen_width (EmulatorTab.graphics_tab self))
                (GraphicsTab.screen_height (EmulatorTab.graphics_tab self)) H4) as Hscreen.
  revert Hs. run_tabs. split_depth self;
    destruct emu; cbn [bind]; intros H; injection H as <-;
    cbv [dict_set str_eqb py list_ascii_of_string Ascii.eqb Bool.eqb andb
         scalars filter negb fst];
    repeat (apply Forall_cons;
            [split; [vm_compute; reflexivity
                    | cbn [snd]; first [exact I | assumption]]|]);
    apply Forall_nil.
Qed.

Lemma tab_saves (emu : emulator_type) (self : EmulatorTab.widgets) :
  In (GraphicsTab.color_depth (EmulatorTab.graphics_tab self))
     GraphicsTab.color_depth_items ->
  exists config, EmulatorTab.save_config emu self = Ok config.
Proof.
  intros Hin. unfold EmulatorTab.save_config, GraphicsTab.save_config.
  unfold GraphicsTab.color_depth_items in Hin. cbn [In] in Hin.
  destruct Hin as [<- | [<- | [<- | [<- | [<- | []]]]]];
    cbn [bind]; eexists; reflexivity.
Qed.

Lemma save_outcome_ok (w : world) (p : str) (config : dict) (ds : list str) :
  writable w p = true -> disks_of config = VList ds ->
  outcome (save w p config) = Ok tt.
Proof.
  intros Hw Hd.
  assert (Hi : iterate (dict_get_default config (py "disks") (VList [])) = Ok ds)
    by (fold (disks_of config); now rewrite Hd).
  now destruct (save_writes w p config ds Hw Hi).
Qed.

(** X12.  The dictionary an emulator tab hands to [save]: when the
    colour depth box shows one of its items, [save_config] returns a
    dictionary that holds exactly the keys of that emulator, in a fixed
    order that starts with ['disks'], whatever was loaded before; the
    value under ['disks'] is the list of disks of the tab, so [save]
    succeeds on every writable path. *)
Theorem tab_dictionary_shape (emu : emulator_type)
    (self : EmulatorTab.widgets) :
  In (GraphicsTab.color_depth (EmulatorTab.graphics_tab self))
     GraphicsTab.color_depth_items ->
  exists config,
    EmulatorTab.save_config emu self = Ok config /\
    keys config = keys_written emu /\
    disks_of config = VList (DrivesTab.disk_list (EmulatorTab.drives_tab self)) /\
    forall w p, writable w p = true -> outcome (save w p config) = Ok tt.
Proof.
  intros Hin. destruct (tab_saves emu self Hin) as [config Hs].
  exists config. destruct (tab_keys emu self config Hs) as [Hk Hd].
  repeat split; auto. intros w p Hw. eapply save_outcome_ok; eauto.
Qed.

Lemma keys_written_distinct (emu : emulator_type) : NoDup (keys_written emu).
Proof. apply distinct_NoDup. destruct emu; vm_compute; reflexivity. Qed.

(** X13.  What is read back after the dictionary of a tab was saved,
    when the texts of the tab are plain (no line break, no blank at the
    end, not the spelling of a boolean or a number): [parse] returns the
    same entries in the same order, the disk list moved to the end, and
    every negative integer turned into a float. *)
Theorem saved_tab_rereads (emu : emulator_type) (self : EmulatorTab.widgets)
    (config : dict) (w : world) (p : str) :
  EmulatorTab.save_config emu self = Ok config -> storable self ->
  writable w p = true ->
  parse (world_after (save w p config)) p =
    Ok (map reread_entry (scalars config) ++
        [(py "disks", VList (DrivesTab.disk_list (EmulatorTab.drives_tab self)))]).
Proof.
  intros Hs Hst Hw. destruct (tab_keys emu self config Hs) as [Hk Hd].
  apply stored_document_rereads; auto.
  - apply Hst.
  - rewrite Hk. apply keys_written_distinct.
  - eapply tab_entries; eauto.
Qed.

Lemma reread_nonnegative (items : dict) :
  Forall (fun kv => forall z, snd kv = VInt z -> (0 <= z)%Z) items ->
  map reread_entry items = items.
Proof.
  induction 1 as [|[k v] items H _ IH]; [reflexivity|].
  cbn [map]. rewrite IH. f_equal. unfold reread_entry. cbn [fst snd] in *.
  f_equal. destruct v as [b|z|x|s|l]; try reflexivity.
  destruct z as [|q|q]; try reflexivity. specialize (H _ eq_refl). lia.
Qed.

Lemma dict_get_scalars_disks (d : dict) : dict_get (scalars d) (py "disks") = None.
Proof.
  induction d as [|[k v] d IH]; [reflexivity|].
  unfold scalars in *. cbn [filter fst].
  destruct (str_eqb k (py "disks")) eqn:E; cbn [negb]; auto.
  cbn [dict_get]. now rewrite E.
Qed.

Lemma reordered_get (config : dict) (ds : list str) (k : str) :
  disks_of config = VList ds -> In (py "disks") (keys config) ->
  dict_get (scalars config ++ [(py "disks", VList ds)]) k = dict_get config k.
Proof.
  intros Hd Hin. rewrite dict_get_app.
  destruct (str_eqb (py "disks") k) eqn:E.
  - apply str_eqb_eq in E; subst k. rewrite dict_get_scalars_disks.
    cbn [dict_get]. rewrite str_eqb_refl.
    unfold disks_of, dict_get_default in Hd.
    destruct (dict_get config (py "disks")) as [v|] eqn:Eg; [congruence|].
    exfalso. clear Hd. induction config as [|[k v] config IH]; [destruct Hin|].
    cbn [dict_get] in Eg. destruct (str_eqb k (py "disks")) eqn:Ek; [discriminate|].
    destruct Hin as [Hin | Hin]; auto. cbn [fst] in Hin. subst k.
    now rewrite str_eqb_refl in Ek.
  - assert (Hk : k <> py "disks").
    { intros ->. now rewrite str_eqb_refl in E. }
    rewrite dict_get_scalars by assumption.
    destruct (dict_get config k); auto. cbn [dict_get]. now rewrite E.
Qed.

Lemma tab_reloaded (emu : emulator_type) (self : EmulatorTab.widgets)
    (config : dict) (w : world) (p : str) :
  EmulatorTab.save_config emu self = Ok config -> storable self ->
  Forall (fun kv => forall z, snd kv = VInt z -> (0 <= z)%Z) config ->
  writable w p = true ->
  exists d',
    parse (world_after (save w p config)) p = Ok d' /\
    forall k, dict_get d' k = dict_get config k.
Proof.
  intros Hs Hst Hz Hw.
  exists (map reread_entry (scalars config) ++
          [(py "disks", VList (DrivesTab.disk_list (EmulatorTab.drives_tab self)))]).
  destruct (tab_keys emu self config Hs) as [Hk Hd]. split.
  - apply stored_document_rereads; auto.
    + apply Hst.
    + rewrite Hk. apply keys_written_distinct.
    + eapply tab_entries; eauto.
  - intros k.
    rewrite reread_nonnegative.
    + apply reordered_get; auto. rewrite Hk. destruct emu; left; reflexivity.
    + unfold scalars. apply Forall_forall. intros kv Hin.
      apply filter_In in Hin as [Hin _]. rewrite Forall_forall in Hz.
      now apply Hz.
Qed.

(** ** Save All and Launch *)

Lemma save_unwritable (w : world) (p : str) (config : dict) :
  writable w p = false ->
  outcome (save w p config) = Raise OSError /\ world_after (save w p config) = w.
Proof. intros H. unfold save. rewrite H. split; reflexivity. Qed.

Lemma tab_file (emu : emulator_type) (self : EmulatorTab.widgets)
    (config : dict) (w : world) (p : str) :
  EmulatorTab.save_config emu self = Ok config -> writable w p = true ->
  outcome (save w p config) = Ok tt /\
  writing w p (saved_text (DrivesTab.disk_list (EmulatorTab.drives_tab self)) config)
          (world_after (save w p config)).
Proof.
  intros Hs Hw. destruct (tab_keys emu self config Hs) as [_ Hd].
  assert (Hi : iterate (dict_get_default config (py "disks") (VList [])) =
               Ok (DrivesTab.disk_list (EmulatorTab.drives_tab self)))
    by (fold (disks_of config); now rewrite Hd).
  destruct (save_writes w p config _ Hw Hi) as (Ho & _ & Hwr). auto.
Qed.

(** X14.  Save All is not atomic and stops at the first failure: when
    the Basilisk file cannot be written nothing is written at all, the
    Sheepshaver file included; when only the Sheepshaver file cannot be
    written, the error is reported after the Basilisk file was already
    rewritten. *)
Theorem save_all_stops_at_first_failure (w : world)
    (self : PrefsEditor.window) (c1 c2 : dict) :
  let bcfg := PrefsEditor.basilisk_cfg (PrefsEditor.stored self) in
  let scfg := PrefsEditor.sheepshaver_cfg (PrefsEditor.stored self) in
  bcfg <> [] -> scfg <> [] -> scfg <> bcfg ->
  EmulatorTab.save_config basilisk (PrefsEditor.basilisk_tab self) = Ok c1 ->
  EmulatorTab.save_config sheepshaver (PrefsEditor.sheepshaver_tab self) = Ok c2 ->
  (writable w bcfg = false ->
   PrefsEditor.save_all_configs w self = (PrefsEditor.Critical OSError, w)) /\
  (writable w bcfg = true -> writable w scfg = false ->
   exists w',
     PrefsEditor.save_all_configs w self = (PrefsEditor.Critical OSError, w') /\
     files w' bcfg =
       Some (translate_on_write (os w)
               (saved_text (DrivesTab.disk_list
                              (EmulatorTab.drives_tab (PrefsEditor.basilisk_tab self)))
                           c1)) /\
     files w' scfg = files w scfg).
Proof.
  intros bcfg scfg Hb Hs Hne H1 H2. unfold PrefsEditor.save_all_configs.
  fold bcfg scfg. rewrite H1, H2.
  destruct bcfg as [|b0 b1] eqn:Eb; [congruence|]. rewrite <- Eb in *.
  destruct scfg as [|s0 s1] eqn:Es; [congruence|]. rewrite <- Es in *.
  split.
  - intros Hw. destruct (save_unwritable w bcfg c1 Hw) as [-> ->]. reflexivity.
  - intros Hw1 Hw2.
    destruct (tab_file basilisk _ c1 w bcfg H1 Hw1) as [Ho (Hf & Hos & Hwr & Hfr)].
    rewrite Ho.
    assert (Hw2' : writable (world_after (save w bcfg c1)) scfg = false)
      by now rewrite Hwr.
    destruct (save_unwritable _ scfg c2 Hw2') as [-> ->].
    eexists. split; [reflexivity|]. split; auto.
Qed.

(** X15.  What a successful Save All leaves: with no path configured it
    reports success and writes nothing; with two writable paths it
    reports success, the Sheepshaver file holds the text of the
    Sheepshaver tab, the Basilisk file that of the Basilisk tab unless
    both paths are the same file, and no other file is changed. *)
Theorem save_all_writes_each_file (w : world) (self : PrefsEditor.window)
    (c1 c2 : dict) :
  let bcfg := PrefsEditor.basilisk_cfg (PrefsEditor.stored self) in
  let scfg := PrefsEditor.sheepshaver_cfg (PrefsEditor.stored self) in
  let saved := PrefsEditor.Information (py "Configurations saved successfully!") in
  let text1 :=
    saved_text (DrivesTab.disk_list
                  (EmulatorTab.drives_tab (PrefsEditor.basilisk_tab self))) c1 in
  let text2 :=
    saved_text (DrivesTab.disk_list
                  (EmulatorTab.drives_tab (PrefsEditor.sheepshaver_tab self))) c2 in
  EmulatorTab.save_config basilisk (PrefsEditor.basilisk_tab self) = Ok c1 ->
  EmulatorTab.save_config sheepshaver (PrefsEditor.sheepshaver_tab self) = Ok c2 ->
  (bcfg = [] -> scfg = [] ->
   PrefsEditor.save_all_configs w self = (saved, w)) /\
  (bcfg <> [] -> scfg <> [] ->
   writable w bcfg = true -> writable w scfg = true ->
   exists w',
     PrefsEditor.save_all_configs w self = (saved, w') /\
     files w' scfg = Some (translate_on_write (os w) text2) /\
     (scfg <> bcfg -> files w' bcfg = Some (translate_on_write (os w) text1)) /\
     (forall q, q <> bcfg -> q <> scfg -> files w' q = files w q)).
Proof.
  intros bcfg scfg saved text1 text2 H1 H2.
  unfold PrefsEditor.save_all_configs. fold bcfg scfg. rewrite H1, H2. split.
  - intros -> ->. reflexivity.
  - intros Hb Hs Hw1 Hw2.
    destruct bcfg as [|b0 b1] eqn:Eb; [congruence|]. rewrite <- Eb in *.
    destruct scfg as [|s0 s1] eqn:Es; [congruence|]. rewrite <- Es in *.
    destruct (tab_file basilisk _ c1 w bcfg H1 Hw1) as [Ho (Hf & Hos & Hwr & Hfr)].
    rewrite Ho.
    assert (Hw2' : writable (world_after (save w bcfg c1)) scfg = true)
      by now rewrite Hwr.
    destruct (tab_file sheepshaver _ c2 _ scfg H2 Hw2')
      as [Ho' (Hf' & Hos' & Hwr' & Hfr')].
    rewrite Ho'. eexists. split; [reflexivity|]. split; [|split].
    + rewrite Hf', Hos. reflexivity.
    + intros Hne. rewrite Hfr' by congruence. exact Hf.
    + intros q Hq1 Hq2. rewrite Hfr', Hfr; auto.
Qed.

Lemma launch_unfold (w : world) (self : PrefsEditor.window)
    (emu : emulator_type) :
  PrefsEditor.launch_emulator w self emu =
    match exe_of self emu with
    | [] =>
        (PrefsEditor.Shown
           (PrefsEditor.Warning (py "Please set " ++ PrefsEditor.emulator_name emu ++
                                 py " executable path in Settings.")), w)
    | _ =>
        if negb (exists_path w (exe_of self emu)) then
          (PrefsEditor.Shown
             (PrefsEditor.Warning (py "Executable not found: " ++ exe_of self emu)), w)
        else
          match EmulatorTab.save_config emu (tab_of self emu) with
          | Raise e => (PrefsEditor.Shown (PrefsEditor.Critical e), w)
          | Ok config =>
              match cfg_of self emu with
              | [] => (PrefsEditor.Popen [exe_of self emu], w)
              | _ =>
                  match outcome (save w (cfg_of self emu) config) with
                  | Raise e =>
                      (PrefsEditor.Shown (PrefsEditor.Critical e),
                       world_after (save w (cfg_of self emu) config))
                  | Ok _ =>
                      (PrefsEditor.Popen [exe_of self emu; py "--config";
                                          cfg_of self emu],
                       world_after (save w (cfg_of self emu) config))
                  end
              end
          end
    end.
Proof. destruct emu; reflexivity. Qed.

(** X16.  Whenever [launch_emulator] reaches [subprocess.Popen], the
    executable is set and exists, and the arguments are the executable
    alone when no configuration path is set, else the executable,
    [--config] and the path, and at that moment the file at the path
    holds the text of the current state of the tab. *)
Theorem launch_starts_on_saved_file (w w' : world) (self : PrefsEditor.window)
    (emu : emulator_type) (args : list str) :
  PrefsEditor.launch_emulator w self emu = (PrefsEditor.Popen args, w') ->
  exe_of self emu <> [] /\ exists_path w (exe_of self emu) = true /\
  exists config,
    EmulatorTab.save_config emu (tab_of self emu) = Ok config /\
    ((cfg_of self emu = [] /\ args = [exe_of self emu] /\ w' = w) \/
     (cfg_of self emu <> [] /\
      args = [exe_of self emu; py "--config"; cfg_of self emu] /\
      writable w (cfg_of self emu) = true /\
      files w' (cfg_of self emu) =
        Some (translate_on_write (os w)
                (saved_text (DrivesTab.disk_list
                               (EmulatorTab.drives_tab (tab_of self emu)))
                            config)))).
Proof.
  rewrite launch_unfold.
  destruct (exe_of self emu) as [|e0 e1] eqn:Ee; [discriminate|].
  rewrite <- Ee in *.
  destruct (exists_path w (exe_of self emu)) eqn:Ex; cbn [negb]; [|discriminate].
  destruct (EmulatorTab.save_config emu (tab_of self emu)) as [config|e] eqn:Es;
    [|discriminate].
  intros H. split; [congruence|]. split; [reflexivity|].
  exists config. split; [reflexivity|].
  destruct (cfg_of self emu) as [|c0 c1] eqn:Ec.
  - left. injection H as <- <-. auto.
  - right. rewrite <- Ec in *.
    destruct (writable w (cfg_of self emu)) eqn:Hw.
    + destruct (tab_file emu _ config w _ Es Hw) as [Ho (Hf & _)].
      rewrite Ho in H. injection H as <- <-.
      split; [congruence|]. auto.
    + destruct (save_unwritable w (cfg_of self emu) config Hw) as [Ho _].
      rewrite Ho in H. discriminate H.
Qed.

(** X17.  When the emulator is not started: with no executable set, or
    one that does not exist, a warning is shown and nothing is saved; with
    a configuration path that cannot be written the error is shown and
    [Popen] is not reached. *)
Theorem launch_refused (w : world) (self : PrefsEditor.window)
    (emu : emulator_type) :
  (exe_of self emu = [] \/ exists_path w (exe_of self emu) = false ->
   exists text,
     PrefsEditor.launch_emulator w self emu =
       (PrefsEditor.Shown (PrefsEditor.Warning text), w)) /\
  (exe_of self emu <> [] -> exists_path w (exe_of self emu) = true ->
   cfg_of self emu <> [] -> writable w (cfg_of self emu) = false ->
   In (GraphicsTab.color_depth (EmulatorTab.graphics_tab (tab_of self emu)))
      GraphicsTab.color_depth_items ->
   PrefsEditor.launch_emulator w self emu =
     (PrefsEditor.Shown (PrefsEditor.Critical OSError), w)).
Proof.
  rewrite launch_unfold. split.
  - intros [H | H].
    + rewrite H. eexists; reflexivity.
    + destruct (exe_of self emu); [eexists; reflexivity|].
      rewrite H. eexists; reflexivity.
  - intros He Hx Hc Hw Hd.
    destruct (exe_of self emu) as [|e0 e1] eqn:Ee; [congruence|].
    rewrite <- Ee in *. rewrite Hx. cbn [negb].
    destruct (tab_saves emu _ Hd) as [config ->].
    destruct (cfg_of self emu) as [|c0 c1] eqn:Ec; [congruence|].
    rewrite <- Ec in *.
    now destruct (save_unwritable w (cfg_of self emu) config Hw) as [-> ->].
Qed.

(** ** The disk list *)

Lemma take_middle (l1 l2 : list str) (y : str) :
  DrivesTab.takeItem (l1 ++ y :: l2) (Z.of_nat (List.length l1)) =
    (Some y, l1 ++ l2).
Proof.
  unfold DrivesTab.takeItem.
  assert (H : (Z.of_nat (List.length l1) <? 0)%Z = false)
    by (apply Z.ltb_ge; lia).
  rewrite H, Nat2Z.id.
  rewrite nth_error_app2, Nat.sub_diag by lia. cbn [nth_error].
  rewrite firstn_app, Nat.sub_diag, firstn_all. cbn [firstn].
  rewrite app_nil_r.
  replace (S (List.length l1)) with (List.length (l1 ++ [y]))
    by (rewrite length_app; simpl; lia).
  change (y :: l2) with ([y] ++ l2). rewrite app_assoc, skipn_app.
  rewrite skipn_all, Nat.sub_diag. reflexivity.
Qed.

Lemma insert_middle (l1 l2 : list str) (y : str) :
  DrivesTab.insertItem (l1 ++ l2) (Z.of_nat (List.length l1)) (Some y) =
    l1 ++ y :: l2.
Proof.
  unfold DrivesTab.insertItem. rewrite Nat2Z.id.
  rewrite firstn_app, Nat.sub_diag, firstn_all. cbn [firstn].
  rewrite app_nil_r, skipn_app, skipn_all, Nat.sub_diag. reflexivity.
Qed.

(** X18.  The buttons of the disk list: Up exchanges the selected disk
    with the one above it and Down with the one below it, the selection
    following the disk and every other disk staying in place; Remove
    deletes the selected disk only; Up on the first row, Down on the last
    row or on an empty list, and Remove without a selection leave the list
    as it is. *)
Theorem disk_list_buttons (a b : list str) (x y : str) :
  DrivesTab.move_up (a ++ x :: y :: b) (Z.of_nat (List.length a) + 1) =
    (a ++ y :: x :: b, Z.of_nat (List.length a)) /\
  DrivesTab.move_down (a ++ x :: y :: b) (Z.of_nat (List.length a)) =
    (a ++ y :: x :: b, (Z.of_nat (List.length a) + 1)%Z) /\
  DrivesTab.remove_disk (a ++ x :: b) (Z.of_nat (List.length a)) = a ++ b /\
  (forall items row, (row <= 0)%Z -> DrivesTab.move_up items row = (items, row)) /\
  (forall items row, (Z.of_nat (List.length items) - 1 <= row)%Z ->
                     DrivesTab.move_down items row = (items, row)) /\
  (forall items row, (row < 0)%Z -> DrivesTab.remove_disk items row = items).
Proof.
  split; [|split; [|split; [|split; [|split]]]].
  - unfold DrivesTab.move_up.
    assert (H : (0 <? Z.of_nat (List.length a) + 1)%Z = true)
      by (apply Z.ltb_lt; lia).
    rewrite H.
    replace (Z.of_nat (List.length a) + 1)%Z
      with (Z.of_nat (List.length (a ++ [x])))
      by (rewrite length_app; simpl; lia).
    change (x :: y :: b) with ([x] ++ y :: b). rewrite app_assoc, take_middle.
    rewrite <- app_assoc. cbn [app].
    replace (Z.of_nat (List.length (a ++ [x])) - 1)%Z
      with (Z.of_nat (List.length a))
      by (rewrite length_app; simpl; lia).
    now rewrite insert_middle.
  - unfold DrivesTab.move_down.
    assert (H : (Z.of_nat (List.length a) <?
                 Z.of_nat (List.length (a ++ x :: y :: b)) - 1)%Z = true)
      by (apply Z.ltb_lt; rewrite length_app; simpl; lia).
    rewrite H, take_middle.
    replace (Z.of_nat (List.length a) + 1)%Z
      with (Z.of_nat (List.length (a ++ [y])))
      by (rewrite length_app; simpl; lia).
    change (y :: b) with ([y] ++ b). rewrite app_assoc, insert_middle.
    now rewrite <- app_assoc.
  - unfold DrivesTab.remove_disk.
    assert (H : (0 <=? Z.of_nat (List.length a))%Z = true)
      by (apply Z.leb_le; lia).
    now rewrite H, take_middle.
  - intros items row H. unfold DrivesTab.move_up.
    assert (E : (0 <? row)%Z = false) by (apply Z.ltb_ge; lia).
    now rewrite E.
  - intros items row H. unfold DrivesTab.move_down.
    assert (E : (row <? Z.of_nat (List.length items) - 1)%Z = false)
      by (apply Z.ltb_ge; lia).
    now rewrite E.
  - intros items row H. unfold DrivesTab.remove_disk.
    assert (E : (0 <=? row)%Z = false) by (apply Z.leb_gt; lia).
    now rewrite E.
Qed.

(** ** The controls after a reload *)

Lemma tab_lookups (emu : emulator_type) (self : EmulatorTab.widgets)
    (config : dict) :
  EmulatorTab.save_config emu self = Ok config ->
  dict_get config (py "screen") =
    Some (VStr (GraphicsTab.screen_mode (EmulatorTab.graphics_tab self) ++ py "/" ++
                str_of_int (GraphicsTab.screen_width (EmulatorTab.graphics_tab self)) ++
                py "/" ++
                str_of_int (GraphicsTab.screen_height (EmulatorTab.graphics_tab self)))) /\
  dict_get config (py "scale_nearest") =
    Some (VBool (GraphicsTab.scale_nearest (EmulatorTab.graphics_tab self))) /\
  dict_get config (py "scale_integer") =
    Some (VBool (GraphicsTab.scale_integer (EmulatorTab.graphics_tab self))) /\
  (emu = basilisk ->
   dict_get config (py "cpu") =
     Some (VInt (CpuMemoryTab.cpu_of_index
                   (CpuMemoryTab.cpu_type (EmulatorTab.cpu_memory_tab self))))).
Proof.
  run_tabs. split_depth self;
    destruct emu; run_dict; intros H; injection H as <-;
    repeat split; try reflexivity; discriminate.
Qed.

Lemma load_screen_saved (d : dict) (mode : str) (w h : Z) :
  Forall (fun c => c <> "/"%char) mode ->
  dict_get d (py "screen") =
    Some (VStr (mode ++ py "/" ++ str_of_int w ++ py "/" ++ str_of_int h)) ->
  GraphicsTab.load_screen d = Ok (Some (mode, w, h)).
Proof.
  intros Hm Hs. unfold GraphicsTab.load_screen, dict_get_default. rewrite Hs.
  cbn [py_str].
  change (py "/" ++ str_of_int w ++ py "/" ++ str_of_int h)
    with ("/"%char :: str_of_int w ++ "/"%char :: str_of_int h).
  rewrite split_on_app by assumption.
  rewrite split_on_app by apply str_of_int_no_slash.
  rewrite split_on_plain by apply str_of_int_no_slash.
  cbn [List.length Nat.leb nth]. unfold int_of_str.
  rewrite !py_int_str_of_int. reflexivity.
Qed.

(** X19.  Save All, then Reload: when the texts of the tab are plain and
    no integer of the tab is negative, every lookup in the document read
    back from the saved file gives what it gives in the dictionary the tab
    saved, and the loading code computes from it the same two scaling
    flags, the same screen mode, width and height when the mode holds no
    slash, and for Basilisk the index of the CPU type (an index outside
    the box counting as the second item). *)
Theorem reloaded_controls (emu : emulator_type) (self : EmulatorTab.widgets)
    (config : dict) (w : world) (p : str) :
  EmulatorTab.save_config emu self = Ok config -> storable self ->
  Forall (fun kv => forall z, snd kv = VInt z -> (0 <= z)%Z) config ->
  writable w p = true ->
  exists d',
    parse (world_after (save w p config)) p = Ok d' /\
    (forall k, dict_get d' k = dict_get config k) /\
    (Forall (fun c => c <> "/"%char)
            (GraphicsTab.screen_mode (EmulatorTab.graphics_tab self)) ->
     GraphicsTab.load_screen d' =
       Ok (Some (GraphicsTab.screen_mode (EmulatorTab.graphics_tab self),
                 GraphicsTab.screen_width (EmulatorTab.graphics_tab self),
                 GraphicsTab.screen_height (EmulatorTab.graphics_tab self)))) /\
    GraphicsTab.load_flag d' (py "scale_nearest") =
      VBool (GraphicsTab.scale_nearest (EmulatorTab.graphics_tab self)) /\
    GraphicsTab.load_flag d' (py "scale_integer") =
      VBool (GraphicsTab.scale_integer (EmulatorTab.graphics_tab self)) /\
    (emu = basilisk ->
     CpuMemoryTab.index_of_cpu d' =
       Ok (match CpuMemoryTab.cpu_type (EmulatorTab.cpu_memory_tab self) with
           | 0 => 0
           | 1 => 1
           | 2 => 2
           | _ => 1
           end)%Z).
Proof.
  intros Hs Hst Hz Hw.
  destruct (tab_reloaded emu self config w p Hs Hst Hz Hw) as (d' & Hp & Hg).
  destruct (tab_lookups emu self config Hs) as (H1 & H2 & H3 & H4).
  exists d'. split; [exact Hp|]. split; [exact Hg|].
  split; [|split; [|split]].
  - intros Hm. apply load_screen_saved; auto. now rewrite Hg.
  - unfold GraphicsTab.load_flag, dict_get_default. now rewrite Hg, H2.
  - unfold GraphicsTab.load_flag, dict_get_default. now rewrite Hg, H3.
  - intros He. unfold CpuMemoryTab.index_of_cpu, dict_get_default.
    rewrite Hg, (H4 He). cbn [int_key bind].
    destruct (CpuMemoryTab.cpu_type (EmulatorTab.cpu_memory_tab self))
      as [|q|q]; try reflexivity.
    destruct q as [q|q|]; try reflexivity. destruct q; reflexivity.
Qed.

Lemma lower_image (s w : str) (c : ascii) :
  lower s = w -> In c s -> In (lower_char c) w.
Proof. intros <- Hin. now apply in_map. Qed.

Lemma convert_ture (raw : str) :
  lower raw = py "ture" -> convert raw = Ok (VStr raw).
Proof.
  intros Hl. unfold convert. rewrite Hl.
  change (str_eqb (py "ture") (py "true")) with false.
  change (str_eqb (py "ture") (py "false")) with false. cbv iota.
  destruct raw as [|c0 [|c1 raw]]; try discriminate Hl.
  assert (H0 : lower_char c0 = "t"%char) by now injection Hl.
  assert (H1 : lower_char c1 = "u"%char) by now injection Hl.
  assert (Hd : isdigit_char c0 = false).
  { revert H0. clear. each_char c0; vm_compute; congruence. }
  rewrite (isdigit_false (c0 :: c1 :: raw) c0 (or_introl eq_refl) Hd).
  assert (Hf : to_ascii_char c1 = c1 /\ Ascii.eqb c1 "_" = false /\
               c_isspace c1 = false /\ literal_char c1 = false).
  { revert H1. clear. each_char c1; vm_compute; intros H;
      first [discriminate H | repeat split]. }
  destruct Hf as (F1 & F2 & F3 & F4).
  rewrite (float_of_str_foreign (c0 :: c1 :: raw) c1); auto.
  right; left; reflexivity.
Qed.

(** X20.  A scaling flag read from a file is switched on exactly when
    its value spells true or ture, in any case of the letters. *)
Theorem scaling_flag_spelling (config : dict) (key raw : str) (v : pyval) :
  convert raw = Ok v -> dict_get config key = Some v ->
  (GraphicsTab.load_flag config key = VBool true <->
   lower raw = py "true" \/ lower raw = py "ture").
Proof.
  intros Hc Hg. unfold GraphicsTab.load_flag, dict_get_default. rewrite Hg.
  split.
  - intros H. revert Hc. unfold convert.
    destruct (str_eqb (lower raw) (py "true")) eqn:E1.
    { apply str_eqb_eq in E1. auto. }
    destruct (str_eqb (lower raw) (py "false")) eqn:E2.
    { intros Hv; injection Hv as <-. discriminate H. }
    destruct (isdigit raw).
    { destruct (py_int raw); [|discriminate].
      intros Hv; injection Hv as <-. discriminate H. }
    destruct (float_of_str raw).
    { intros Hv; injection Hv as <-. discriminate H. }
    intros Hv; injection Hv as <-. injection H as H.
    change (str_eqb (lower raw) (py "true") ||
            (str_eqb (lower raw) (py "ture") || false) = true) in H.
    rewrite E1 in H. cbn [orb] in H.
    rewrite orb_false_r in H. apply str_eqb_eq in H. auto.
  - intros [H | H].
    + assert (E : convert raw = Ok (VBool true)).
      { unfold convert. now rewrite H. }
      rewrite E in Hc. now injection Hc as <-.
    + rewrite (convert_ture raw H) in Hc. injection Hc as <-.
      change (VBool (str_eqb (lower raw) (py "true") ||
                     (str_eqb (lower raw) (py "ture") || false)) = VBool true).
      rewrite H. reflexivity.
Qed.

(** X21.  The CPU type: the index computed from a dictionary is 0, 1
    or 2 and is recovered from the value saved for it; the value saved is
    the one that was loaded when that was 2, 3 or 4, and 3 for any other
    integer and for a missing entry. *)
Theorem cpu_type_normalised (config : dict) (index : Z) :
  CpuMemoryTab.index_of_cpu config = Ok index ->
  (0 <= index <= 2)%Z /\
  CpuMemoryTab.index_of_cpu
    [(py "cpu", VInt (CpuMemoryTab.cpu_of_index index))] = Ok index /\
  (forall z, dict_get config (py "cpu") = Some (VInt z) ->
             CpuMemoryTab.cpu_of_index index =
               if ((z =? 2) || (z =? 3) || (z =? 4))%Z then z else 3%Z) /\
  (dict_get config (py "cpu") = None ->
   CpuMemoryTab.cpu_of_index index = 3%Z).
Proof.
  unfold CpuMemoryTab.index_of_cpu, dict_get_default.
  destruct (dict_get config (py "cpu")) as [v|] eqn:Eg.
  - destruct (int_key v) as [key|e] eqn:Ek; [|discriminate].
    cbn [bind]. intros H; injection H as <-.
    assert (Hcases : forall key : option Z,
              let i := match key with
                       | Some 2 => 0 | Some 3 => 1 | Some 4 => 2 | _ => 1
                       end%Z in
              (0 <= i <= 2)%Z /\
              CpuMemoryTab.index_of_cpu [(py "cpu", VInt (CpuMemoryTab.cpu_of_index i))]
                = Ok i /\
              (forall z, key = Some z ->
                 CpuMemoryTab.cpu_of_index i =
                   if ((z =? 2) || (z =? 3) || (z =? 4))%Z then z else 3%Z)).
    { clear. intros [z|]; [|cbv zeta; repeat split; try lia; discriminate].
      destruct z as [|q|q]; cbv zeta;
        try (repeat split; try lia; intros z H; injection H as <-; reflexivity).
      destruct q as [q|q|];
        try (repeat split; try lia; intros z H; injection H as <-; reflexivity);
        destruct q as [q|q|];
        try (repeat split; try lia; intros z H; injection H as <-; reflexivity);
        destruct q;
        repeat split; try lia; intros z H; injection H as <-; reflexivity. }
    destruct (Hcases key) as (H1 & H2 & H3). repeat split; try apply H1; auto.
    + intros z Hz. injection Hz as ->. cbn [int_key] in Ek.
      injection Ek as <-. now apply H3.
    + discriminate.
  - cbn [int_key bind]. intros H; injection H as <-.
    repeat split; try lia; try reflexivity. discriminate.
Qed.

(** ** The screen text *)




(** ** The colour depth and the magnification rate *)

Lemma graphics_depth_saved (emu : emulator_type) (self : GraphicsTab.widgets)
    (config : dict) (depth : Z) :
  (if existsb (Ascii.eqb "0") (GraphicsTab.color_depth self) then Ok 0%Z
   else int_of_str (GraphicsTab.color_depth self)) = Ok depth ->
  exists config',
    GraphicsTab.save_config emu self config = Ok config' /\
    dict_get config' (py "displaycolordepth") = Some (VInt depth).
Proof.
  intros H. unfold GraphicsTab.save_config. rewrite H. cbn [bind].
  eexists. split; [reflexivity|].
  destruct emu;
    repeat first [ rewrite dict_get_set_same
                 | rewrite dict_get_set_other by other_key ];
    reflexivity.
Qed.

(** X23.  The colour depth: for each of the five items of the box, the
    graphics tab saves the depth the item stands for, and the loading
    code selects that very item again, the first one by its index and the
    others by their text. *)
Theorem colour_depth_round_trip (emu : emulator_type)
    (self : GraphicsTab.widgets) (config : dict) :
  In (GraphicsTab.color_depth self) GraphicsTab.color_depth_items ->
  exists config',
    GraphicsTab.save_config emu self config = Ok config' /\
    (GraphicsTab.color_depth self = py "0 (Default)" ->
     GraphicsTab.load_depth config' = GraphicsTab.ByIndex 0) /\
    (GraphicsTab.color_depth self <> py "0 (Default)" ->
     GraphicsTab.load_depth config' =
       GraphicsTab.ByText (GraphicsTab.color_depth self)).
Proof.
  intros Hin. unfold GraphicsTab.color_depth_items in Hin. cbn [In] in Hin.
  assert (Hd : exists depth,
            (if existsb (Ascii.eqb "0") (GraphicsTab.color_depth self) then Ok 0%Z
             else int_of_str (GraphicsTab.color_depth self)) = Ok depth /\
            (GraphicsTab.color_depth self = py "0 (Default)" -> depth = 0%Z) /\
            (GraphicsTab.color_depth self <> py "0 (Default)" ->
             equals_zero (VInt depth) = false /\
             str_of_int depth = GraphicsTab.color_depth self)).
  { destruct Hin as [<- | [<- | [<- | [<- | [<- | []]]]]].
    - exists 0%Z. split; [reflexivity|]. split; [reflexivity|]. congruence.
    - exists 8%Z. split; [reflexivity|]. split; [discriminate|].
      intros _. split; reflexivity.
    - exists 16%Z. split; [reflexivity|]. split; [discriminate|].
      intros _. split; reflexivity.
    - exists 24%Z. split; [reflexivity|]. split; [discriminate|].
      intros _. split; reflexivity.
    - exists 32%Z. split; [reflexivity|]. split; [discriminate|].
      intros _. split; reflexivity. }
  destruct Hd as (depth & H1 & H2 & H3).
  destruct (graphics_depth_saved emu self config depth H1) as (config' & Hs & Hg).
  exists config'. split; [exact Hs|].
  unfold GraphicsTab.load_depth, dict_get_default. rewrite Hg. split.
  - intros E. rewrite (H2 E). reflexivity.
  - intros E. destruct (H3 E) as [Hz Ht]. rewrite Hz. cbn [py_str].
    now rewrite Ht.
Qed.

Lemma dict_get_found (d : dict) (k : str) (v : pyval) :
  dict_get d k = Some v -> In (k, v) d.
Proof.
  induction d as [|[k' v'] d IH]; [discriminate|]. cbn [dict_get].
  destruct (str_eqb k' k) eqn:E.
  - apply str_eqb_eq in E; subst k'. intros H; injection H as ->. now left.
  - intros H. right. auto.
Qed.

Lemma float_of_int_result (z : Z) :
  forall e, float_of_int z <> FloatRaises e.
Proof.
  intros e. destruct z as [|p|p]; cbn [float_of_int]; try discriminate.
  - destruct (round_ratio false p 1); discriminate.
  - destruct (round_ratio true p 1); discriminate.
Qed.

Lemma convert_not_list (raw : str) (l : list str) :
  convert raw <> Ok (VList l).
Proof.
  unfold convert.
  destruct (str_eqb (lower raw) (py "true")); [discriminate|].
  destruct (str_eqb (lower raw) (py "false")); [discriminate|].
  destruct (isdigit raw); [destruct (py_int raw); discriminate|].
  destruct (float_of_str raw); discriminate.
Qed.

(** X24.  The magnification rate of a parsed file: the loading code
    raises [ValueError] exactly when the file gives [mag_rate] a value
    that is neither a number nor a boolean, and it raises no other
    exception of [float()] but the overflow of an integer; without a
    [mag_rate] line the rate is 1.0. *)
Theorem mag_rate_from_file (w : world) (p : str) (d : dict) :
  parse w p = Ok d ->
  (GraphicsTab.load_mag_rate d = FloatRaises ValueError <->
   exists s, dict_get d (py "mag_rate") = Some (VStr s)) /\
  (forall e, GraphicsTab.load_mag_rate d = FloatRaises e -> e = ValueError) /\
  (dict_get d (py "mag_rate") = None ->
   GraphicsTab.load_mag_rate d =
     FloatOk (S754_finite false 4503599627370496 (-52))).
Proof.
  intros Hp. unfold GraphicsTab.load_mag_rate, dict_get_default.
  destruct (dict_get d (py "mag_rate")) as [v|] eqn:Eg.
  - pose proof (dict_get_found _ _ _ Eg) as Hin.
    destruct (parsed_entries w p d _ Hp Hin) as [[ds H] | H].
    { injection H as H _. vm_compute in H. discriminate H. }
    apply entry_item in H. destruct H as (_ & Hc & _). cbn [snd] in Hc.
    destruct v as [b|z|x|s|l]; cbn [float_of_value].
    + split; [|split].
      * split; [intros H; now apply float_of_int_result in H
               | intros [s H]; discriminate H].
      * intros e H. now apply float_of_int_result in H.
      * discriminate.
    + split; [|split].
      * split; [intros H; now apply float_of_int_result in H
               | intros [s H]; discriminate H].
      * intros e H. now apply float_of_int_result in H.
      * discriminate.
    + split; [|split]; try discriminate.
      split; [discriminate | intros [s H]; discriminate H].
    + cbn [rendered py_str] in Hc.
      assert (Hf : float_of_str s = None).
      { revert Hc. unfold convert.
        destruct (str_eqb (lower s) (py "true")); [discriminate|].
        destruct (str_eqb (lower s) (py "false")); [discriminate|].
        destruct (isdigit s); [destruct (py_int s); discriminate|].
        destruct (float_of_str s); [discriminate | reflexivity]. }
      rewrite Hf. split; [|split].
      * split; eauto.
      * intros e H. now injection H as <-.
      * discriminate.
    + exfalso. now apply convert_not_list in Hc.
  - cbn [float_of_value]. split; [|split]; try discriminate; auto.
    split; [discriminate | intros [s H]; discriminate H].
Qed.

Lemma colour_depth_round_trip_witness :
  exists config',
    GraphicsTab.save_config sheepshaver (EmulatorTab.graphics_tab sample_tab) [] =
      Ok config' /\
    (GraphicsTab.color_depth (EmulatorTab.graphics_tab sample_tab) =
       py "0 (Default)" ->
     GraphicsTab.load_depth config' = GraphicsTab.ByIndex 0) /\
    (GraphicsTab.color_depth (EmulatorTab.graphics_tab sample_tab) <>
       py "0 (Default)" ->
     GraphicsTab.load_depth config' =
       GraphicsTab.ByText (GraphicsTab.color_depth (EmulatorTab.graphics_tab sample_tab))).
Proof.
  apply (colour_depth_round_trip sheepshaver (EmulatorTab.graphics_tab sample_tab) []).
  left; reflexivity.
Defined.

Lemma mag_rate_from_file_witness :
  (GraphicsTab.load_mag_rate [(py "mag_rate", VStr (py "fast")); (py "disks", VList [])] =
     FloatRaises ValueError <->
   exists s, dict_get [(py "mag_rate", VStr (py "fast")); (py "disks", VList [])]
                      (py "mag_rate") = Some (VStr s)) /\
  (forall e,
     GraphicsTab.load_mag_rate [(py "mag_rate", VStr (py "fast")); (py "disks", VList [])] =
       FloatRaises e -> e = ValueError) /\
  (dict_get [(py "mag_rate", VStr (py "fast")); (py "disks", VList [])]
            (py "mag_rate") = None ->
   GraphicsTab.load_mag_rate [(py "mag_rate", VStr (py "fast")); (py "disks", VList [])] =
     FloatOk (S754_finite false 4503599627370496 (-52))).
Proof.
  apply (mag_rate_from_file rate_world (py "rate.cfg")).
  vm_compute; reflexivity.
Defined.

(** ** The examples *)

Lemma plain_text_check (s : str) :
  text_okb s = true -> convert s = Ok (VStr s) -> plain_text s.
Proof. intros H1 H2. split; [now apply text_okb_ok | exact H2]. Qed.

Lemma sample_tab_storable : storable sample_tab.
Proof.
  unfold storable.
  repeat match goal with
         | |- _ /\ _ => split
         | |- plain_text _ => apply plain_text_check; vm_compute; reflexivity
         | |- Forall text_ok _ =>
             repeat (apply Forall_cons; [apply text_okb_ok; reflexivity|]);
             apply Forall_nil
         end.
  - vm_compute. repeat constructor; discriminate.
  - change (valid_float (S754_finite false 6755399441055744 (-52))).
    unfold valid_float. split; [lia|]. split; [reflexivity|].
    right. intros H; vm_compute in H; discriminate H.
Qed.

Lemma sample_saved_ok (emu : emulator_type) :
  EmulatorTab.save_config emu sample_tab = Ok (sample_saved emu).
Proof. destruct emu; reflexivity. Qed.

Lemma sample_saved_nonnegative (emu : emulator_type) :
  Forall (fun kv => forall z, snd kv = VInt z -> (0 <= z)%Z) (sample_saved emu).
Proof.
  destruct emu; vm_compute sample_saved;
    repeat (apply Forall_cons;
            [intros z Hz; try discriminate Hz; injection Hz as <-; lia|]);
    apply Forall_nil.
Qed.

Lemma screen_setting_round_trip_witness :
  GraphicsTab.load_screen sample_graphics = Ok (Some (py "win", 800%Z, 600%Z)) /\
  exists text, dict_get sample_graphics (py "screen") = Some (VStr text) /\
               convert text = Ok (VStr text).
Proof.
  apply (screen_setting_round_trip basilisk (EmulatorTab.graphics_tab sample_tab)
           [] sample_graphics).
  - vm_compute. repeat constructor; discriminate.
  - reflexivity.
Defined.

Lemma tab_dictionary_shape_witness :
  exists config,
    EmulatorTab.save_config sheepshaver sample_tab = Ok config /\
    keys config = keys_written sheepshaver /\
    disks_of config =
      VList (DrivesTab.disk_list (EmulatorTab.drives_tab sample_tab)) /\
    forall w p, writable w p = true -> outcome (save w p config) = Ok tt.
Proof.
  apply (tab_dictionary_shape sheepshaver sample_tab).
  left; reflexivity.
Defined.

Lemma saved_tab_rereads_witness :
  parse (world_after (save editor_world (py "b.cfg") (sample_saved basilisk)))
        (py "b.cfg") =
    Ok (map reread_entry (scalars (sample_saved basilisk)) ++
        [(py "disks", VList (DrivesTab.disk_list (EmulatorTab.drives_tab sample_tab)))]).
Proof.
  exact (saved_tab_rereads basilisk sample_tab (sample_saved basilisk)
           editor_world (py "b.cfg") (sample_saved_ok basilisk)
           sample_tab_storable eq_refl).
Defined.

Lemma reloaded_controls_witness :
  exists d',
    parse (world_after (save editor_world (py "b.cfg") (sample_saved basilisk)))
          (py "b.cfg") = Ok d' /\
    (forall k, dict_get d' k = dict_get (sample_saved basilisk) k) /\
    (Forall (fun c => c <> "/"%char)
            (GraphicsTab.screen_mode (EmulatorTab.graphics_tab sample_tab)) ->
     GraphicsTab.load_screen d' =
       Ok (Some (GraphicsTab.screen_mode (EmulatorTab.graphics_tab sample_tab),
                 GraphicsTab.screen_width (EmulatorTab.graphics_tab sample_tab),
                 GraphicsTab.screen_height (EmulatorTab.graphics_tab sample_tab)))) /\
    GraphicsTab.load_flag d' (py "scale_nearest") =
      VBool (GraphicsTab.scale_nearest (EmulatorTab.graphics_tab sample_tab)) /\
    GraphicsTab.load_flag d' (py "scale_integer") =
      VBool (GraphicsTab.scale_integer (EmulatorTab.graphics_tab sample_tab)) /\
    (basilisk = basilisk ->
     CpuMemoryTab.index_of_cpu d' =
       Ok (match CpuMemoryTab.cpu_type (EmulatorTab.cpu_memory_tab sample_tab) with
           | 0 => 0
           | 1 => 1
           | 2 => 2
           | _ => 1
           end)%Z).
Proof.
  exact (reloaded_controls basilisk sample_tab (sample_saved basilisk)
           editor_world (py "b.cfg") (sample_saved_ok basilisk)
           sample_tab_storable (sample_saved_nonnegative basilisk) eq_refl).
Defined.

Lemma scaling_flag_spelling_witness :
  GraphicsTab.load_flag [(py "scale_nearest", VStr (py "Ture"))]
                        (py "scale_nearest") = VBool true <->
  lower (py "Ture") = py "true" \/ lower (py "Ture") = py "ture".
Proof.
  apply (scaling_flag_spelling [(py "scale_nearest", VStr (py "Ture"))]
           (py "scale_nearest") (py "Ture") (VStr (py "Ture"))).
  - vm_compute; reflexivity.
  - reflexivity.
Defined.

Lemma cpu_type_normalised_witness :
  (0 <= 1 <= 2)%Z /\
  CpuMemoryTab.index_of_cpu [(py "cpu", VInt (CpuMemoryTab.cpu_of_index 1))] = Ok 1%Z /\
  (forall z, dict_get [(py "cpu", VInt 1)] (py "cpu") = Some (VInt z) ->
             CpuMemoryTab.cpu_of_index 1 =
               if ((z =? 2) || (z =? 3) || (z =? 4))%Z then z else 3%Z) /\
  (dict_get [(py "cpu", VInt 1)] (py "cpu") = None ->
   CpuMemoryTab.cpu_of_index 1 = 3%Z).
Proof.
  apply (cpu_type_normalised [(py "cpu", VInt 1)] 1). reflexivity.
Defined.

Lemma save_all_stops_at_first_failure_witness :
  exists w',
    PrefsEditor.save_all_configs locked_world sample_window =
      (PrefsEditor.Critical OSError, w') /\
    files w' (py "b.cfg") =
      Some (translate_on_write (os locked_world)
              (saved_text (DrivesTab.disk_list (EmulatorTab.drives_tab sample_tab))
                          (sample_saved basilisk))) /\
    files w' (py "s.cfg") = files locked_world (py "s.cfg").
Proof.
  apply (proj2 (save_all_stops_at_first_failure locked_world sample_window
                  (sample_saved basilisk) (sample_saved sheepshaver)
                  ltac:(discriminate) ltac:(discriminate) ltac:(discriminate)
                  (sample_saved_ok basilisk) (sample_saved_ok sheepshaver)));
    reflexivity.
Defined.

Lemma save_all_writes_each_file_witness :
  exists w',
    PrefsEditor.save_all_configs editor_world sample_window =
      (PrefsEditor.Information (py "Configurations saved successfully!"), w') /\
    files w' (py "s.cfg") =
      Some (translate_on_write (os editor_world)
              (saved_text (DrivesTab.disk_list (EmulatorTab.drives_tab sample_tab))
                          (sample_saved sheepshaver))) /\
    (py "s.cfg" <> py "b.cfg" ->
     files w' (py "b.cfg") =
       Some (translate_on_write (os editor_world)
               (saved_text (DrivesTab.disk_list (EmulatorTab.drives_tab sample_tab))
                           (sample_saved basilisk)))) /\
    (forall q, q <> py "b.cfg" -> q <> py "s.cfg" ->
               files w' q = files editor_world q).
Proof.
  apply (proj2 (save_all_writes_each_file editor_world sample_window
                  (sample_saved basilisk) (sample_saved sheepshaver)
                  (sample_saved_ok basilisk) (sample_saved_ok sheepshaver)));
    first [discriminate | reflexivity].
Defined.

Lemma launch_starts_on_saved_file_witness :
  exe_of sample_window basilisk <> [] /\
  exists_path editor_world (exe_of sample_window basilisk) = true /\
  exists config,
    EmulatorTab.save_config basilisk (tab_of sample_window basilisk) = Ok config /\
    ((cfg_of sample_window basilisk = [] /\
      [py "/bin/BasiliskII"; py "--config"; py "b.cfg"] =
        [exe_of sample_window basilisk] /\
      world_after (save editor_world (py "b.cfg") (sample_saved basilisk)) =
        editor_world) \/
     (cfg_of sample_window basilisk <> [] /\
      [py "/bin/BasiliskII"; py "--config"; py "b.cfg"] =
        [exe_of sample_window basilisk; py "--config";
         cfg_of sample_window basilisk] /\
      writable editor_world (cfg_of sample_window basilisk) = true /\
      files (world_after (save editor_world (py "b.cfg") (sample_saved basilisk)))
            (cfg_of sample_window basilisk) =
        Some (translate_on_write (os editor_world)
                (saved_text (DrivesTab.disk_list
                               (EmulatorTab.drives_tab (tab_of sample_window basilisk)))
                            config)))).
Proof.
  apply (launch_starts_on_saved_file editor_world
           (world_after (save editor_world (py "b.cfg") (sample_saved basilisk)))
           sample_window basilisk
           [py "/bin/BasiliskII"; py "--config"; py "b.cfg"]).
  reflexivity.
Defined.

Lemma launch_refused_witness :
  exists text,
    PrefsEditor.launch_emulator editor_world sample_window sheepshaver =
      (PrefsEditor.Shown (PrefsEditor.Warning text), editor_world).
Proof.
  apply (proj1 (launch_refused editor_world sample_window sheepshaver)).
  left; reflexivity.
Defined.

Lemma save_touches_only_target_witness :
  files (world_after (save empty_world (py "o.cfg") [(py "disks", VInt 5)]))
        (py "o.cfg") = Some [].
Proof.
  apply (save_touches_only_target empty_world (py "o.cfg") [(py "disks", VInt 5)]).
  reflexivity.
Defined.

Lemma line_separator_does_not_matter_witness :
  parse (put_file sample_world (py "in.cfg")
           (translate_on_write Windows sample_config)) (py "in.cfg") =
    parse sample_world (py "in.cfg").
Proof.
  apply (proj1 (line_separator_does_not_matter sample_world (py "in.cfg"))
           sample_config).
  reflexivity.
Defined.
